(** * fxlog.fxlogger in Rocq

    A shallow embedding of [src/fxlog/fxlogger.py]: the colour palette, the
    line formatter, the rotating file handler's file naming, the logger
    registry kept by Python's [logging] module, and the module-level
    operations [set_log_directory], [configure_logger], [set_loggers_level],
    [delete_old_logs] and [clear_logs].

    Python objects that are shared and mutated (loggers, handlers) live in
    explicit heaps and are referred to by their index, so that aliasing (one
    file handler attached to many loggers) is visible.  Dictionaries and sets
    are [gmap] and [gset].  Operations that can raise return a [Result]. *)

From Stdlib Require Import ZArith String Ascii DecimalString Bool Lia.
From stdpp Require Import base strings gmap list.

Open Scope Z_scope.

(** ** Strings *)

Definition nl : string := String "010"%char EmptyString.

(** [str(n)] for a Python int. *)
Definition str (n : Z) : string := NilZero.string_of_int (Z.to_int n).

Fixpoint spaces (n : nat) : string :=
  match n with
  | O => EmptyString
  | S k => String " "%char (spaces k)
  end.

(** The format specification [{x:>Ns}]: right-aligned in a field of width N. *)
Definition rjust (width : nat) (s : string) : string :=
  spaces (width - String.length s)%nat +:+ s.

(** ["-" * n] *)
Fixpoint dashes (n : nat) : string :=
  match n with
  | O => EmptyString
  | S k => String "-"%char (dashes k)
  end.

Fixpoint contains_char (c : ascii) (s : string) : bool :=
  match s with
  | EmptyString => false
  | String x s' => Ascii.eqb x c || contains_char c s'
  end.

(** Python truthiness of a [str]: the empty string is false. *)
Definition truthy (s : string) : bool :=
  match s with EmptyString => false | _ => true end.

(** ** Level constants (lines 37-44) *)

Definition CRITICAL : Z := 50.
Definition FATAL : Z := CRITICAL.
Definition ERROR : Z := 40.
Definition WARNING : Z := 30.
Definition WARN : Z := WARNING.
Definition INFO : Z := 20.
Definition DEBUG : Z := 10.
Definition NOTSET : Z := 0.

(** [logging.getLevelName] with the standard table. *)
Definition getLevelName (level : Z) : string :=
  if level =? CRITICAL then "CRITICAL"
  else if level =? ERROR then "ERROR"
  else if level =? WARNING then "WARNING"
  else if level =? INFO then "INFO"
  else if level =? DEBUG then "DEBUG"
  else if level =? NOTSET then "NOTSET"
  else "Level " +:+ str level.

(** ** colorama *)

Module colorama.

Definition ESC : ascii := "027"%char.
Definition CSI : string := String ESC "[".
Definition code_to_chars (code : Z) : string := CSI +:+ str code +:+ "m".

Module Fore.
Definition BLACK : string := code_to_chars 30.
Definition RED : string := code_to_chars 31.
Definition GREEN : string := code_to_chars 32.
Definition YELLOW : string := code_to_chars 33.
Definition BLUE : string := code_to_chars 34.
Definition MAGENTA : string := code_to_chars 35.
Definition CYAN : string := code_to_chars 36.
Definition WHITE : string := code_to_chars 37.
End Fore.

Module Style.
Definition BRIGHT : string := code_to_chars 1.
Definition DIM : string := code_to_chars 2.
Definition RESET_ALL : string := code_to_chars 0.
End Style.

End colorama.

(** A string holds no ANSI escape sequence when the ESC character, with which
    every such sequence starts, does not occur in it. *)
Definition ansi_free (s : string) : bool := negb (contains_char colorama.ESC s).

(** ** The palette (lines 134-149)

    [_COLOR_SUPPORTED] is the result of the probe [_supports_color()], taken
    once when the module is imported. *)

Section Palette.

Variable _COLOR_SUPPORTED : bool.

Definition BLACK : string := if _COLOR_SUPPORTED then colorama.Fore.BLACK else "".
Definition BLUE : string := if _COLOR_SUPPORTED then colorama.Fore.BLUE else "".
Definition CYAN : string := if _COLOR_SUPPORTED then colorama.Fore.CYAN else "".
Definition GREEN : string := if _COLOR_SUPPORTED then colorama.Fore.GREEN else "".
Definition MAGENTA : string := if _COLOR_SUPPORTED then colorama.Fore.MAGENTA else "".
Definition RED : string := if _COLOR_SUPPORTED then colorama.Fore.RED else "".
Definition WHITE : string := if _COLOR_SUPPORTED then colorama.Fore.WHITE else "".
Definition YELLOW : string := if _COLOR_SUPPORTED then colorama.Fore.YELLOW else "".
Definition BRIGHT : string := if _COLOR_SUPPORTED then colorama.Style.BRIGHT else "".
Definition DIM : string := if _COLOR_SUPPORTED then colorama.Style.DIM else "".
Definition RESET_ALL : string := if _COLOR_SUPPORTED then colorama.Style.RESET_ALL else "".

(** Every name the module exposes as a colour or a style. *)
Definition palette : list string :=
  [BLACK; BLUE; CYAN; GREEN; MAGENTA; RED; WHITE; YELLOW; BRIGHT; DIM; RESET_ALL].

End Palette.

(** ** Log records

    The attributes of [logging.LogRecord] that the module reads or writes.
    [msg] is the message with its arguments already merged ([getMessage()]);
    [created] is the local time of creation in seconds.  [color] is the
    attribute [FXColorLogger._log] adds; [module_function], [message] and
    [asctime] are the attributes formatting adds ([None] until then). *)

Record LogRecord := {
  name : string;
  levelno : Z;
  levelname : string;
  pathname : string;
  lineno : Z;
  msg : string;
  funcName : string;
  created : Z;
  color : option string;
  module_function : option string;
  message : option string;
  asctime : option string
}.

(** [LogRecord.__init__], as called through [Logger.makeRecord]. *)
Definition makeRecord (name : string) (level : Z) (fn : string) (lno : Z)
    (msg func : string) (created : Z) : LogRecord :=
  {| name := name; levelno := level; levelname := getLevelName level;
     pathname := fn; lineno := lno; msg := msg; funcName := func;
     created := created; color := None;
     module_function := None; message := None; asctime := None |}.

Definition set_color (c : string) (r : LogRecord) : LogRecord :=
  {| name := name r; levelno := levelno r; levelname := levelname r;
     pathname := pathname r; lineno := lineno r; msg := msg r;
     funcName := funcName r; created := created r; color := Some c;
     module_function := module_function r; message := message r;
     asctime := asctime r |}.

Definition set_module_function (mf : string) (r : LogRecord) : LogRecord :=
  {| name := name r; levelno := levelno r; levelname := levelname r;
     pathname := pathname r; lineno := lineno r; msg := msg r;
     funcName := funcName r; created := created r; color := color r;
     module_function := Some mf; message := message r;
     asctime := asctime r |}.

Definition set_message_asctime (m a : string) (r : LogRecord) : LogRecord :=
  {| name := name r; levelno := levelno r; levelname := levelname r;
     pathname := pathname r; lineno := lineno r; msg := msg r;
     funcName := funcName r; created := created r; color := color r;
     module_function := module_function r; message := Some m;
     asctime := Some a |}.

(** ** FXFormatter (lines 152-266) *)

Record FXFormatter := {
  enable_color : bool;
  enable_separator : bool
}.

(** [FXFormatter.__init__]: colour is switched off when the terminal does not
    support it. *)
Definition FXFormatter_init (_COLOR_SUPPORTED : bool)
    (enable_color enable_separator : bool) : FXFormatter :=
  {| enable_color :=
       if enable_color then (if negb _COLOR_SUPPORTED then false else true)
       else enable_color;
     enable_separator := enable_separator |}.

Definition level_colors (levelno : Z) : option string :=
  if levelno =? DEBUG then Some colorama.Fore.CYAN
  else if levelno =? INFO then Some colorama.Fore.GREEN
  else if levelno =? WARNING then Some colorama.Fore.YELLOW
  else if levelno =? ERROR then Some colorama.Fore.RED
  else if levelno =? CRITICAL then Some colorama.Fore.MAGENTA
  else None.

(** The format string [log_fmt] that [format] builds is a template in the
    [{]-style: literal text and the five fields it names. *)
Inductive Piece :=
  | Lit (s : string)
  | F_asctime
  | F_levelname (width : nat)
  | F_module_function
  | F_lineno
  | F_message.

Definition width_name : nat := 40.
Definition width_levelname : nat := 8.

(** The override colour is pasted into the template text, where [str.format]
    would read a brace in it as template syntax; that case is left out of the
    model ([None]).  Every palette token is free of braces. *)
Definition brace_free (s : string) : bool :=
  negb (contains_char "{"%char s) && negb (contains_char "}"%char s).

Definition log_fmt (self : FXFormatter) (record : LogRecord) : option (list Piece) :=
  if enable_color self then
    let separator :=
      if enable_separator self then
        colorama.Style.DIM +:+ dashes 79 +:+ colorama.Style.RESET_ALL +:+ nl
      else "" in
    let message_color := color record in
    let colored :=
      match message_color with
      | Some c => truthy c && enable_color self
      | None => false
      end in
    let color_start := if colored then default "" message_color else "" in
    let color_end := if colored then colorama.Style.RESET_ALL else "" in
    if brace_free color_start then
      Some [ Lit separator;
             Lit colorama.Style.DIM; F_asctime; Lit " "; Lit colorama.Style.RESET_ALL;
             Lit (default colorama.Fore.WHITE (level_colors (levelno record)));
             F_levelname width_levelname; Lit " "; Lit colorama.Style.RESET_ALL;
             Lit colorama.Style.DIM; Lit " "; Lit colorama.Style.RESET_ALL;
             Lit colorama.Style.DIM; F_module_function; Lit ":"; F_lineno;
             Lit colorama.Style.RESET_ALL; Lit nl;
             Lit "    "; Lit color_start; F_message; Lit color_end ]
    else None
  else
    let separator := if enable_separator self then dashes 79 +:+ nl else "" in
    Some [ Lit separator;
           F_asctime; Lit " ";
           F_levelname width_levelname; Lit " ";
           F_module_function; Lit ":"; F_lineno; Lit nl;
           Lit "    "; F_message ].

Definition two_digits (n : Z) : string :=
  if n <? 10 then "0" +:+ str n else str n.

(** [Formatter.formatTime] with [datefmt="%H:%M:%S"]. *)
Definition formatTime (created : Z) : string :=
  two_digits ((created / 3600) mod 24) +:+ ":" +:+
  two_digits ((created / 60) mod 60) +:+ ":" +:+
  two_digits (created mod 60).

Definition render_piece (record : LogRecord) (p : Piece) : string :=
  match p with
  | Lit s => s
  | F_asctime => default "" (asctime record)
  | F_levelname w => rjust w (levelname record)
  | F_module_function => default "" (module_function record)
  | F_lineno => str (lineno record)
  | F_message => default "" (message record)
  end.

Fixpoint formatMessage (record : LogRecord) (ps : list Piece) : string :=
  match ps with
  | [] => ""
  | p :: ps' => render_piece record p +:+ formatMessage record ps'
  end.

(** What [format] does to the record: it stores [module_function] on it, and
    [logging.Formatter.format] then stores [message] and [asctime]. *)
Definition formatted_record (record : LogRecord) : LogRecord :=
  set_message_asctime (msg record) (formatTime (created record))
    (set_module_function (name record +:+ ":" +:+ funcName record) record).

(** The string [format] returns. *)
Definition format_string (self : FXFormatter) (record : LogRecord) : option string :=
  let record := formatted_record record in
  match log_fmt self record with
  | Some ps => Some (formatMessage record ps)
  | None => None
  end.

(** ** FXTimedRotatingFileHandler (lines 269-278) *)

(** [str.rfind] for a one-character needle: the highest index, or -1. *)
Fixpoint rfind_from (i : Z) (p : string) (c : ascii) (found : Z) : Z :=
  match p with
  | EmptyString => found
  | String x p' => rfind_from (i + 1) p' c (if Ascii.eqb x c then i else found)
  end.

Definition rfind (p : string) (c : ascii) : Z := rfind_from 0 p c (-1).

(** The slices [p[:i]] and [p[i:]] for [0 <= i]. *)
Definition slice_to (p : string) (i : Z) : string := substring 0 (Z.to_nat i) p.
Definition slice_from (p : string) (i : Z) : string :=
  substring (Z.to_nat i) (String.length p - Z.to_nat i) p.

(** The loop of [genericpath._splitext] that skips leading dots of the file
    name: is some character in [p[filenameIndex:dotIndex]] not a dot?  [p] is
    here the text from [filenameIndex] on and [n] the number of characters up
    to [dotIndex]. *)
Fixpoint has_non_dot (p : string) (n : nat) : bool :=
  match n, p with
  | S k, String x p' => if Ascii.eqb x "."%char then has_non_dot p' k else true
  | _, _ => false
  end.

(** [genericpath._splitext(p, sep, altsep, extsep)] with [extsep = "."]. *)
Definition _splitext (p : string) (sep : ascii) (altsep : option ascii) : string * string :=
  let sepIndex := rfind p sep in
  let sepIndex :=
    match altsep with
    | Some a => Z.max sepIndex (rfind p a)
    | None => sepIndex
    end in
  let dotIndex := rfind p "."%char in
  if (sepIndex <? dotIndex)
     && has_non_dot (slice_from p (sepIndex + 1)) (Z.to_nat (dotIndex - (sepIndex + 1)))
  then (slice_to p dotIndex, slice_from p dotIndex)
  else (p, EmptyString).

(** [os.path.splitext]: [posixpath] has no [altsep], [ntpath] has the
    backslash with the slash as [altsep]. *)
Inductive os_path := posixpath | ntpath.

Definition splitext (os : os_path) (p : string) : string * string :=
  match os with
  | posixpath => _splitext p "/"%char None
  | ntpath => _splitext p "\"%char (Some "/"%char)
  end.

(** [rotation_filename]; [suffix] is the handler's attribute of that name. *)
Definition rotation_filename (os : os_path) (suffix : string) (default_name : string) : string :=
  let '(name, ext) := splitext os default_name in
  name +:+ "." +:+ suffix +:+ ext.

(** ** The state of the process

    Paths are lists of components.  The file system maps a path to what is
    there; a time is a [datetime], counted in microseconds from
    0001-01-01 00:00:00 local time. *)

Definition Path := list string.

Inductive Node :=
  | Dir
  | File (mtime : Z).

Inductive LoggerClass :=
  | Logger_class
  | RootLogger_class
  | FXColorLogger_class.

Global Instance LoggerClass_eq_dec : EqDecision LoggerClass.
Proof. solve_decision. Defined.

(** A [logging.Logger]; [lg_handlers] holds indices into the handler heap. *)
Record Logger := {
  lg_name : string;
  lg_class : LoggerClass;
  lg_level : Z;
  lg_handlers : list nat;
  lg_propagate : bool
}.

(** A [logging.Handler]: the console handler [logging.StreamHandler()] (it
    writes to [sys.stderr]) or the rotating file handler. *)
Inductive HandlerClass :=
  | StreamHandler
  | FXTimedRotatingFileHandler (baseFilename : Path) (suffix : string).

Record Handler := {
  h_class : HandlerClass;
  h_level : Z;
  h_formatter : FXFormatter
}.

(** An entry of [logging.Logger.manager.loggerDict]. *)
Inductive DictEntry :=
  | PlaceHolder
  | LoggerRef (id : nat).

Record State := {
  _LOG_DIRECTORY : option Path;
  _CONFIGURED_LOGGERS : gset string;
  _SHARED_FILE_HANDLER : option nat;
  _DEFAULT_LEVEL : option Z;
  _COLOR_SUPPORTED : bool;
  FXFormatter_loggers : gset string;
  _loggerClass : LoggerClass;
  loggerDict : gmap string DictEntry;
  logger_heap : list Logger;
  handler_heap : list Handler;
  fs : gmap Path Node;
  stdout : list string;
  stderr : list string;
  file_output : list (Path * string);
  handled : list LogRecord
}.

(** Field updates. *)
Definition set__LOG_DIRECTORY (v : option Path) (st : State) : State :=
  {| _LOG_DIRECTORY := v; _CONFIGURED_LOGGERS := _CONFIGURED_LOGGERS st;
     _SHARED_FILE_HANDLER := _SHARED_FILE_HANDLER st;
     _DEFAULT_LEVEL := _DEFAULT_LEVEL st;
     _COLOR_SUPPORTED := _COLOR_SUPPORTED st;
     FXFormatter_loggers := FXFormatter_loggers st;
     _loggerClass := _loggerClass st; loggerDict := loggerDict st;
     logger_heap := logger_heap st; handler_heap := handler_heap st;
     fs := fs st; stdout := stdout st; stderr := stderr st;
     file_output := file_output st; handled := handled st |}.

Definition set__CONFIGURED_LOGGERS (v : gset string) (st : State) : State :=
  {| _LOG_DIRECTORY := _LOG_DIRECTORY st; _CONFIGURED_LOGGERS := v;
     _SHARED_FILE_HANDLER := _SHARED_FILE_HANDLER st;
     _DEFAULT_LEVEL := _DEFAULT_LEVEL st;
     _COLOR_SUPPORTED := _COLOR_SUPPORTED st;
     FXFormatter_loggers := FXFormatter_loggers st;
     _loggerClass := _loggerClass st; loggerDict := loggerDict st;
     logger_heap := logger_heap st; handler_heap := handler_heap st;
     fs := fs st; stdout := stdout st; stderr := stderr st;
     file_output := file_output st; handled := handled st |}.

Definition set__SHARED_FILE_HANDLER (v : option nat) (st : State) : State :=
  {| _LOG_DIRECTORY := _LOG_DIRECTORY st;
     _CONFIGURED_LOGGERS := _CONFIGURED_LOGGERS st;
     _SHARED_FILE_HANDLER := v; _DEFAULT_LEVEL := _DEFAULT_LEVEL st;
     _COLOR_SUPPORTED := _COLOR_SUPPORTED st;
     FXFormatter_loggers := FXFormatter_loggers st;
     _loggerClass := _loggerClass st; loggerDict := loggerDict st;
     logger_heap := logger_heap st; handler_heap := handler_heap st;
     fs := fs st; stdout := stdout st; stderr := stderr st;
     file_output := file_output st; handled := handled st |}.

Definition set__DEFAULT_LEVEL (v : option Z) (st : State) : State :=
  {| _LOG_DIRECTORY := _LOG_DIRECTORY st;
     _CONFIGURED_LOGGERS := _CONFIGURED_LOGGERS st;
     _SHARED_FILE_HANDLER := _SHARED_FILE_HANDLER st; _DEFAULT_LEVEL := v;
     _COLOR_SUPPORTED := _COLOR_SUPPORTED st;
     FXFormatter_loggers := FXFormatter_loggers st;
     _loggerClass := _loggerClass st; loggerDict := loggerDict st;
     logger_heap := logger_heap st; handler_heap := handler_heap st;
     fs := fs st; stdout := stdout st; stderr := stderr st;
     file_output := file_output st; handled := handled st |}.

Definition set_FXFormatter_loggers (v : gset string) (st : State) : State :=
  {| _LOG_DIRECTORY := _LOG_DIRECTORY st;
     _CONFIGURED_LOGGERS := _CONFIGURED_LOGGERS st;
     _SHARED_FILE_HANDLER := _SHARED_FILE_HANDLER st;
     _DEFAULT_LEVEL := _DEFAULT_LEVEL st;
     _COLOR_SUPPORTED := _COLOR_SUPPORTED st; FXFormatter_loggers := v;
     _loggerClass := _loggerClass st; loggerDict := loggerDict st;
     logger_heap := logger_heap st; handler_heap := handler_heap st;
     fs := fs st; stdout := stdout st; stderr := stderr st;
     file_output := file_output st; handled := handled st |}.

Definition set__loggerClass (v : LoggerClass) (st : State) : State :=
  {| _LOG_DIRECTORY := _LOG_DIRECTORY st;
     _CONFIGURED_LOGGERS := _CONFIGURED_LOGGERS st;
     _SHARED_FILE_HANDLER := _SHARED_FILE_HANDLER st;
     _DEFAULT_LEVEL := _DEFAULT_LEVEL st;
     _COLOR_SUPPORTED := _COLOR_SUPPORTED st;
     FXFormatter_loggers := FXFormatter_loggers st; _loggerClass := v;
     loggerDict := loggerDict st; logger_heap := logger_heap st;
     handler_heap := handler_heap st; fs := fs st; stdout := stdout st;
     stderr := stderr st; file_output := file_output st;
     handled := handled st |}.

Definition set_loggerDict (v : gmap string DictEntry) (st : State) : State :=
  {| _LOG_DIRECTORY := _LOG_DIRECTORY st;
     _CONFIGURED_LOGGERS := _CONFIGURED_LOGGERS st;
     _SHARED_FILE_HANDLER := _SHARED_FILE_HANDLER st;
     _DEFAULT_LEVEL := _DEFAULT_LEVEL st;
     _COLOR_SUPPORTED := _COLOR_SUPPORTED st;
     FXFormatter_loggers := FXFormatter_loggers st;
     _loggerClass := _loggerClass st; loggerDict := v;
     logger_heap := logger_heap st; handler_heap := handler_heap st;
     fs := fs st; stdout := stdout st; stderr := stderr st;
     file_output := file_output st; handled := handled st |}.

Definition set_logger_heap (v : list Logger) (st : State) : State :=
  {| _LOG_DIRECTORY := _LOG_DIRECTORY st;
     _CONFIGURED_LOGGERS := _CONFIGURED_LOGGERS st;
     _SHARED_FILE_HANDLER := _SHARED_FILE_HANDLER st;
     _DEFAULT_LEVEL := _DEFAULT_LEVEL st;
     _COLOR_SUPPORTED := _COLOR_SUPPORTED st;
     FXFormatter_loggers := FXFormatter_loggers st;
     _loggerClass := _loggerClass st; loggerDict := loggerDict st;
     logger_heap := v; handler_heap := handler_heap st; fs := fs st;
     stdout := stdout st; stderr := stderr st;
     file_output := file_output st; handled := handled st |}.

Definition set_handler_heap (v : list Handler) (st : State) : State :=
  {| _LOG_DIRECTORY := _LOG_DIRECTORY st;
     _CONFIGURED_LOGGERS := _CONFIGURED_LOGGERS st;
     _SHARED_FILE_HANDLER := _SHARED_FILE_HANDLER st;
     _DEFAULT_LEVEL := _DEFAULT_LEVEL st;
     _COLOR_SUPPORTED := _COLOR_SUPPORTED st;
     FXFormatter_loggers := FXFormatter_loggers st;
     _loggerClass := _loggerClass st; loggerDict := loggerDict st;
     logger_heap := logger_heap st; handler_heap := v; fs := fs st;
     stdout := stdout st; stderr := stderr st;
     file_output := file_output st; handled := handled st |}.

Definition set_fs (v : gmap Path Node) (st : State) : State :=
  {| _LOG_DIRECTORY := _LOG_DIRECTORY st;
     _CONFIGURED_LOGGERS := _CONFIGURED_LOGGERS st;
     _SHARED_FILE_HANDLER := _SHARED_FILE_HANDLER st;
     _DEFAULT_LEVEL := _DEFAULT_LEVEL st;
     _COLOR_SUPPORTED := _COLOR_SUPPORTED st;
     FXFormatter_loggers := FXFormatter_loggers st;
     _loggerClass := _loggerClass st; loggerDict := loggerDict st;
     logger_heap := logger_heap st; handler_heap := handler_heap st;
     fs := v; stdout := stdout st; stderr := stderr st;
     file_output := file_output st; handled := handled st |}.

Definition set_stdout (v : list string) (st : State) : State :=
  {| _LOG_DIRECTORY := _LOG_DIRECTORY st;
     _CONFIGURED_LOGGERS := _CONFIGURED_LOGGERS st;
     _SHARED_FILE_HANDLER := _SHARED_FILE_HANDLER st;
     _DEFAULT_LEVEL := _DEFAULT_LEVEL st;
     _COLOR_SUPPORTED := _COLOR_SUPPORTED st;
     FXFormatter_loggers := FXFormatter_loggers st;
     _loggerClass := _loggerClass st; loggerDict := loggerDict st;
     logger_heap := logger_heap st; handler_heap := handler_heap st;
     fs := fs st; stdout := v; stderr := stderr st;
     file_output := file_output st; handled := handled st |}.

Definition set_stderr (v : list string) (st : State) : State :=
  {| _LOG_DIRECTORY := _LOG_DIRECTORY st;
     _CONFIGURED_LOGGERS := _CONFIGURED_LOGGERS st;
     _SHARED_FILE_HANDLER := _SHARED_FILE_HANDLER st;
     _DEFAULT_LEVEL := _DEFAULT_LEVEL st;
     _COLOR_SUPPORTED := _COLOR_SUPPORTED st;
     FXFormatter_loggers := FXFormatter_loggers st;
     _loggerClass := _loggerClass st; loggerDict := loggerDict st;
     logger_heap := logger_heap st; handler_heap := handler_heap st;
     fs := fs st; stdout := stdout st; stderr := v;
     file_output := file_output st; handled := handled st |}.

Definition set_file_output (v : list (Path * string)) (st : State) : State :=
  {| _LOG_DIRECTORY := _LOG_DIRECTORY st;
     _CONFIGURED_LOGGERS := _CONFIGURED_LOGGERS st;
     _SHARED_FILE_HANDLER := _SHARED_FILE_HANDLER st;
     _DEFAULT_LEVEL := _DEFAULT_LEVEL st;
     _COLOR_SUPPORTED := _COLOR_SUPPORTED st;
     FXFormatter_loggers := FXFormatter_loggers st;
     _loggerClass := _loggerClass st; loggerDict := loggerDict st;
     logger_heap := logger_heap st; handler_heap := handler_heap st;
     fs := fs st; stdout := stdout st; stderr := stderr st;
     file_output := v; handled := handled st |}.

Definition set_handled (v : list LogRecord) (st : State) : State :=
  {| _LOG_DIRECTORY := _LOG_DIRECTORY st;
     _CONFIGURED_LOGGERS := _CONFIGURED_LOGGERS st;
     _SHARED_FILE_HANDLER := _SHARED_FILE_HANDLER st;
     _DEFAULT_LEVEL := _DEFAULT_LEVEL st;
     _COLOR_SUPPORTED := _COLOR_SUPPORTED st;
     FXFormatter_loggers := FXFormatter_loggers st;
     _loggerClass := _loggerClass st; loggerDict := loggerDict st;
     logger_heap := logger_heap st; handler_heap := handler_heap st;
     fs := fs st; stdout := stdout st; stderr := stderr st;
     file_output := file_output st; handled := v |}.

(** ** Results and exceptions *)

Inductive Exception :=
  | ValueError (text : string)
  | TypeError (text : string)
  | AttributeError (text : string)
  | OverflowError (text : string)
  | OSError (text : string).

Inductive Result (A : Type) :=
  | Ok (a : A) (st : State)
  | Raise (e : Exception) (st : State).

Arguments Ok {A} a st.
Arguments Raise {A} e st.

(** A computation of the module: it reads and changes the state and either
    returns or raises. *)
Definition M (A : Type) : Type := State -> Result A.

Definition ret {A} (a : A) : M A := fun st => Ok a st.

Definition bind {A B} (c : M A) (k : A -> M B) : M B :=
  fun st =>
    match c st with
    | Ok a st' => k a st'
    | Raise e st' => Raise e st'
    end.

Definition raise {A} (e : Exception) : M A := fun st => Raise e st.
Definition get {A} (f : State -> A) : M A := fun st => Ok (f st) st.
Definition modify (f : State -> State) : M unit := fun st => Ok tt (f st).

Notation "'do' x <- c ; k" := (bind c (fun x => k))
  (at level 10, x name, c at level 100, k at level 200, only parsing).
Notation "'do_' c ; k" := (bind c (fun _ => k))
  (at level 10, c at level 100, k at level 200, only parsing).

(** The state a call leaves behind, whether it returned or raised. *)
Definition state_of {A} (r : Result A) : State :=
  match r with
  | Ok _ st => st
  | Raise _ st => st
  end.

Definition is_ok {A} (r : Result A) : bool :=
  match r with
  | Ok _ _ => true
  | Raise _ _ => false
  end.

(** What the operating system tells a call: the clock ([datetime.now()] and
    its rendering with [strftime("%Y_%m_%d")]), [platform.node()] and
    [getpass.getuser()]. *)
Record Env := {
  now : Z;
  current_date : string;
  node : string;
  user : string
}.

(** ** The file system *)

Definition is_dir (p : Path) (st : State) : bool :=
  match fs st !! p with
  | Some Dir => true
  | _ => false
  end.

Definition is_file (p : Path) (st : State) : bool :=
  match fs st !! p with
  | Some (File _) => true
  | _ => false
  end.

(** [Path.mkdir(parents=True, exist_ok=True)], one component after the other
    from [base] on: a missing directory is made, an existing one is kept, and
    a file in the way is an error. *)
Fixpoint mkdir_from (base : Path) (comps : list string) (f : gmap Path Node)
  : option (gmap Path Node) :=
  match comps with
  | [] => Some f
  | c :: rest =>
      let p := base ++ [c] in
      match f !! p with
      | None => mkdir_from p rest (<[p := Dir]> f)
      | Some Dir => mkdir_from p rest f
      | Some (File _) => None
      end
  end.

Definition mkdir (p : Path) : M unit :=
  fun st =>
    match mkdir_from [] p (fs st) with
    | Some f => Ok tt (set_fs f st)
    | None => Raise (OSError "mkdir") st
    end.

(** Opening a file for appending creates it when it is missing. *)
Definition open_append (e : Env) (p : Path) : M unit :=
  fun st =>
    match fs st !! p with
    | Some Dir => Raise (OSError "open") st
    | Some (File _) => Ok tt st
    | None => Ok tt (set_fs (<[p := File (now e)]> (fs st)) st)
    end.

(** [Path.iterdir()]: the entries directly inside [d]. *)
Definition is_child (d p : Path) : bool :=
  bool_decide (p <> [] /\ take (length p - 1)%nat p = d).

Definition iterdir (d : Path) (st : State) : list Path :=
  filter (fun p => is_child d p = true) (map_to_list (fs st)).*1.

Definition unlink (p : Path) (st : State) : State :=
  set_fs (delete p (fs st)) st.

Fixpoint path_str (p : Path) : string :=
  match p with
  | [] => ""
  | c :: rest => "/" +:+ c +:+ path_str rest
  end.

(** ** The [logging] module

    The part of Python's [logging] the module calls.  The root logger is the
    first object of the logger heap.  A logger's parent is the closest
    ancestor by dotted name that [loggerDict] holds as a logger (the manager
    keeps [Logger.parent] that way), else the root.  [Logger.disabled],
    [logging.disable] and filters are never touched by the module and keep
    their defaults; rollover of the file handler is not part of the model. *)

Definition root_id : nat := 0.

Definition with_level (v : Z) (lg : Logger) : Logger :=
  {| lg_name := lg_name lg; lg_class := lg_class lg; lg_level := v;
     lg_handlers := lg_handlers lg; lg_propagate := lg_propagate lg |}.

Definition with_handlers (v : list nat) (lg : Logger) : Logger :=
  {| lg_name := lg_name lg; lg_class := lg_class lg; lg_level := lg_level lg;
     lg_handlers := v; lg_propagate := lg_propagate lg |}.

Definition with_propagate (v : bool) (lg : Logger) : Logger :=
  {| lg_name := lg_name lg; lg_class := lg_class lg; lg_level := lg_level lg;
     lg_handlers := lg_handlers lg; lg_propagate := v |}.

Definition with_h_level (v : Z) (h : Handler) : Handler :=
  {| h_class := h_class h; h_level := v; h_formatter := h_formatter h |}.

Definition update_logger (id : nat) (f : Logger -> Logger) (st : State) : State :=
  set_logger_heap (alter f id (logger_heap st)) st.

Definition update_handler (hid : nat) (f : Handler -> Handler) (st : State) : State :=
  set_handler_heap (alter f hid (handler_heap st)) st.

(** The loop of [Manager._fixupParents] over the name:
    [i = name.rfind(".")], then [i = name.rfind(".", 0, i - 1)] while [i > 0].
    [i] decreases, so the length of the name is fuel enough. *)
Fixpoint parent_prefixes_from (fuel : nat) (name : string) (i : Z) : list string :=
  match fuel with
  | O => []
  | S k =>
      if 0 <? i then
        slice_to name i
          :: parent_prefixes_from k name (rfind (slice_to name (i - 1)) "."%char)
      else []
  end.

Definition parent_prefixes (name : string) : list string :=
  parent_prefixes_from (String.length name) name (rfind name "."%char).

Fixpoint _fixupParents (prefixes : list string) (d : gmap string DictEntry)
  : gmap string DictEntry :=
  match prefixes with
  | [] => d
  | substr :: rest =>
      match d !! substr with
      | None => _fixupParents rest (<[substr := PlaceHolder]> d)
      | Some (LoggerRef _) => d
      | Some PlaceHolder => _fixupParents rest d
      end
  end.

(** [logging.getLogger(name)]: the root for an empty name or the root's own
    name; else the logger [loggerDict] holds; else a new logger of the current
    logger class, which also takes the place of a placeholder. *)
Definition is_root_name (name : string) : bool :=
  negb (truthy name) || String.eqb name "root".

Definition new_logger (name : string) (cls : LoggerClass) : Logger :=
  {| lg_name := name; lg_class := cls; lg_level := NOTSET;
     lg_handlers := []; lg_propagate := true |}.

Definition getLogger (name : string) : M nat :=
  fun st =>
    if is_root_name name then Ok root_id st
    else
      match loggerDict st !! name with
      | Some (LoggerRef id) => Ok id st
      | _ =>
          let id := length (logger_heap st) in
          let st := set_logger_heap (logger_heap st ++ [new_logger name (_loggerClass st)]) st in
          let st := set_loggerDict (<[name := LoggerRef id]> (loggerDict st)) st in
          Ok id (set_loggerDict (_fixupParents (parent_prefixes name) (loggerDict st)) st)
      end.

Definition getLoggerClass : M LoggerClass := get _loggerClass.
Definition setLoggerClass (klass : LoggerClass) : M unit := modify (set__loggerClass klass).

(** [Logger.addHandler]: a handler already attached is not attached again. *)
Definition addHandler (self hdlr : nat) : M unit :=
  modify (update_logger self (fun lg =>
    if bool_decide (hdlr ∈ lg_handlers lg) then lg
    else with_handlers (lg_handlers lg ++ [hdlr]) lg)).

Definition Logger_setLevel (self : nat) (level : Z) : M unit :=
  modify (update_logger self (with_level level)).

Definition Handler_setLevel (self : nat) (level : Z) : M unit :=
  modify (update_handler self (with_h_level level)).

Definition handlers_of (self : nat) (st : State) : list nat :=
  match logger_heap st !! self with
  | Some lg => lg_handlers lg
  | None => []
  end.

Definition class_of (self : nat) (st : State) : option LoggerClass :=
  lg_class <$> logger_heap st !! self.

(** The chain of parents of a logger, the root last. *)
Fixpoint first_logger (prefixes : list string) (d : gmap string DictEntry)
  : option (string * nat) :=
  match prefixes with
  | [] => None
  | p :: rest =>
      match d !! p with
      | Some (LoggerRef id) => Some (p, id)
      | _ => first_logger rest d
      end
  end.

Fixpoint ancestors_from (fuel : nat) (d : gmap string DictEntry) (name : string)
  : list nat :=
  match fuel with
  | O => [root_id]
  | S k =>
      match first_logger (parent_prefixes name) d with
      | Some (pname, id) => id :: ancestors_from k d pname
      | None => [root_id]
      end
  end.

Definition ancestors (self : nat) (st : State) : list nat :=
  if decide (self = root_id) then []
  else
    match logger_heap st !! self with
    | Some lg => ancestors_from (String.length (lg_name lg)) (loggerDict st) (lg_name lg)
    | None => []
    end.

(** [Logger.getEffectiveLevel]: the first level that is set, from the logger
    up through its parents. *)
Fixpoint first_level (heap : list Logger) (chain : list nat) : Z :=
  match chain with
  | [] => NOTSET
  | id :: rest =>
      match heap !! id with
      | Some lg => if lg_level lg =? 0 then first_level heap rest else lg_level lg
      | None => first_level heap rest
      end
  end.

Definition getEffectiveLevel (self : nat) (st : State) : Z :=
  first_level (logger_heap st) (self :: ancestors self st).

Definition isEnabledFor (self : nat) (level : Z) (st : State) : bool :=
  getEffectiveLevel self st <=? level.

(** ** Formatting and emitting a record *)

(** [FXFormatter.format] (lines 204-266): besides building the string it
    records the logger name in the class-level set [FXFormatter._loggers] and
    stores attributes on the record. *)
Definition FXFormatter_format (self : FXFormatter) (record : LogRecord) (st : State)
  : option string * LogRecord * State :=
  let st :=
    if bool_decide (name record ∈ FXFormatter_loggers st) then st
    else set_FXFormatter_loggers ({[name record]} ∪ FXFormatter_loggers st) st in
  (format_string self record, formatted_record record, st).

(** [Handler.handle]: format the record and write the line, to [sys.stderr]
    for the console handler and to the log file for the file handler.  An
    exception while formatting is reported on [sys.stderr] and swallowed
    ([Handler.handleError]). *)
Definition Handler_handle (h : Handler) (record : LogRecord) (st : State)
  : LogRecord * State :=
  let '(out, record, st) := FXFormatter_format (h_formatter h) record st in
  match out with
  | None => (record, set_stderr (stderr st ++ ["--- Logging error ---"%string]) st)
  | Some text =>
      match h_class h with
      | StreamHandler => (record, set_stderr (stderr st ++ [text +:+ nl]) st)
      | FXTimedRotatingFileHandler baseFilename _ =>
          (record, set_file_output (file_output st ++ [(baseFilename, text +:+ nl)]) st)
      end
  end.

(** The inner loop of [Logger.callHandlers]: every handler of one logger
    whose own level lets the record through. *)
Fixpoint call_handlers_of (hs : list nat) (record : LogRecord) (st : State)
  : LogRecord * State :=
  match hs with
  | [] => (record, st)
  | hid :: rest =>
      let '(record, st) :=
        match handler_heap st !! hid with
        | Some h =>
            if h_level h <=? levelno record then Handler_handle h record st
            else (record, st)
        | None => (record, st)
        end in
      call_handlers_of rest record st
  end.

(** The outer loop: up the parents while [propagate] is set. *)
Fixpoint callHandlers_chain (chain : list nat) (found : nat) (record : LogRecord)
    (st : State) : nat * State :=
  match chain with
  | [] => (found, st)
  | c :: rest =>
      match logger_heap st !! c with
      | None => (found, st)
      | Some lg =>
          let '(record, st) := call_handlers_of (lg_handlers lg) record st in
          let found := (found + length (lg_handlers lg))%nat in
          if lg_propagate lg then callHandlers_chain rest found record st
          else (found, st)
      end
  end.

(** [Logger.callHandlers]; with no handler at all the record goes to
    [logging.lastResort], which prints warnings and above as the bare
    message. *)
Definition callHandlers (self : nat) (record : LogRecord) (st : State) : State :=
  let '(found, st) := callHandlers_chain (self :: ancestors self st) 0 record st in
  if (found =? 0)%nat then
    if WARNING <=? levelno record then set_stderr (stderr st ++ [msg record +:+ nl]) st
    else st
  else st.

(** [Logger.handle].  [handled] keeps every record a logger built and
    dispatched. *)
Definition Logger_handle (self : nat) (record : LogRecord) (st : State) : State :=
  callHandlers self record (set_handled (handled st ++ [record]) st).

(** The call site [Logger.findCaller] finds. *)
Record Caller := {
  fn : string;
  lno : Z;
  func : string
}.

Definition name_of (self : nat) (st : State) : string :=
  match logger_heap st !! self with
  | Some lg => lg_name lg
  | None => ""
  end.

(** ** FXColorLogger (lines 281-361) *)

Definition FXColorLogger__log (self : nat) (level : Z) (msg : string)
    (color : option string) (caller : Caller) (e : Env) : M unit :=
  fun st =>
    if isEnabledFor self level st then
      let record :=
        makeRecord (name_of self st) level (fn caller) (lno caller) msg
          (func caller) (now e / 1000000) in
      let record :=
        match color with
        | Some c => if truthy c then set_color c record else record
        | None => record
        end in
      Ok tt (Logger_handle self record st)
    else Ok tt st.

Definition FXColorLogger_debug (self : nat) (msg : string) (color : option string)
    (caller : Caller) (e : Env) : M unit :=
  fun st =>
    if isEnabledFor self DEBUG st
    then FXColorLogger__log self DEBUG msg color caller e st
    else Ok tt st.

Definition FXColorLogger_info (self : nat) (msg : string) (color : option string)
    (caller : Caller) (e : Env) : M unit :=
  fun st =>
    if isEnabledFor self INFO st
    then FXColorLogger__log self INFO msg color caller e st
    else Ok tt st.

Definition FXColorLogger_warning (self : nat) (msg : string) (color : option string)
    (caller : Caller) (e : Env) : M unit :=
  fun st =>
    if isEnabledFor self WARNING st
    then FXColorLogger__log self WARNING msg color caller e st
    else Ok tt st.

Definition FXColorLogger_error (self : nat) (msg : string) (color : option string)
    (caller : Caller) (e : Env) : M unit :=
  fun st =>
    if isEnabledFor self ERROR st
    then FXColorLogger__log self ERROR msg color caller e st
    else Ok tt st.

Definition FXColorLogger_critical (self : nat) (msg : string) (color : option string)
    (caller : Caller) (e : Env) : M unit :=
  fun st =>
    if isEnabledFor self CRITICAL st
    then FXColorLogger__log self CRITICAL msg color caller e st
    else Ok tt st.

(** The five leveled operations. *)
Inductive EmitOp := op_debug | op_info | op_warning | op_error | op_critical.

Definition op_level (op : EmitOp) : Z :=
  match op with
  | op_debug => DEBUG
  | op_info => INFO
  | op_warning => WARNING
  | op_error => ERROR
  | op_critical => CRITICAL
  end.

Definition FXColorLogger_emit (op : EmitOp) :
    nat -> string -> option string -> Caller -> Env -> M unit :=
  match op with
  | op_debug => FXColorLogger_debug
  | op_info => FXColorLogger_info
  | op_warning => FXColorLogger_warning
  | op_error => FXColorLogger_error
  | op_critical => FXColorLogger_critical
  end.

(** The same operations of a plain [logging.Logger].  They know no [color]
    keyword: when one is passed, [Logger._log] rejects it. *)
Definition Logger_emit (op : EmitOp) (self : nat) (msg : string)
    (color : option string) (caller : Caller) (e : Env) : M unit :=
  fun st =>
    if isEnabledFor self (op_level op) st then
      match color with
      | Some _ =>
          Raise (TypeError "_log() got an unexpected keyword argument 'color'") st
      | None =>
          Ok tt (Logger_handle self
                   (makeRecord (name_of self st) (op_level op) (fn caller)
                      (lno caller) msg (func caller) (now e / 1000000)) st)
      end
    else Ok tt st.

(** A leveled call on a logger object dispatches on its class. *)
Definition emit (op : EmitOp) (self : nat) (msg : string)
    (color : option string) (caller : Caller) (e : Env) : M unit :=
  do cls <- get (class_of self);
  match cls with
  | Some FXColorLogger_class => FXColorLogger_emit op self msg color caller e
  | Some _ => Logger_emit op self msg color caller e
  | None => ret tt
  end.

(** ** The module's operations *)

Fixpoint for_each {A} (l : list A) (body : A -> M unit) : M unit :=
  match l with
  | [] => ret tt
  | x :: rest => do_ body x; for_each rest body
  end.

Definition new_handler (h : Handler) : M nat :=
  fun st => Ok (length (handler_heap st)) (set_handler_heap (handler_heap st ++ [h]) st).

Definition print (line : string) : M unit :=
  modify (fun st => set_stdout (stdout st ++ [line]) st).

(** [_create_shared_file_handler] (lines 76-99).  The handler's [suffix] is
    the one [TimedRotatingFileHandler] sets for ["midnight"]. *)
Definition _create_shared_file_handler (e : Env) : M nat :=
  do dir <- get _LOG_DIRECTORY;
  match dir with
  | None => raise (AttributeError "'NoneType' object has no attribute 'joinpath'")
  | Some d =>
      let log_directory := d ++ [node e; user e] in
      do_ mkdir log_directory;
      let log_file := current_date e +:+ ".log" in
      let log_file_path := log_directory ++ [log_file] in
      do_ open_append e log_file_path;
      do supported <- get _COLOR_SUPPORTED;
      new_handler
        {| h_class := FXTimedRotatingFileHandler log_file_path "%Y-%m-%d";
           h_level := DEBUG;
           h_formatter := FXFormatter_init supported false false |}
  end.

(** Creating the shared handler and storing it in the global
    [_SHARED_FILE_HANDLER] (lines 73 and 440). *)
Definition store_shared_file_handler (e : Env) : M nat :=
  do h <- _create_shared_file_handler e;
  do_ modify (set__SHARED_FILE_HANDLER (Some h));
  ret h.

(** [set_log_directory] (lines 53-73). *)
Definition set_log_directory (e : Env) (log_directory : Path) : M unit :=
  do current <- get _LOG_DIRECTORY;
  match current with
  | Some _ => ret tt
  | None =>
      do_ modify (set__LOG_DIRECTORY (Some log_directory));
      do exists_ <- get (is_dir log_directory);
      if exists_ then
        do_ store_shared_file_handler e;
        ret tt
      else ret tt
  end.

(** [_check_log_directory] (lines 102-112). *)
Definition _check_log_directory : M unit :=
  do dir <- get _LOG_DIRECTORY;
  match dir with
  | None => raise (ValueError "Log directory is not set. Call `set_log_directory` first.")
  | Some d =>
      do exists_ <- get (is_dir d);
      if negb exists_ then
        raise (ValueError ("Log directory does not exist: '" +:+ path_str d +:+ "'."))
      else ret tt
  end.

(** [configure_logger] (lines 364-457), in the three parts the source marks
    with comments; the result is the logger's index in the logger heap. *)

(** Lines 385-401: check if the log directory is set when [save_to_file] is
    requested. *)
Definition check_save_to_file (logger_name : string) (save_to_file : bool) : M bool :=
  if save_to_file then
    do dir <- get _LOG_DIRECTORY;
    match dir with
    | None =>
        do_ print ("Warning: Logger '" +:+ logger_name +:+
                   "' requested save_to_file=True but log directory is not set. " +:+
                   "Logs will only output to console. " +:+
                   "Call set_log_directory() to enable file logging.");
        ret false
    | Some d =>
        do exists_ <- get (is_dir d);
        if negb exists_ then
          do_ print ("Warning: Logger '" +:+ logger_name +:+
                     "' requested save_to_file=True but log directory does not exist: '" +:+
                     path_str d +:+ "'. Logs will only output to console.");
          ret false
        else ret save_to_file
    end
  else ret save_to_file.

(** Lines 403-410: a logger of that name that is an [FXColorLogger]. *)
Definition existing_FXColorLogger (logger_name : string) : M (option nat) :=
  do dict <- get loggerDict;
  match dict !! logger_name with
  | Some _ =>
      do existing_logger <- getLogger logger_name;
      do cls <- get (class_of existing_logger);
      if bool_decide (cls = Some FXColorLogger_class)
      then ret (Some existing_logger)
      else ret None
  | None => ret None
  end.

(** Lines 412-425: get the logger while [FXColorLogger] is the logger class,
    and restore the class. *)
Definition make_logger (logger_name : string) : M nat :=
  do old_logger_class <- getLoggerClass;
  do_ setLoggerClass FXColorLogger_class;
  do logger <- getLogger logger_name;
  do_ setLoggerClass old_logger_class;
  ret logger.

(** Lines 434-443: use the shared file handler for this logger, creating it
    if it does not exist yet. *)
Definition attach_file_handler (e : Env) (logger : nat) : M unit :=
  do shared <- get _SHARED_FILE_HANDLER;
  do h <-
    (match shared with
     | None => store_shared_file_handler e
     | Some h => ret h
     end);
  (* Add the shared handler to this logger *)
  addHandler logger h.

(** Lines 451-455: apply the global default level if set. *)
Definition apply_default_level (logger : nat) : M unit :=
  do default_level <- get _DEFAULT_LEVEL;
  match default_level with
  | Some level =>
      do_ Logger_setLevel logger level;
      do hs <- get (handlers_of logger);
      for_each hs (fun handler => Handler_setLevel handler level)
  | None => ret tt
  end.

(** Lines 445-457: switch propagation off, track the name, apply the default
    level, and return the logger. *)
Definition finish_logger (logger_name : string) (logger : nat) : M nat :=
  do_ modify (update_logger logger (with_propagate false));
  do_ modify (fun st =>
        set__CONFIGURED_LOGGERS ({[logger_name]} ∪ _CONFIGURED_LOGGERS st) st);
  do_ apply_default_level logger;
  ret logger.

(** Lines 427-457: attach the handlers and finish. *)
Definition wire_logger (e : Env) (logger_name : string) (logger : nat)
    (formatter : FXFormatter) (can_save_to_file : bool) : M nat :=
  (* Console *)
  do console_handler <-
    new_handler {| h_class := StreamHandler; h_level := DEBUG;
                   h_formatter := formatter |};
  do_ addHandler logger console_handler;
  do_ (if can_save_to_file then attach_file_handler e logger else ret tt);
  finish_logger logger_name logger.

Definition build_logger (e : Env) (logger_name : string)
    (enable_color enable_separator can_save_to_file : bool) : M nat :=
  do supported <- get _COLOR_SUPPORTED;
  let formatter := FXFormatter_init supported enable_color enable_separator in
  do logger <- make_logger logger_name;
  wire_logger e logger_name logger formatter can_save_to_file.

Definition configure_logger (e : Env) (logger_name : string)
    (enable_color enable_separator save_to_file : bool) : M nat :=
  do can_save_to_file <- check_save_to_file logger_name save_to_file;
  do found <- existing_FXColorLogger logger_name;
  match found with
  | Some existing_logger => ret existing_logger
  | None =>
      build_logger e logger_name enable_color enable_separator can_save_to_file
  end.

(** [set_loggers_level] (lines 460-491). *)
Definition set_level_of (level : Z) (logger_name : string) : M unit :=
  do logger_instance <- getLogger logger_name;
  do_ Logger_setLevel logger_instance level;
  do hs <- get (handlers_of logger_instance);
  for_each hs (fun handler => Handler_setLevel handler level).

Definition set_loggers_level (level : Z) : M unit :=
  do_ modify (set__DEFAULT_LEVEL (Some level));
  do configured <- get _CONFIGURED_LOGGERS;
  do_ for_each (elements configured) (set_level_of level);
  do tracked <- get FXFormatter_loggers;
  for_each (elements tracked) (fun logger_name =>
    do configured <- get _CONFIGURED_LOGGERS;
    if bool_decide (logger_name ∈ configured) then ret tt
    else set_level_of level logger_name).

(** [datetime] arithmetic: a [timedelta] holds at most 999999999 days, and a
    [datetime] lies in the years 1 to 9999. *)
Definition microseconds_per_day : Z := 86400000000.
Definition datetime_max : Z := 3652059 * microseconds_per_day - 1.

Definition timedelta (days : Z) : M Z :=
  if Z.abs days <=? 999999999 then ret (days * microseconds_per_day)
  else raise (OverflowError "days; must have magnitude <= 999999999").

Definition datetime_sub (d delta : Z) : M Z :=
  let r := d - delta in
  if (0 <=? r) && (r <=? datetime_max) then ret r
  else raise (OverflowError "date value out of range").

Definition mtime_of (p : Path) (st : State) : Z :=
  match fs st !! p with
  | Some (File t) => t
  | _ => 0
  end.

(** [delete_old_logs] (lines 494-509); [delete_if_old] is the body of its
    loop. *)
Definition delete_if_old (cutoff_date : Z) (log_file : Path) : M unit :=
  do regular <- get (is_file log_file);
  if regular then
    do file_mod_time <- get (mtime_of log_file);
    if file_mod_time <? cutoff_date then modify (unlink log_file)
    else ret tt
  else ret tt.

Definition delete_old_logs (e : Env) (days : Z) : M unit :=
  do_ _check_log_directory;
  do delta <- timedelta days;
  do cutoff_date <- datetime_sub (now e) delta;
  do dir <- get _LOG_DIRECTORY;
  do entries <- get (iterdir (default [] dir));
  for_each entries (delete_if_old cutoff_date).

(** [clear_logs] (lines 512-519). *)
Definition clear_logs : M unit :=
  do_ _check_log_directory;
  do dir <- get _LOG_DIRECTORY;
  do entries <- get (iterdir (default [] dir));
  for_each entries (fun log_file =>
    do regular <- get (is_file log_file);
    if regular then modify (unlink log_file) else ret tt).

(** A process that has just imported the module: no logger but the root
    (at [WARNING], without handlers), nothing configured. *)
Definition initial_state (color_supported : bool) (files : gmap Path Node) : State :=
  {| _LOG_DIRECTORY := None; _CONFIGURED_LOGGERS := ∅;
     _SHARED_FILE_HANDLER := None; _DEFAULT_LEVEL := None;
     _COLOR_SUPPORTED := color_supported; FXFormatter_loggers := ∅;
     _loggerClass := Logger_class; loggerDict := ∅;
     logger_heap := [ {| lg_name := "root"; lg_class := RootLogger_class;
                         lg_level := WARNING; lg_handlers := [];
                         lg_propagate := true |} ];
     handler_heap := []; fs := files; stdout := []; stderr := [];
     file_output := []; handled := [] |}.

(** ** Runs of a process

    What a process does with the module, call after call; between calls the
    files may change under it, and other code may ask [logging] for a logger. *)
Inductive Op :=
  | call_set_log_directory (log_directory : Path)
  | call_configure_logger (logger_name : string)
      (enable_color enable_separator save_to_file : bool)
  | call_set_loggers_level (level : Z)
  | call_delete_old_logs (days : Z)
  | call_clear_logs
  | call_setLevel (logger : nat) (level : Z)
  | call_emit (op : EmitOp) (logger : nat) (msg : string) (color : option string)
      (caller : Caller)
  | call_getLogger (name : string)
  | files_change (files : gmap Path Node).

Definition step (e : Env) (o : Op) (st : State) : State :=
  match o with
  | call_set_log_directory d => state_of (set_log_directory e d st)
  | call_configure_logger n ec es sf => state_of (configure_logger e n ec es sf st)
  | call_set_loggers_level level => state_of (set_loggers_level level st)
  | call_delete_old_logs days => state_of (delete_old_logs e days st)
  | call_clear_logs => state_of (clear_logs st)
  | call_setLevel lg level => state_of (Logger_setLevel lg level st)
  | call_emit op lg m c caller => state_of (emit op lg m c caller e st)
  | call_getLogger n => state_of (getLogger n st)
  | files_change files => set_fs files st
  end.

Definition run (ops : list (Env * Op)) (st : State) : State :=
  foldl (fun st eo => step (fst eo) (snd eo) st) st ops.

(** A record whose message carries an escape sequence of its own. *)
Definition escaped_record : LogRecord :=
  makeRecord "app" INFO "main.py" 7 (colorama.Fore.RED +:+ "alert") "run" 0.


(** The characters that separate directories. *)
Definition separators (os : os_path) : list ascii :=
  match os with
  | posixpath => ["/"%char]
  | ntpath => ["\"%char; "/"%char]
  end.

Definition separator_free (os : os_path) (s : string) : bool :=
  forallb (fun c => negb (contains_char c s)) (separators os).

(** A computation frames a part of the state when it leaves that part as it
    found it, whether it returns or raises. *)
Definition frames {A B} (proj : State -> B) (c : M A) : Prop :=
  forall st, proj (state_of (c st)) = proj st.

(** An environment and a file tree for examples. *)
Definition example_env : Env :=
  {| now := 63900000000000000; current_date := "2026_01_01";
     node := "host"; user := "bob" |}.

Definition example_files : gmap Path Node :=
  <[["logs"%string] := Dir]> ∅.

(** A regular file last modified before the cutoff. *)
Definition old_file (cutoff : Z) (f : gmap Path Node) (p : Path) : bool :=
  match f !! p with
  | Some (File t) => t <? cutoff
  | _ => false
  end.

Definition example_log_files : gmap Path Node :=
  <[["logs"; "old.log"]%string := File 5]>
    (<[["logs"; "new.log"]%string := File 63900000000000000]>
       (<[["logs"; "host"; "deep.log"]%string := File 5]>
          (<[["logs"; "host"]%string := Dir]>
             (<[["logs"%string] := Dir]> ∅)))).

Definition example_logs_state : State :=
  set__LOG_DIRECTORY (Some ["logs"%string]) (initial_state false example_log_files).

(** Is the log directory set and there? *)
Definition log_directory_usable (st : State) : bool :=
  match _LOG_DIRECTORY st with
  | Some d => is_dir d st
  | None => false
  end.

(** The warning [configure_logger] prints when file logging is asked for and
    cannot be had. *)
Definition degraded_warning (logger_name : string) (st : State) : string :=
  match _LOG_DIRECTORY st with
  | None =>
      "Warning: Logger '" +:+ logger_name +:+
      "' requested save_to_file=True but log directory is not set. " +:+
      "Logs will only output to console. " +:+
      "Call set_log_directory() to enable file logging."
  | Some d =>
      "Warning: Logger '" +:+ logger_name +:+
      "' requested save_to_file=True but log directory does not exist: '" +:+
      path_str d +:+ "'. Logs will only output to console."
  end.

(** The logger object [logging] already has for a name, if any. *)
Definition existing_logger (logger_name : string) (st : State) : option nat :=
  if is_root_name logger_name then Some root_id
  else
    match loggerDict st !! logger_name with
    | Some (LoggerRef id) => Some id
    | _ => None
    end.

(** The handler heap after [handler.setLevel(level)] for each of [hs]. *)
Definition set_handler_levels (level : Z) (hs : list nat) (heap : list Handler)
  : list Handler :=
  foldl (fun heap h => alter (with_h_level level) h heap) heap hs.

(** A computation keeps a relation between the state before and the state
    after, whether it returns or raises. *)
Definition keeps {A} (R : State -> State -> Prop) (c : M A) : Prop :=
  forall st, R st (state_of (c st)).

(** The registry only grows: a logger keeps its class, a name that designates
    a logger goes on designating it, no name is forgotten, and a handler
    keeps its class and its formatter. *)
Record grows (st st' : State) : Prop := {
  grows_class : forall j c, class_of j st = Some c -> class_of j st' = Some c;
  grows_dict : forall n id,
    loggerDict st !! n = Some (LoggerRef id) -> loggerDict st' !! n = Some (LoggerRef id);
  grows_keys : forall n, is_Some (loggerDict st !! n) -> is_Some (loggerDict st' !! n);
  grows_handler : forall h c,
    (fun hd => (h_class hd, h_formatter hd)) <$> handler_heap st !! h = Some c ->
    (fun hd => (h_class hd, h_formatter hd)) <$> handler_heap st' !! h = Some c
}.

(** A computation that, when it returns, returns [a]. *)
Definition returns {A} (a : A) (c : M A) : Prop :=
  forall st b st', c st = Ok b st' -> b = a.



(** What identifies a handler for ever: its class and its formatter. *)
Definition handler_kind (hd : Handler) : HandlerClass * FXFormatter :=
  (h_class hd, h_formatter hd).

(** ** The shared file sink *)

Definition is_file_handler (hd : Handler) : bool :=
  match h_class hd with
  | FXTimedRotatingFileHandler _ _ => true
  | StreamHandler => false
  end.

(** The global [_SHARED_FILE_HANDLER], when set, is a file handler of the
    heap. *)
Definition shared_is_file (st : State) : Prop :=
  forall h, _SHARED_FILE_HANDLER st = Some h ->
    exists hd, handler_heap st !! h = Some hd /\ is_file_handler hd = true.

Definition file_handlers_at_DEBUG (st : State) : Prop :=
  forall h hd, handler_heap st !! h = Some hd -> is_file_handler hd = true ->
    h_level hd = DEBUG.

(** As long as no default level is set, every file handler is at [DEBUG]. *)
Definition sink_invariant (st : State) : Prop :=
  shared_is_file st /\ (_DEFAULT_LEVEL st = None -> file_handlers_at_DEBUG st).

(** The relation "if the property held before, it holds after". *)
Definition preserves (I : State -> Prop) : State -> State -> Prop :=
  fun st st' => I st -> I st'.

(** A process that sets the directory, configures a logger with file output
    and then sets the level of all loggers to [WARNING]. *)
Definition leveled_state : State :=
  run [(example_env, call_set_log_directory ["logs"%string]);
       (example_env, call_configure_logger "app" true true true);
       (example_env, call_set_loggers_level WARNING)]
    (initial_state false example_files).

(** Once a logger or a handler is at [level], an operation leaves it there;
    loggers, handlers and names stay, and so do the handler lists. *)
Record levels_kept (level : Z) (st st' : State) : Prop := {
  kept_logger_level : forall j,
    lg_level <$> logger_heap st !! j = Some level ->
    lg_level <$> logger_heap st' !! j = Some level;
  kept_handler_level : forall h,
    h_level <$> handler_heap st !! h = Some level ->
    h_level <$> handler_heap st' !! h = Some level;
  kept_loggers : forall j,
    is_Some (logger_heap st !! j) -> is_Some (logger_heap st' !! j);
  kept_handlers : forall h,
    is_Some (handler_heap st !! h) -> is_Some (handler_heap st' !! h);
  kept_handlers_of : forall j, handlers_of j st' = handlers_of j st;
  kept_existing : forall n id,
    existing_logger n st = Some id -> existing_logger n st' = Some id
}.

Definition example_caller : Caller :=
  {| fn := "main.py"; lno := 7; func := "run" |}.

(** The record [FXColorLogger._log] builds. *)
Definition built_record (self : nat) (level : Z) (msg : string)
    (color : option string) (caller : Caller) (e : Env) (st : State) : LogRecord :=
  let record :=
    makeRecord (name_of self st) level (fn caller) (lno caller) msg
      (func caller) (now e / 1000000) in
  match color with
  | Some c => if truthy c then set_color c record else record
  | None => record
  end.

(** What was put out so far: the records dispatched and the lines written. *)
Definition past (st : State) : list LogRecord * list string * list (Path * string) :=
  (handled st, stderr st, file_output st).

(** A process with a logger ["app"] at level [INFO]. *)
Definition info_state : State :=
  run [(example_env, call_configure_logger "app" true true false);
       (example_env, call_setLevel 1 INFO)]
    (initial_state false ∅).

(** The level of a handler changes only to the default level; the default
    level itself is left alone. *)
Record level_policy (st st' : State) : Prop := {
  policy_default : _DEFAULT_LEVEL st' = _DEFAULT_LEVEL st;
  policy_levels : forall h hd,
    handler_heap st !! h = Some hd ->
    exists hd',
      handler_heap st' !! h = Some hd' /\ h_class hd' = h_class hd /\
      (h_level hd' = h_level hd \/ _DEFAULT_LEVEL st = Some (h_level hd'))
}.







(** A regular file of a file tree. *)
Definition regular (f : gmap Path Node) (p : Path) : bool :=
  match f !! p with
  | Some (File _) => true
  | _ => false
  end.

(** The file tree [clear_logs] leaves for the log directory [d]: the regular
    files directly under [d] are gone. *)
Definition cleared (d : Path) (f : gmap Path Node) : gmap Path Node :=
  filter (fun '(p, _) => negb (is_child d p && regular f p) = true) f.

(** The file tree [delete_old_logs] leaves for the log directory [d] and the
    cutoff date: the regular files directly under [d] last modified before
    the cutoff are gone. *)
Definition aged_out (d : Path) (cutoff : Z) (f : gmap Path Node) : gmap Path Node :=
  filter (fun '(p, _) => negb (is_child d p && old_file cutoff f p) = true) f.

(** The cutoff date of [delete_old_logs(days)] at the time [now e]. *)
Definition cutoff_date (e : Env) (days : Z) : Z := now e - days * microseconds_per_day.

(** The cutoff date is one [datetime] can hold. *)
Definition representable (e : Env) (days : Z) : Prop :=
  Z.abs days <= 999999999 /\ 0 <= cutoff_date e days <= datetime_max.

(** ** What the operations do to the state

    The state changes of [configure_logger] and [set_log_directory] as
    functions on the state. *)

(** The state after [logger.addHandler(h)]. *)
Definition attach (logger h : nat) (st : State) : State :=
  update_logger logger (fun lg =>
    if bool_decide (h ∈ lg_handlers lg) then lg
    else with_handlers (lg_handlers lg ++ [h]) lg) st.

(** A new handler object. *)
Definition push_handler (hd : Handler) (st : State) : State :=
  set_handler_heap (handler_heap st ++ [hd]) st.

(** The state after the default level, if set, is applied to a logger and
    its handlers (lines 451-455). *)
Definition leveled (logger : nat) (st : State) : State :=
  match _DEFAULT_LEVEL st with
  | Some level =>
      set_handler_heap
        (set_handler_levels level (handlers_of logger st) (handler_heap st))
        (update_logger logger (with_level level) st)
  | None => st
  end.

(** The state after lines 445-455. *)
Definition finished (logger_name : string) (logger : nat) (st : State) : State :=
  leveled logger
    (set__CONFIGURED_LOGGERS ({[logger_name]} ∪ _CONFIGURED_LOGGERS st)
       (update_logger logger (with_propagate false) st)).

(** The console handler of lines 428-430. *)
Definition console_handler (formatter : FXFormatter) : Handler :=
  {| h_class := StreamHandler; h_level := DEBUG; h_formatter := formatter |}.

(** The log file of the day, under the log directory [d]. *)
Definition log_file_path (e : Env) (d : Path) : Path :=
  (d ++ [node e; user e]) ++ [current_date e +:+ ".log"].

(** The handler [_create_shared_file_handler] makes. *)
Definition shared_file_handler (e : Env) (d : Path) (supported : bool) : Handler :=
  {| h_class := FXTimedRotatingFileHandler (log_file_path e d) "%Y-%m-%d";
     h_level := DEBUG;
     h_formatter := FXFormatter_init supported false false |}.

(** The files after the log file of the day was opened for appending, if
    that can be done: the directories for the machine and the user are made
    when they are missing, and so is the file. *)
Definition opened_log_file (e : Env) (d : Path) (f : gmap Path Node)
  : Exception * gmap Path Node + gmap Path Node :=
  match mkdir_from [] (d ++ [node e; user e]) f with
  | None => inl (OSError "mkdir", f)
  | Some f1 =>
      match f1 !! log_file_path e d with
      | Some Dir => inl (OSError "open", f1)
      | Some (File _) => inr f1
      | None => inr (<[log_file_path e d := File (now e)]> f1)
      end
  end.

(** The state after [logging.getLogger] made a logger for a name. *)
Definition registered (name : string) (cls : LoggerClass) (st : State) : State :=
  set_loggerDict
    (_fixupParents (parent_prefixes name)
       (<[name := LoggerRef (length (logger_heap st))]> (loggerDict st)))
    (set_logger_heap (logger_heap st ++ [new_logger name cls]) st).

(** ** States a process can be in

    What holds of the loggers, the handlers and the module's globals in
    every state a process reaches. *)
Record well_formed (st : State) : Prop := {
  wf_root : is_Some (logger_heap st !! root_id);
  wf_dict : forall n id,
    loggerDict st !! n = Some (LoggerRef id) -> is_Some (logger_heap st !! id);
  wf_valid : forall j lg,
    logger_heap st !! j = Some lg ->
    Forall (fun h => (h < length (handler_heap st))%nat) (lg_handlers lg);
  wf_nodup : forall j lg, logger_heap st !! j = Some lg -> NoDup (lg_handlers lg);
  wf_shared : forall h,
    _SHARED_FILE_HANDLER st = Some h ->
    exists hd, handler_heap st !! h = Some hd /\ is_file_handler hd = true;
  wf_single : forall h hd,
    handler_heap st !! h = Some hd -> is_file_handler hd = true ->
    _SHARED_FILE_HANDLER st = Some h /\
    exists e d,
      _LOG_DIRECTORY st = Some d /\
      handler_kind hd = handler_kind (shared_file_handler e d (_COLOR_SUPPORTED st));
  wf_quiet : forall j lg h,
    logger_heap st !! j = Some lg -> _SHARED_FILE_HANDLER st = Some h ->
    h ∈ lg_handlers lg -> lg_propagate lg = false;
  wf_configured : forall n,
    n ∈ _CONFIGURED_LOGGERS st ->
    exists j lg,
      existing_logger n st = Some j /\ logger_heap st !! j = Some lg /\
      lg_propagate lg = false /\ lg_handlers lg <> []
}.

(** What the properties above depend on in a logger. *)
Definition logger_shape (lg : Logger) : list nat * bool :=
  (lg_handlers lg, lg_propagate lg).

(** Two states that differ in levels, files and output only. *)
Record same_shape (st st' : State) : Prop := {
  same_loggers : logger_shape <$> logger_heap st' = logger_shape <$> logger_heap st;
  same_handlers : handler_kind <$> handler_heap st' = handler_kind <$> handler_heap st;
  same_dict : loggerDict st' = loggerDict st;
  same_configured : _CONFIGURED_LOGGERS st' = _CONFIGURED_LOGGERS st;
  same_shared : _SHARED_FILE_HANDLER st' = _SHARED_FILE_HANDLER st;
  same_directory : _LOG_DIRECTORY st' = _LOG_DIRECTORY st;
  same_color : _COLOR_SUPPORTED st' = _COLOR_SUPPORTED st
}.



(** The loggers, the handlers and the globals of the module. *)
Definition structure (st : State) :=
  (logger_heap st, handler_heap st, loggerDict st, _CONFIGURED_LOGGERS st,
   _SHARED_FILE_HANDLER st, _LOG_DIRECTORY st, _COLOR_SUPPORTED st).

(** A process that set the log directory and configured two loggers that
    save to the file. *)
Definition two_loggers_state : State :=
  run [(example_env, call_set_log_directory ["logs"%string]);
       (example_env, call_configure_logger "app" true true true);
       (example_env, call_configure_logger "db" false false true)]
    (initial_state false example_files).


(** The entries a record adds to the file output when it goes through the
    handlers [hs]: one for each file handler among them whose level lets it
    through. *)
Definition file_sinks (st : State) (record : LogRecord) (hs : list nat) : list nat :=
  filter (fun h => match handler_heap st !! h with
                   | Some hd => is_file_handler hd && (h_level hd <=? levelno record)
                   | None => false
                   end = true) hs.

(** The state in which [configure_logger] goes on after its check of the log
    directory: with the warning printed when file output was asked for and
    cannot be had. *)
Definition warned (logger_name : string) (save_to_file : bool) (st : State) : State :=
  if save_to_file && negb (log_directory_usable st)
  then set_stdout (stdout st ++ [degraded_warning logger_name st]) st
  else st.

(** A process that set the level of all loggers to [ERROR] before it
    configured any. *)
Definition error_level_state : State :=
  run [(example_env, call_set_loggers_level ERROR)] (initial_state false ∅).

(** What the loops of [set_loggers_level(level)] keep: what is at the level
    stays there, a well-formed state stays well formed, and the tracked names
    are the same. *)
Record leveling (level : Z) (st st' : State) : Prop := {
  leveling_kept : levels_kept level st st';
  leveling_wf : well_formed st -> well_formed st';
  leveling_configured : _CONFIGURED_LOGGERS st' = _CONFIGURED_LOGGERS st
}.

(** The logger of a name and its handlers are at a level. *)
Definition at_level (level : Z) (n : string) (st : State) : Prop :=
  exists id lg,
    existing_logger n st = Some id /\ logger_heap st !! id = Some lg /\
    lg_level lg = level /\
    forall h, h ∈ lg_handlers lg -> h_level <$> handler_heap st !! h = Some level.

(** A process with a configured logger ["app"] and a logger ["app.worker"]
    that other code got from [logging] and used for a warning. *)
Definition worker_state : State :=
  run [(example_env, call_configure_logger "app" true true false);
       (example_env, call_getLogger "app.worker");
       (example_env, call_emit op_warning 2 "careful" None example_caller)]
    (initial_state false ∅).

(** A process that set a log directory that was not there; the directory
    has been made since. *)
Definition late_directory_state : State :=
  run [(example_env, call_set_log_directory ["logs"%string]);
       (example_env, files_change example_files)]
    (initial_state false ∅).

(** The same, but with a regular file where the directory of the machine
    should go. *)
Definition blocked_directory_state : State :=
  run [(example_env, call_set_log_directory ["logs"%string]);
       (example_env, files_change (<[["logs"; "host"]%string := File 5]> example_files))]
    (initial_state false ∅).

(** The name and the level of each logger. *)
Definition names_and_levels (st : State) : list (string * Z) :=
  (fun lg => (lg_name lg, lg_level lg)) <$> logger_heap st.

(** No handler formats with colour unless the terminal supports colour. *)
Definition colour_ok (st : State) : Prop :=
  forall h hd,
    handler_heap st !! h = Some hd -> enable_color (h_formatter hd) = true ->
    _COLOR_SUPPORTED st = true.

(** The text of a record holds no escape sequence. *)
Definition plain_text (record : LogRecord) : Prop :=
  ansi_free (name record) = true /\ ansi_free (levelname record) = true /\
  ansi_free (funcName record) = true /\ ansi_free (msg record) = true.

(** A process on a terminal without colour that configured a logger, asking
    for colour and file output. *)
Definition plain_console_state : State :=
  run [(example_env, call_set_log_directory ["logs"%string]);
       (example_env, call_configure_logger "app" true true true);
       (example_env, call_setLevel 1 DEBUG)]
    (initial_state false example_files).

(** * Properties *)

(** ** Strings without escape sequences *)

Lemma contains_char_app c a b :
  contains_char c (a +:+ b) = contains_char c a || contains_char c b.
Proof.
  induction a as [|x a IH]; simpl; [reflexivity|].
  rewrite IH. apply orb_assoc.
Qed.

Lemma ansi_free_app a b : ansi_free (a +:+ b) = ansi_free a && ansi_free b.
Proof. unfold ansi_free. rewrite contains_char_app. apply negb_orb. Qed.

Lemma contains_char_uint c (d : Decimal.uint) :
  (Ascii.ltb c "0"%char || Ascii.ltb "9"%char c) = true ->
  contains_char c (NilEmpty.string_of_uint d) = false.
Proof.
  intros Hc. induction d; simpl; try reflexivity; rewrite IHd, orb_false_r;
    destruct c as [[] [] [] [] [] [] [] []]; try reflexivity; discriminate Hc.
Qed.

Lemma ansi_free_str z : ansi_free (str z) = true.
Proof.
  unfold ansi_free, str, NilZero.string_of_int.
  assert (Hu : forall d, contains_char colorama.ESC (NilZero.string_of_uint d) = false).
  { intros d. destruct d; try reflexivity;
      apply (contains_char_uint colorama.ESC); reflexivity. }
  destruct (Z.to_int z) as [d|d]; simpl; rewrite Hu; reflexivity.
Qed.

Lemma ansi_free_spaces n : ansi_free (spaces n) = true.
Proof. unfold ansi_free. induction n; simpl; [reflexivity | exact IHn]. Qed.

Lemma ansi_free_dashes n : ansi_free (dashes n) = true.
Proof. unfold ansi_free. induction n; simpl; [reflexivity | exact IHn]. Qed.

Lemma ansi_free_rjust w s : ansi_free s = true -> ansi_free (rjust w s) = true.
Proof. intros H. unfold rjust. rewrite ansi_free_app, ansi_free_spaces, H. reflexivity. Qed.

Lemma ansi_free_two_digits n : ansi_free (two_digits n) = true.
Proof.
  unfold two_digits. destruct (n <? 10).
  - rewrite ansi_free_app, ansi_free_str. reflexivity.
  - apply ansi_free_str.
Qed.

Lemma ansi_free_formatTime t : ansi_free (formatTime t) = true.
Proof.
  unfold formatTime. rewrite !ansi_free_app, !ansi_free_two_digits. reflexivity.
Qed.

Lemma ansi_free_getLevelName level : ansi_free (getLevelName level) = true.
Proof.
  unfold getLevelName.
  repeat match goal with |- context [if ?b then _ else _] => destruct b end;
    try reflexivity.
  rewrite ansi_free_app, ansi_free_str. reflexivity.
Qed.

Lemma FXFormatter_init_unsupported ec es :
  FXFormatter_init false ec es = {| enable_color := false; enable_separator := es |}.
Proof. destruct ec; reflexivity. Qed.

(** C4, as stated, fails: with colour support off (and colour requested) the
    formatted line of a record whose message holds an escape sequence still
    holds it. *)
Lemma C4_counterexample :
  exists line,
    format_string (FXFormatter_init false true true) escaped_record = Some line /\
    ansi_free line = false.
Proof. eexists. split; [vm_compute; reflexivity | vm_compute; reflexivity]. Qed.


(** C4 (amended): when the colour probe reports false, every exposed colour
    and style constant is the empty string, and for every record and every
    requested formatter configuration the formatted line holds no ANSI escape
    sequence, provided the record's own texts (logger name, level name,
    function name, message) hold none. *)
Theorem C4_no_escape_when_unsupported :
  forall (record : LogRecord) (enable_color enable_separator : bool),
    ansi_free (name record) = true ->
    ansi_free (levelname record) = true ->
    ansi_free (funcName record) = true ->
    ansi_free (msg record) = true ->
    Forall (fun c => c = EmptyString) (palette false) /\
    exists line,
      format_string (FXFormatter_init false enable_color enable_separator) record
        = Some line /\
      ansi_free line = true.
Proof.
  intros record ec es Hname Hlevel Hfunc Hmsg. split.
  - unfold palette. repeat constructor.
  - rewrite FXFormatter_init_unsupported. unfold format_string, log_fmt. simpl.
    eexists. split; [reflexivity|].
    rewrite !ansi_free_app.
    rewrite ansi_free_formatTime, ansi_free_str, Hname, Hfunc, Hmsg.
    rewrite (ansi_free_rjust _ _ Hlevel).
    destruct es; reflexivity.
Qed.

Lemma C4_no_escape_when_unsupported_witness :
  Forall (fun c => c = EmptyString) (palette false) /\
  exists line,
    format_string (FXFormatter_init false true true)
      (makeRecord "app" INFO "main.py" 7 "ready" "run" 0) = Some line /\
    ansi_free line = true.
Proof.
  apply (C4_no_escape_when_unsupported
           (makeRecord "app" INFO "main.py" 7 "ready" "run" 0) true true);
    reflexivity.
Defined.

(** ** Rotated file names *)

Lemma append_cons x a b : String x a +:+ b = String x (a +:+ b).
Proof. reflexivity. Qed.

Lemma rfind_from_app i a b c found :
  rfind_from i (a +:+ b) c found
  = rfind_from (i + Z.of_nat (String.length a)) b c (rfind_from i a c found).
Proof.
  revert i found. induction a as [|x a IH]; intros i found; simpl String.length.
  - simpl. f_equal. lia.
  - rewrite append_cons. simpl rfind_from. rewrite IH. f_equal. lia.
Qed.

Lemma rfind_from_absent i b c found :
  contains_char c b = false -> rfind_from i b c found = found.
Proof.
  revert i found. induction b as [|x b IH]; intros i found H; simpl in *; [reflexivity|].
  apply orb_false_iff in H as [Hx Hb]. rewrite Hx. apply IH, Hb.
Qed.

Lemma rfind_from_bound i a c found :
  rfind_from i a c found = found \/
  i <= rfind_from i a c found < i + Z.of_nat (String.length a).
Proof.
  revert i found. induction a as [|x a IH]; intros i found; simpl String.length.
  - left. reflexivity.
  - simpl rfind_from. destruct (IH (i + 1) (if Ascii.eqb x c then i else found)) as [E|E].
    + rewrite E. destruct (Ascii.eqb x c); [right; lia | left; reflexivity].
    + right. lia.
Qed.

Lemma rfind_bound a c : -1 <= rfind a c < Z.of_nat (String.length a).
Proof. unfold rfind. destruct (rfind_from_bound 0 a c (-1)) as [E|E]; lia. Qed.



Lemma append_assoc a b c : (a +:+ b) +:+ c = a +:+ b +:+ c.
Proof.
  induction a as [|x a IH]; [reflexivity|].
  rewrite !append_cons, IH. reflexivity.
Qed.

Lemma length_append a b :
  String.length (a +:+ b) = (String.length a + String.length b)%nat.
Proof.
  induction a as [|x a IH]; [reflexivity|].
  rewrite append_cons. simpl. rewrite IH. reflexivity.
Qed.

Lemma substring_all s : substring 0 (String.length s) s = s.
Proof. induction s; simpl; [reflexivity | f_equal; assumption]. Qed.

Lemma substring_app_l a b : substring 0 (String.length a) (a +:+ b) = a.
Proof.
  induction a as [|x a IH]; [destruct b; reflexivity|].
  rewrite append_cons. simpl. rewrite IH. reflexivity.
Qed.

Lemma substring_app_r a b n :
  substring (String.length a) n (a +:+ b) = substring 0 n b.
Proof.
  induction a as [|x a IH]; [reflexivity|].
  rewrite append_cons. simpl. exact IH.
Qed.







(** ** The formatter's effects *)

Lemma set_FXFormatter_loggers_same st :
  set_FXFormatter_loggers (FXFormatter_loggers st) st = st.
Proof. destruct st; reflexivity. Qed.

Lemma formatted_record_idem record :
  formatted_record (formatted_record record) = formatted_record record.
Proof. reflexivity. Qed.

Lemma format_string_formatted self record :
  format_string self (formatted_record record) = format_string self record.
Proof. reflexivity. Qed.

(** [format], whether or not the name is already tracked. *)
Lemma FXFormatter_format_eq self record st :
  FXFormatter_format self record st
  = (format_string self record, formatted_record record,
     set_FXFormatter_loggers ({[name record]} ∪ FXFormatter_loggers st) st).
Proof.
  unfold FXFormatter_format. case_bool_decide as Hin; [|reflexivity].
  assert ({[name record]} ∪ FXFormatter_loggers st = FXFormatter_loggers st) as ->
    by (apply subseteq_union_1_L, singleton_subseteq_l, Hin).
  rewrite set_FXFormatter_loggers_same. reflexivity.
Qed.



(** ** Frame rules *)

Section Frames.

Context {B : Type} (proj : State -> B).

Lemma frames_ret {A} (a : A) : frames proj (ret a).
Proof. intros st. reflexivity. Qed.

Lemma frames_get {A} (f : State -> A) : frames proj (get f).
Proof. intros st. reflexivity. Qed.

Lemma frames_raise {A} (e : Exception) : frames proj (@raise A e).
Proof. intros st. reflexivity. Qed.

Lemma frames_modify (f : State -> State) :
  (forall st, proj (f st) = proj st) -> frames proj (modify f).
Proof. intros H st. apply H. Qed.

Lemma frames_bind {A C} (c : M A) (k : A -> M C) :
  frames proj c -> (forall a, frames proj (k a)) -> frames proj (bind c k).
Proof.
  intros Hc Hk st. unfold bind. specialize (Hc st).
  destruct (c st) as [a st'|e st']; simpl in *.
  - rewrite Hk. exact Hc.
  - exact Hc.
Qed.

Lemma frames_for_each {A} (l : list A) (body : A -> M unit) :
  (forall x, frames proj (body x)) -> frames proj (for_each l body).
Proof.
  intros H. induction l as [|x l IH]; simpl.
  - apply frames_ret.
  - apply frames_bind; [apply H | intros _; exact IH].
Qed.

End Frames.

(** What dispatching a record can change: the formatter's set of names, the
    two output streams and the list of dispatched records. *)
Section HandleFrame.

Context {B : Type} (proj : State -> B).
Hypothesis proj_loggers : forall v st, proj (set_FXFormatter_loggers v st) = proj st.
Hypothesis proj_stderr : forall v st, proj (set_stderr v st) = proj st.
Hypothesis proj_file_output : forall v st, proj (set_file_output v st) = proj st.
Hypothesis proj_handled : forall v st, proj (set_handled v st) = proj st.

Lemma FXFormatter_format_frame self record st :
  proj (snd (FXFormatter_format self record st)) = proj st.
Proof. rewrite FXFormatter_format_eq. simpl. apply proj_loggers. Qed.

Lemma Handler_handle_frame h record st :
  proj (snd (Handler_handle h record st)) = proj st.
Proof.
  unfold Handler_handle. pose proof (FXFormatter_format_frame (h_formatter h) record st) as H.
  destruct (FXFormatter_format (h_formatter h) record st) as [[out r] st'].
  simpl in H. destruct out as [text|]; [destruct (h_class h)|]; simpl;
    rewrite ?proj_stderr, ?proj_file_output; exact H.
Qed.

Lemma call_handlers_of_frame hs record st :
  proj (snd (call_handlers_of hs record st)) = proj st.
Proof.
  revert record st. induction hs as [|hid hs IH]; intros record st; simpl; [reflexivity|].
  destruct (handler_heap st !! hid) as [h|]; [|apply IH].
  destruct (h_level h <=? levelno record); [|apply IH].
  pose proof (Handler_handle_frame h record st) as H.
  destruct (Handler_handle h record st) as [r st']. simpl in H.
  rewrite IH. exact H.
Qed.

Lemma callHandlers_chain_frame chain found record st :
  proj (snd (callHandlers_chain chain found record st)) = proj st.
Proof.
  revert found record st. induction chain as [|c chain IH]; intros found record st;
    simpl; [reflexivity|].
  destruct (logger_heap st !! c) as [lg|]; [|reflexivity].
  pose proof (call_handlers_of_frame (lg_handlers lg) record st) as H.
  destruct (call_handlers_of (lg_handlers lg) record st) as [r st']. simpl in H.
  destruct (lg_propagate lg); [rewrite IH|]; exact H.
Qed.

Lemma callHandlers_frame self record st :
  proj (callHandlers self record st) = proj st.
Proof.
  unfold callHandlers.
  pose proof (callHandlers_chain_frame (self :: ancestors self st) 0 record st) as H.
  destruct (callHandlers_chain (self :: ancestors self st) 0 record st) as [found st'].
  simpl in H. repeat case_match; rewrite ?proj_stderr; exact H.
Qed.

Lemma Logger_handle_frame self record st :
  proj (Logger_handle self record st) = proj st.
Proof. unfold Logger_handle. rewrite callHandlers_frame. apply proj_handled. Qed.

End HandleFrame.

Create HintDb fxlog discriminated.

#[global] Hint Unfold
  print setLoggerClass getLoggerClass addHandler Logger_setLevel Handler_setLevel
  _create_shared_file_handler store_shared_file_handler set_log_directory
  _check_log_directory apply_default_level
  check_save_to_file existing_FXColorLogger make_logger attach_file_handler
  finish_logger wire_logger build_logger
  configure_logger
  set_level_of set_loggers_level timedelta datetime_sub delete_if_old
  delete_old_logs clear_logs
  emit : fxlog.

(** Computations written directly as functions of the state. *)
Ltac frames_prim :=
  let st := fresh "st" in
  intros st;
  repeat (progress unfold getLogger, new_handler, mkdir, open_append,
    FXColorLogger_emit, FXColorLogger_debug, FXColorLogger_info,
    FXColorLogger_warning, FXColorLogger_error, FXColorLogger_critical,
    FXColorLogger__log, Logger_emit || case_match);
  first [reflexivity | simpl; apply Logger_handle_frame; intros; reflexivity].

Ltac frames_step :=
  lazymatch goal with
  | |- frames _ (bind _ _) => apply frames_bind; [| intros ?]
  | |- frames _ (ret _) => apply frames_ret
  | |- frames _ (get _) => apply frames_get
  | |- frames _ (raise _) => apply frames_raise
  | |- frames _ (modify _) => apply frames_modify; intros ?; reflexivity
  | |- frames _ (for_each _ _) => apply frames_for_each; intros ?
  | |- frames _ (match ?x with _ => _ end) => destruct x
  | |- frames _ _ => first [progress autounfold with fxlog | frames_prim]
  end.

Ltac frames_tac := repeat frames_step.

Lemma frames_LOG_DIRECTORY_configure_logger e n ec es sf :
  frames _LOG_DIRECTORY (configure_logger e n ec es sf).
Proof. frames_tac. Qed.

Lemma frames_LOG_DIRECTORY_set_loggers_level level :
  frames _LOG_DIRECTORY (set_loggers_level level).
Proof. frames_tac. Qed.

Lemma frames_LOG_DIRECTORY_delete_old_logs e days :
  frames _LOG_DIRECTORY (delete_old_logs e days).
Proof. frames_tac. Qed.

Lemma frames_LOG_DIRECTORY_clear_logs : frames _LOG_DIRECTORY clear_logs.
Proof. frames_tac. Qed.

Lemma frames_LOG_DIRECTORY_emit op lg m c caller e :
  frames _LOG_DIRECTORY (emit op lg m c caller e).
Proof. frames_tac. Qed.

(** ** The log directory is set once *)

Lemma run_cons eo ops st : run (eo :: ops) st = run ops (step (fst eo) (snd eo) st).
Proof. reflexivity. Qed.

Lemma set_log_directory_already e d d0 st :
  _LOG_DIRECTORY st = Some d0 -> set_log_directory e d st = Ok tt st.
Proof. intros H. unfold set_log_directory, bind, get. rewrite H. reflexivity. Qed.

Lemma step_keeps_directory e o d st :
  _LOG_DIRECTORY st = Some d -> _LOG_DIRECTORY (step e o st) = Some d.
Proof.
  intros H. destruct o as [d' | | | | | | | n |]; simpl.
  - rewrite (set_log_directory_already _ _ d) by exact H. exact H.
  - rewrite frames_LOG_DIRECTORY_configure_logger. exact H.
  - rewrite frames_LOG_DIRECTORY_set_loggers_level. exact H.
  - rewrite frames_LOG_DIRECTORY_delete_old_logs. exact H.
  - rewrite frames_LOG_DIRECTORY_clear_logs. exact H.
  - exact H.
  - rewrite frames_LOG_DIRECTORY_emit. exact H.
  - assert (Hf : frames _LOG_DIRECTORY (getLogger n)) by frames_tac.
    rewrite Hf. exact H.
  - exact H.
Qed.

Lemma run_keeps_directory ops d st :
  _LOG_DIRECTORY st = Some d -> _LOG_DIRECTORY (run ops st) = Some d.
Proof.
  revert st. induction ops as [|[e o] ops IH]; intros st H; [exact H|].
  rewrite run_cons. apply IH, step_keeps_directory, H.
Qed.

(** After the first call the directory is the one given, however the call
    ends. *)
Lemma set_log_directory_first e d st :
  _LOG_DIRECTORY st = None ->
  _LOG_DIRECTORY (state_of (set_log_directory e d st)) = Some d.
Proof.
  intros H. unfold set_log_directory, bind, get, modify. rewrite H. simpl.
  assert (Hf : frames _LOG_DIRECTORY (store_shared_file_handler e)) by frames_tac.
  destruct (is_dir d (set__LOG_DIRECTORY (Some d) st)); [|reflexivity].
  specialize (Hf (set__LOG_DIRECTORY (Some d) st)).
  destruct (store_shared_file_handler e (set__LOG_DIRECTORY (Some d) st));
    simpl in *; exact Hf.
Qed.

(** Where [_create_shared_file_handler] puts the file of the handler it
    returns. *)
Lemma _create_shared_file_handler_path e d st h st' :
  _LOG_DIRECTORY st = Some d ->
  _create_shared_file_handler e st = Ok h st' ->
  exists hd,
    handler_heap st' !! h = Some hd /\
    h_level hd = DEBUG /\
    h_class hd = FXTimedRotatingFileHandler
                   (d ++ [node e; user e; current_date e +:+ ".log"]) "%Y-%m-%d".
Proof.
  intros Hd. unfold _create_shared_file_handler, bind, get, mkdir, open_append, new_handler.
  rewrite Hd. intros H.
  repeat case_match; try discriminate; injection H as <- <-; simpl;
    rewrite lookup_app_r, Nat.sub_diag by lia; simpl;
    rewrite <- app_assoc; eexists; repeat split.
Qed.

(** C2: whatever the state, a second call of [set_log_directory] right after
    a first one is a no-op: it returns without raising and leaves the whole
    state, the stored directory included, as it is.  When the first call is
    the one that sets the directory (none was set before), the stored
    directory is the first call's value, it stays so through every later run
    of calls, and every later creation of the shared file sink puts its file
    under that directory. *)
Theorem C2_first_directory_wins :
  forall (e1 e2 : Env) (d1 d2 : Path) (st : State),
    _LOG_DIRECTORY st = None ->
    let st1 := state_of (set_log_directory e1 d1 st) in
    set_log_directory e2 d2 st1 = Ok tt st1 /\
    _LOG_DIRECTORY st1 = Some d1 /\
    forall (ops : list (Env * Op)),
      let st' := run ops (state_of (set_log_directory e2 d2 st1)) in
      _LOG_DIRECTORY st' = Some d1 /\
      forall (e : Env) (h : nat) (st'' : State),
        _create_shared_file_handler e st' = Ok h st'' ->
        exists hd,
          handler_heap st'' !! h = Some hd /\
          h_class hd = FXTimedRotatingFileHandler
                         (d1 ++ [node e; user e; current_date e +:+ ".log"])
                         "%Y-%m-%d".
Proof.
  intros e1 e2 d1 d2 st Hnone st1.
  pose proof (set_log_directory_first e1 d1 st Hnone) as H1. fold st1 in H1.
  pose proof (set_log_directory_already e2 d2 d1 st1 H1) as H2.
  split; [exact H2|]. split; [exact H1|].
  intros ops st'. unfold st'. rewrite H2. simpl.
  pose proof (run_keeps_directory ops d1 st1 H1) as Hrun.
  split; [exact Hrun|].
  intros e h st'' Hc.
  destruct (_create_shared_file_handler_path e d1 _ h st'' Hrun Hc) as (hd & Hh & _ & Hcls).
  exists hd. split; assumption.
Qed.

Lemma C2_first_directory_wins_witness :
  let st := initial_state false example_files in
  let st1 := state_of (set_log_directory example_env ["logs"%string] st) in
  _LOG_DIRECTORY st = None /\
  set_log_directory example_env ["elsewhere"%string] st1 = Ok tt st1 /\
  _LOG_DIRECTORY st1 = Some ["logs"%string].
Proof.
  split; [reflexivity|].
  destruct (C2_first_directory_wins example_env example_env ["logs"%string]
              ["elsewhere"%string] (initial_state false example_files) eq_refl)
    as (H1 & H2 & _).
  split; [exact H1 | exact H2].
Defined.

(** ** Deleting old logs *)

Lemma elem_of_iterdir d p st :
  p ∈ iterdir d st <-> is_child d p = true /\ is_Some (fs st !! p).
Proof.
  unfold iterdir. rewrite list_elem_of_filter, list_elem_of_fmap.
  split.
  - intros [Hc ([q n] & -> & Hin)]. split; [exact Hc|].
    apply elem_of_map_to_list in Hin. simpl. eauto.
  - intros [Hc [n Hn]]. split; [exact Hc|]. exists (p, n). split; [reflexivity|].
    apply elem_of_map_to_list. exact Hn.
Qed.

Lemma delete_if_old_eq cutoff p st :
  delete_if_old cutoff p st
  = Ok tt (if old_file cutoff (fs st) p then unlink p st else st).
Proof.
  unfold delete_if_old, bind, get, modify, ret, is_file, mtime_of, old_file.
  simpl. destruct (fs st !! p) as [[|t]|] eqn:E; simpl; rewrite ?E; try reflexivity.
  destruct (t <? cutoff); reflexivity.
Qed.

Lemma set_fs_same st : set_fs (fs st) st = st.
Proof. destruct st; reflexivity. Qed.

Lemma set_fs_set_fs f g st : set_fs f (set_fs g st) = set_fs f st.
Proof. reflexivity. Qed.

Lemma delete_loop cutoff l st :
  exists st',
    for_each l (delete_if_old cutoff) st = Ok tt st' /\
    st' = set_fs (fs st') st /\
    forall p, fs st' !! p =
              if bool_decide (p ∈ l) && old_file cutoff (fs st) p then None
              else fs st !! p.
Proof.
  revert st. induction l as [|x l IH]; intros st.
  - exists st. split; [reflexivity|]. split; [symmetry; apply set_fs_same|].
    intros p. reflexivity.
  - simpl. unfold bind at 1. rewrite delete_if_old_eq.
    set (st1 := if old_file cutoff (fs st) x then unlink x st else st).
    destruct (IH st1) as (st' & Hrun & Hframe & Hfs).
    exists st'. split; [exact Hrun|]. split.
    { rewrite Hframe. unfold st1. destruct (old_file cutoff (fs st) x); reflexivity. }
    intros p. rewrite Hfs. unfold st1, old_file.
    destruct (decide (p = x)) as [->|Hne].
    + rewrite (bool_decide_eq_true_2 (x ∈ x :: l)) by (apply elem_of_cons; left; reflexivity).
      simpl. destruct (fs st !! x) as [[|t]|] eqn:E; simpl; rewrite ?E, ?andb_false_r; try reflexivity.
      destruct (t <? cutoff) eqn:Et; simpl.
      * rewrite lookup_delete_eq. rewrite andb_false_r. reflexivity.
      * rewrite E, Et, andb_false_r. reflexivity.
    + assert (Hl : bool_decide (p ∈ x :: l) = bool_decide (p ∈ l)).
      { apply bool_decide_ext. rewrite elem_of_cons. tauto. }
      rewrite Hl.
      assert (Heq : fs (if match fs st !! x with
                             | Some (File t) => t <? cutoff
                             | _ => false
                             end then unlink x st else st) !! p = fs st !! p).
      { destruct (fs st !! x) as [[|t]|]; try reflexivity.
        destruct (t <? cutoff); [|reflexivity]. simpl. apply lookup_delete_ne. congruence. }
      rewrite Heq. reflexivity.
Qed.

Lemma _check_log_directory_unset st :
  _LOG_DIRECTORY st = None ->
  _check_log_directory st
  = Raise (ValueError "Log directory is not set. Call `set_log_directory` first.") st.
Proof. intros H. unfold _check_log_directory, bind, get. rewrite H. reflexivity. Qed.

Lemma _check_log_directory_missing d st :
  _LOG_DIRECTORY st = Some d -> is_dir d st = false ->
  _check_log_directory st
  = Raise (ValueError ("Log directory does not exist: '" +:+ path_str d +:+ "'.")) st.
Proof.
  intros H Hd. unfold _check_log_directory, bind, get. rewrite H. simpl.
  rewrite Hd. reflexivity.
Qed.

Lemma _check_log_directory_ok d st :
  _LOG_DIRECTORY st = Some d -> is_dir d st = true ->
  _check_log_directory st = Ok tt st.
Proof.
  intros H Hd. unfold _check_log_directory, bind, get. rewrite H. simpl.
  rewrite Hd. reflexivity.
Qed.

Lemma bind_ok {A C} (c : M A) (k : A -> M C) st a st' :
  c st = Ok a st' -> bind c k st = k a st'.
Proof. intros H. unfold bind. rewrite H. reflexivity. Qed.

Lemma bind_raise {A C} (c : M A) (k : A -> M C) st e st' :
  c st = Raise e st' -> bind c k st = Raise e st'.
Proof. intros H. unfold bind. rewrite H. reflexivity. Qed.

Lemma timedelta_ok days st :
  Z.abs days <= 999999999 -> timedelta days st = Ok (days * microseconds_per_day) st.
Proof. intros H. unfold timedelta. rewrite (proj2 (Z.leb_le _ _) H). reflexivity. Qed.

Lemma datetime_sub_ok d delta st :
  0 <= d - delta <= datetime_max -> datetime_sub d delta st = Ok (d - delta) st.
Proof.
  intros [H1 H2]. unfold datetime_sub.
  rewrite (proj2 (Z.leb_le _ _) H1), (proj2 (Z.leb_le _ _) H2). reflexivity.
Qed.

(** C8, as stated, fails: with the directory set and present, a number of
    days whose cutoff date is out of the range of [datetime] makes the call
    fail with an overflow error; nothing is deleted, not even a file older
    than the cutoff. *)
Lemma C8_counterexample :
  _LOG_DIRECTORY example_logs_state = Some ["logs"%string] /\
  is_dir ["logs"%string] example_logs_state = true /\
  delete_old_logs example_env 1000000000 example_logs_state
  = Raise (OverflowError "days; must have magnitude <= 999999999") example_logs_state /\
  delete_old_logs example_env (-3000000) example_logs_state
  = Raise (OverflowError "date value out of range") example_logs_state /\
  old_file (now example_env - (-3000000) * microseconds_per_day)
    (fs example_logs_state) ["logs"; "old.log"]%string = true /\
  is_child ["logs"%string] ["logs"; "old.log"]%string = true.
Proof. repeat split; vm_compute; reflexivity. Qed.

(** C8 (amended): [delete_old_logs(days)] fails with a [ValueError] when no
    log directory is set or the set directory does not exist.  Otherwise,
    when the cutoff date [now - days] is a date [datetime] can hold, it
    returns after deleting exactly the regular files directly under the log
    directory whose last-modified time is strictly before the cutoff: every
    other entry, newer files and anything in a subdirectory included, is left
    as it is, and so is the rest of the state. *)
Theorem C8_delete_old_logs :
  forall (e : Env) (days : Z) (st : State),
    (_LOG_DIRECTORY st = None ->
     delete_old_logs e days st
     = Raise (ValueError "Log directory is not set. Call `set_log_directory` first.") st) /\
    (forall d, _LOG_DIRECTORY st = Some d -> is_dir d st = false ->
     delete_old_logs e days st
     = Raise (ValueError ("Log directory does not exist: '" +:+ path_str d +:+ "'.")) st) /\
    (forall d, _LOG_DIRECTORY st = Some d -> is_dir d st = true ->
     Z.abs days <= 999999999 ->
     0 <= now e - days * microseconds_per_day <= datetime_max ->
     exists st',
       delete_old_logs e days st = Ok tt st' /\
       st' = set_fs (fs st') st /\
       forall p,
         fs st' !! p =
         if is_child d p && old_file (now e - days * microseconds_per_day) (fs st) p
         then None else fs st !! p).
Proof.
  intros e days st. split; [|split].
  - intros H. unfold delete_old_logs, bind.
    rewrite _check_log_directory_unset by exact H. reflexivity.
  - intros d H Hd. unfold delete_old_logs, bind.
    rewrite (_check_log_directory_missing d) by assumption. reflexivity.
  - intros d H Hd Hdays Hcut. unfold delete_old_logs.
    rewrite (bind_ok _ _ _ _ _ (_check_log_directory_ok d st H Hd)).
    rewrite (bind_ok _ _ _ _ _ (timedelta_ok days st Hdays)).
    rewrite (bind_ok _ _ _ _ _ (datetime_sub_ok _ _ st Hcut)).
    rewrite (bind_ok _ _ st _ st (eq_refl : get _LOG_DIRECTORY st = Ok _ st)).
    rewrite H. simpl default.
    rewrite (bind_ok _ _ st _ st (eq_refl : get (iterdir d) st = Ok _ st)).
    destruct (delete_loop (now e - days * microseconds_per_day) (iterdir d st) st)
      as (st' & Hrun & Hframe & Hfs).
    exists st'. split; [exact Hrun|]. split; [exact Hframe|].
    intros p. rewrite Hfs.
    destruct (old_file (now e - days * microseconds_per_day) (fs st) p) eqn:Hold;
      [|rewrite !andb_false_r; reflexivity].
    rewrite !andb_true_r.
    destruct (is_child d p) eqn:Hc.
    + rewrite bool_decide_eq_true_2; [reflexivity|].
      apply elem_of_iterdir. split; [exact Hc|].
      unfold old_file in Hold. destruct (fs st !! p); [eauto | discriminate].
    + rewrite bool_decide_eq_false_2; [reflexivity|].
      intros Hin. apply elem_of_iterdir in Hin as [Hc' _]. congruence.
Qed.

Lemma C8_delete_old_logs_witness :
  exists st',
    delete_old_logs example_env 1 example_logs_state = Ok tt st' /\
    fs st' !! ["logs"; "old.log"]%string = None /\
    fs st' !! ["logs"; "new.log"]%string = Some (File 63900000000000000) /\
    fs st' !! ["logs"; "host"; "deep.log"]%string = Some (File 5).
Proof.
  destruct (C8_delete_old_logs example_env 1 example_logs_state) as (_ & _ & H).
  destruct (H ["logs"%string]) as (st' & Hrun & _ & Hfs);
    [reflexivity | reflexivity | vm_compute; discriminate
    | split; vm_compute; discriminate |].
  exists st'. split; [exact Hrun|].
  rewrite !Hfs. repeat split.
Defined.

(** ** Running the operations step by step *)

Lemma bind_assoc {A B C} (c : M A) (k1 : A -> M B) (k2 : B -> M C) st :
  bind (bind c k1) k2 st = bind c (fun a => bind (k1 a) k2) st.
Proof. unfold bind. destruct (c st); reflexivity. Qed.

Ltac mstep :=
  match goal with
  | |- context [bind (bind ?c ?k1) ?k2 ?st] => rewrite (bind_assoc c k1 k2 st)
  | |- context [bind (get ?f) ?k ?st] =>
      change (bind (get f) k st) with (k (f st) st); cbv beta
  | |- context [bind (modify ?f) ?k ?st] =>
      change (bind (modify f) k st) with (k tt (f st)); cbv beta
  | |- context [bind (ret ?a) ?k ?st] =>
      change (bind (ret a) k st) with (k a st); cbv beta
  | |- context [bind (raise ?e) ?k ?st] =>
      change (bind (raise e) k st) with (@Raise _ e st)
  | H : ?c ?st = Ok ?a ?st' |- context [bind ?c ?k ?st] =>
      rewrite (bind_ok c k st a st' H)
  | H : ?c ?st = Raise ?e ?st' |- context [bind ?c ?k ?st] =>
      rewrite (bind_raise c k st e st' H)
  | |- context [bind (new_handler ?h) ?k ?st] =>
      change (bind (new_handler h) k st)
        with (k (length (handler_heap st)) (set_handler_heap (handler_heap st ++ [h]) st));
      cbv beta
  end.

Lemma check_save_to_file_eq n sf st :
  check_save_to_file n sf st
  = Ok (sf && log_directory_usable st)
       (if sf && negb (log_directory_usable st)
        then set_stdout (stdout st ++ [degraded_warning n st]) st else st).
Proof.
  unfold check_save_to_file, log_directory_usable, degraded_warning, print.
  destruct sf; [|reflexivity]. mstep.
  destruct (_LOG_DIRECTORY st) as [d|]; repeat mstep; [|reflexivity].
  destruct (is_dir d st); repeat mstep; reflexivity.
Qed.

Lemma set_handler_levels_eq level hs st :
  for_each hs (fun handler => Handler_setLevel handler level) st
  = Ok tt (set_handler_heap (set_handler_levels level hs (handler_heap st)) st).
Proof.
  revert st. induction hs as [|h hs IH]; intros st; simpl.
  - unfold set_handler_levels. simpl. destruct st; reflexivity.
  - unfold Handler_setLevel at 1. mstep. rewrite IH. reflexivity.
Qed.

Lemma set_handler_levels_length level hs heap :
  length (set_handler_levels level hs heap) = length heap.
Proof.
  revert heap. induction hs as [|h hs IH]; intros heap; [reflexivity|].
  unfold set_handler_levels in *. simpl. rewrite IH. apply length_alter.
Qed.


Lemma set_handler_levels_formatter level hs heap :
  h_formatter <$> set_handler_levels level hs heap = h_formatter <$> heap.
Proof.
  revert heap. induction hs as [|h hs IH]; intros heap; [reflexivity|].
  unfold set_handler_levels in *. simpl. rewrite IH.
  apply list_eq. intros i. rewrite !list_lookup_fmap.
  destruct (decide (h = i)) as [->|Hne].
  - rewrite list_lookup_alter_eq. destruct (heap !! i); reflexivity.
  - rewrite list_lookup_alter_ne by exact Hne. reflexivity.
Qed.

(** [getLogger] adds no handler to any logger, and leaves everything but the
    logger heap and [loggerDict] alone. *)
Lemma lookup_snoc_new_logger (l : list Logger) n cls j :
  lg_handlers <$> (l ++ [new_logger n cls]) !! j
  = if decide (j = length l) then Some [] else lg_handlers <$> l !! j.
Proof.
  destruct (decide (j = length l)) as [->|Hne].
  - rewrite lookup_app_r, Nat.sub_diag by lia. reflexivity.
  - destruct (Nat.lt_ge_cases j (length l)) as [Hlt|Hge].
    + rewrite lookup_app_l by exact Hlt. reflexivity.
    + rewrite lookup_app_r by exact Hge.
      rewrite (proj2 (lookup_ge_None l j)) by exact Hge.
      destruct (j - length l)%nat as [|k] eqn:E; [lia|]. reflexivity.
Qed.

Lemma handlers_of_alt j st :
  handlers_of j st = default [] (lg_handlers <$> logger_heap st !! j).
Proof. unfold handlers_of. destruct (logger_heap st !! j); reflexivity. Qed.

Lemma getLogger_handlers_of n st j :
  handlers_of j (state_of (getLogger n st)) = handlers_of j st.
Proof.
  assert (Hnew : forall cls d,
    handlers_of j (set_loggerDict d
      (set_logger_heap (logger_heap st ++ [new_logger n cls]) st)) = handlers_of j st).
  { intros cls d. rewrite !handlers_of_alt. simpl.
    rewrite lookup_snoc_new_logger. case_decide as Hj; [|reflexivity].
    subst j. rewrite (proj2 (lookup_ge_None _ _)) by lia. reflexivity. }
  unfold getLogger. destruct (is_root_name n); [reflexivity|].
  destruct (loggerDict st !! n) as [[|id']|]; simpl; try reflexivity; apply Hnew.
Qed.

Lemma getLogger_existing n st id :
  existing_logger n st = Some id -> getLogger n st = Ok id st.
Proof.
  unfold existing_logger, getLogger. destruct (is_root_name n); [congruence|].
  destruct (loggerDict st !! n) as [[|id']|]; congruence.
Qed.

(** ** Relations every operation keeps *)

Section Keeps.

Context (R : State -> State -> Prop) `{!Reflexive R, !Transitive R}.

Lemma keeps_ret {A} (a : A) : keeps R (ret a).
Proof. intros st. simpl. reflexivity. Qed.

Lemma keeps_get {A} (f : State -> A) : keeps R (get f).
Proof. intros st. simpl. reflexivity. Qed.

Lemma keeps_raise {A} (e : Exception) : keeps R (@raise A e).
Proof. intros st. simpl. reflexivity. Qed.

Lemma keeps_modify (f : State -> State) : (forall st, R st (f st)) -> keeps R (modify f).
Proof. intros H st. apply H. Qed.

Lemma keeps_bind {A C} (c : M A) (k : A -> M C) :
  keeps R c -> (forall a, keeps R (k a)) -> keeps R (bind c k).
Proof.
  intros Hc Hk st. unfold bind. specialize (Hc st).
  destruct (c st) as [a st'|e st']; simpl in *; [|exact Hc].
  etransitivity; [exact Hc | apply Hk].
Qed.

Lemma keeps_for_each {A} (l : list A) (body : A -> M unit) :
  (forall x, keeps R (body x)) -> keeps R (for_each l body).
Proof.
  intros H. induction l as [|x l IH]; simpl.
  - apply keeps_ret.
  - apply keeps_bind; [apply H | intros _; exact IH].
Qed.

End Keeps.

Global Instance grows_refl : Reflexive grows.
Proof. intros st. split; auto. Qed.

Global Instance grows_trans : Transitive grows.
Proof.
  intros st1 st2 st3 [a1 b1 c1 d1] [a2 b2 c2 d2]. split; eauto.
Qed.

(** A change that leaves the two heaps and [loggerDict] alone. *)
Lemma grows_same st st' :
  logger_heap st' = logger_heap st -> loggerDict st' = loggerDict st ->
  handler_heap st' = handler_heap st -> grows st st'.
Proof.
  intros H1 H2 H3. split; unfold class_of; rewrite ?H1, ?H2, ?H3; auto.
Qed.

Lemma grows_update_logger id f st :
  (forall lg, lg_class (f lg) = lg_class lg) -> grows st (update_logger id f st).
Proof.
  intros Hf. split; simpl; auto. unfold class_of. simpl. intros j c.
  destruct (decide (id = j)) as [->|Hne].
  - rewrite list_lookup_alter_eq. destruct (logger_heap st !! j); simpl; [|discriminate].
    rewrite Hf. auto.
  - rewrite list_lookup_alter_ne by exact Hne. auto.
Qed.

Lemma grows_update_handler hid f st :
  (forall hd, h_class (f hd) = h_class hd /\ h_formatter (f hd) = h_formatter hd) ->
  grows st (update_handler hid f st).
Proof.
  intros Hf. split; simpl; auto. intros h c.
  destruct (decide (hid = h)) as [->|Hne].
  - rewrite list_lookup_alter_eq. destruct (handler_heap st !! h) as [hd|]; simpl; [|discriminate].
    destruct (Hf hd) as [-> ->]. auto.
  - rewrite list_lookup_alter_ne by exact Hne. auto.
Qed.

Lemma grows_new_handler hd st :
  grows st (set_handler_heap (handler_heap st ++ [hd]) st).
Proof.
  split; simpl; auto. intros h c H.
  destruct (handler_heap st !! h) as [x|] eqn:E; [|discriminate].
  rewrite (lookup_app_l_Some _ _ _ _ E). exact H.
Qed.

Lemma _fixupParents_kept prefixes d n entry :
  d !! n = Some entry -> _fixupParents prefixes d !! n = Some entry.
Proof.
  revert d. induction prefixes as [|p prefixes IH]; intros d H; simpl; [exact H|].
  destruct (d !! p) as [[|id]|] eqn:E; auto.
  apply IH. rewrite lookup_insert_ne; [exact H|]. intros ->. congruence.
Qed.

Lemma grows_getLogger n st : grows st (state_of (getLogger n st)).
Proof.
  assert (Hnew : grows st
    (set_loggerDict
       (_fixupParents (parent_prefixes n)
          (<[n := LoggerRef (length (logger_heap st))]> (loggerDict st)))
       (set_logger_heap (logger_heap st ++ [new_logger n (_loggerClass st)]) st)) \/
    exists id, loggerDict st !! n = Some (LoggerRef id)).
  { destruct (loggerDict st !! n) as [[|id]|] eqn:E; [left | right; eauto | left].
    all: split; simpl; auto.
    - unfold class_of. simpl. intros j c H.
      destruct (logger_heap st !! j) as [x|] eqn:Ej; [|discriminate].
      rewrite (lookup_app_l_Some _ _ _ _ Ej). exact H.
    - intros m id H. apply _fixupParents_kept. rewrite lookup_insert_ne; [exact H|].
      intros ->. congruence.
    - intros m [x H]. destruct (decide (n = m)) as [->|Hne].
      + eexists. apply _fixupParents_kept, lookup_insert_eq.
      + eexists. apply _fixupParents_kept. rewrite lookup_insert_ne by exact Hne. exact H.
    - unfold class_of. simpl. intros j c H.
      destruct (logger_heap st !! j) as [x|] eqn:Ej; [|discriminate].
      rewrite (lookup_app_l_Some _ _ _ _ Ej). exact H.
    - intros m id H. apply _fixupParents_kept. rewrite lookup_insert_ne; [exact H|].
      intros ->. congruence.
    - intros m [x H]. destruct (decide (n = m)) as [->|Hne].
      + eexists. apply _fixupParents_kept, lookup_insert_eq.
      + eexists. apply _fixupParents_kept. rewrite lookup_insert_ne by exact Hne. exact H. }
  unfold getLogger. destruct (is_root_name n); [reflexivity|].
  destruct Hnew as [Hnew|[id Hid]].
  - destruct (loggerDict st !! n) as [[|id]|]; simpl; try reflexivity; exact Hnew.
  - rewrite Hid. reflexivity.
Qed.

Lemma grows_Logger_handle self record st : grows st (Logger_handle self record st).
Proof.
  apply grows_same.
  - apply (Logger_handle_frame logger_heap); reflexivity.
  - apply (Logger_handle_frame loggerDict); reflexivity.
  - apply (Logger_handle_frame handler_heap); reflexivity.
Qed.

Ltac grows_leaf :=
  lazymatch goal with
  | |- grows _ (update_logger _ _ _) =>
      apply grows_update_logger; intros ?; try reflexivity;
      simpl; repeat case_match; reflexivity
  | |- grows _ (update_handler _ _ _) =>
      apply grows_update_handler; intros ?; split; reflexivity
  | |- grows _ (state_of (getLogger _ _)) => apply grows_getLogger
  | |- grows _ (Logger_handle _ _ _) => apply grows_Logger_handle
  | |- grows _ (set_handler_heap (handler_heap _ ++ [_]) _) => apply grows_new_handler
  | |- grows ?st ?st => reflexivity
  | |- grows _ _ => apply grows_same; reflexivity
  end.

Ltac grows_prim :=
  let st := fresh "st" in
  intros st;
  repeat (progress unfold new_handler, mkdir, open_append,
    FXColorLogger_emit, FXColorLogger_debug, FXColorLogger_info,
    FXColorLogger_warning, FXColorLogger_error, FXColorLogger_critical,
    FXColorLogger__log, Logger_emit || case_match);
  simpl; grows_leaf.

Ltac grows_step :=
  lazymatch goal with
  | |- keeps _ (bind _ _) => apply keeps_bind; [typeclasses eauto | | intros ?]
  | |- keeps _ (ret _) => apply keeps_ret; typeclasses eauto
  | |- keeps _ (get _) => apply keeps_get; typeclasses eauto
  | |- keeps _ (raise _) => apply keeps_raise; typeclasses eauto
  | |- keeps _ (modify _) => apply keeps_modify; intros ?; grows_leaf
  | |- keeps _ (for_each _ _) => apply keeps_for_each; [typeclasses eauto.. | intros ?]
  | |- keeps _ (match ?x with _ => _ end) => destruct x
  | |- keeps _ (getLogger _) => intros ?; apply grows_getLogger
  | |- keeps _ _ => first [progress autounfold with fxlog | grows_prim]
  end.

Ltac grows_tac := repeat grows_step.

Lemma grows_configure_logger e n ec es sf : keeps grows (configure_logger e n ec es sf).
Proof. grows_tac. Qed.

Lemma grows_set_loggers_level level : keeps grows (set_loggers_level level).
Proof. grows_tac. Qed.

Lemma grows_set_log_directory e d : keeps grows (set_log_directory e d).
Proof. grows_tac. Qed.

Lemma grows_delete_old_logs e days : keeps grows (delete_old_logs e days).
Proof. grows_tac. Qed.

Lemma grows_clear_logs : keeps grows clear_logs.
Proof. grows_tac. Qed.

Lemma grows_emit op lg m c caller e : keeps grows (emit op lg m c caller e).
Proof. grows_tac. Qed.

Lemma grows_step_ e o st : grows st (step e o st).
Proof.
  destruct o as [d | n ec es sf | level | days | | lg level | op lg m c caller | n | files];
    simpl.
  - apply grows_set_log_directory.
  - apply grows_configure_logger.
  - apply grows_set_loggers_level.
  - apply grows_delete_old_logs.
  - apply grows_clear_logs.
  - grows_leaf.
  - apply grows_emit.
  - apply grows_getLogger.
  - grows_leaf.
Qed.

Lemma grows_run ops st : grows st (run ops st).
Proof.
  revert st. induction ops as [|[e o] ops IH]; intros st; [reflexivity|].
  rewrite run_cons. etransitivity; [apply grows_step_ | apply IH].
Qed.

(** ** Asking twice for the same logger *)

Lemma returns_ret {A} (a : A) : returns a (ret a).
Proof. intros st b st' H. injection H as <- _. reflexivity. Qed.

Lemma returns_bind {A C} (a : C) (c : M A) (k : A -> M C) :
  (forall x, returns a (k x)) -> returns a (bind c k).
Proof.
  intros Hk st b st'. unfold bind. destruct (c st) as [x st1|err st1]; [|discriminate].
  apply Hk.
Qed.

Lemma wire_logger_returns e n logger formatter cs :
  returns logger (wire_logger e n logger formatter cs).
Proof.
  unfold wire_logger, finish_logger.
  repeat (apply returns_bind; intros ?). apply returns_ret.
Qed.

Lemma getLogger_post n st id st' :
  getLogger n st = Ok id st' -> existing_logger n st' = Some id.
Proof.
  unfold getLogger, existing_logger. destruct (is_root_name n) eqn:Hr.
  - intros H. injection H as <- <-. reflexivity.
  - destruct (loggerDict st !! n) as [[|id']|] eqn:E; intros H; injection H as <- <-;
      simpl; rewrite ?E; try reflexivity;
      rewrite (_fixupParents_kept _ _ n (LoggerRef (length (logger_heap st))));
      try reflexivity; apply lookup_insert_eq.
Qed.

Lemma getLogger_never_raises n st : exists id st', getLogger n st = Ok id st'.
Proof. unfold getLogger. repeat case_match; eauto. Qed.

Lemma existing_logger_ext n st st' :
  loggerDict st' = loggerDict st -> existing_logger n st' = existing_logger n st.
Proof. intros H. unfold existing_logger. rewrite H. reflexivity. Qed.


(** [make_logger] is [getLogger] under the class [FXColorLogger]. *)
Lemma make_logger_eq n st :
  exists id st1,
    getLogger n (set__loggerClass FXColorLogger_class st) = Ok id st1 /\
    make_logger n st = Ok id (set__loggerClass (_loggerClass st) st1).
Proof.
  destruct (getLogger_never_raises n (set__loggerClass FXColorLogger_class st))
    as (id & st1 & Hg).
  exists id, st1. split; [exact Hg|].
  unfold make_logger, getLoggerClass, setLoggerClass. repeat mstep. reflexivity.
Qed.

(** What the search for an existing [FXColorLogger] finds. *)
Lemma existing_FXColorLogger_found n st id st' :
  existing_FXColorLogger n st = Ok (Some id) st' ->
  is_Some (loggerDict st' !! n) /\ existing_logger n st' = Some id /\
  class_of id st' = Some FXColorLogger_class /\
  getLogger n st = Ok id st'.
Proof.
  unfold existing_FXColorLogger. mstep.
  destruct (loggerDict st !! n) as [entry|] eqn:E; [|discriminate].
  destruct (getLogger_never_raises n st) as (id' & st1 & Hg). mstep. mstep.
  case_bool_decide as Hc; [|discriminate]. intros H. injection H as <- <-.
  split; [|split; [|split]].
  - pose proof (grows_keys _ _ (grows_getLogger n st) n) as Hk.
    rewrite Hg in Hk. apply Hk. eauto.
  - apply (getLogger_post _ _ _ _ Hg).
  - exact Hc.
  - exact Hg.
Qed.

Lemma existing_FXColorLogger_never_raises n st :
  exists found st', existing_FXColorLogger n st = Ok found st'.
Proof.
  unfold existing_FXColorLogger. mstep.
  destruct (loggerDict st !! n); [|eauto].
  destruct (getLogger_never_raises n st) as (id' & st1 & Hg). mstep. mstep.
  case_bool_decide; eauto.
Qed.

Lemma existing_FXColorLogger_hit n st id :
  is_Some (loggerDict st !! n) -> existing_logger n st = Some id ->
  class_of id st = Some FXColorLogger_class ->
  existing_FXColorLogger n st = Ok (Some id) st.
Proof.
  intros [entry He] Hex Hc. unfold existing_FXColorLogger. mstep. rewrite He.
  pose proof (getLogger_existing _ _ _ Hex) as Hg. mstep. mstep.
  rewrite bool_decide_eq_true_2 by exact Hc. reflexivity.
Qed.

Lemma frames_loggerDict_wire_logger e n logger formatter cs :
  frames loggerDict (wire_logger e n logger formatter cs).
Proof. frames_tac. Qed.

Lemma grows_wire_logger e n logger formatter cs :
  keeps grows (wire_logger e n logger formatter cs).
Proof. grows_tac. Qed.

(** After a call that returned, the name designates the returned logger. *)
Lemma configure_logger_designates e n ec es sf st id st1 :
  configure_logger e n ec es sf st = Ok id st1 -> existing_logger n st1 = Some id.
Proof.
  unfold configure_logger. rewrite (bind_ok _ _ _ _ _ (check_save_to_file_eq n sf st)).
  set (stw := if sf && negb (log_directory_usable st) then _ else st).
  destruct (existing_FXColorLogger_never_raises n stw) as (found & st2 & Hf). mstep.
  destruct found as [id0|].
  - intros H. injection H as <- <-. apply (existing_FXColorLogger_found _ _ _ _ Hf).
  - unfold build_logger. mstep.
    destruct (make_logger_eq n st2) as (id' & st3 & Hg & Hm). mstep.
    intros H. pose proof (wire_logger_returns _ _ _ _ _ _ _ _ H) as ->.
    pose proof (frames_loggerDict_wire_logger e n id'
      (FXFormatter_init (_COLOR_SUPPORTED st2) ec es) (sf && log_directory_usable st)
      (set__loggerClass (_loggerClass st2) st3)) as Hd.
    rewrite H in Hd. simpl in Hd.
    rewrite (existing_logger_ext n _ _ Hd). apply (getLogger_post _ _ _ _ Hg).
Qed.





(** ** Wiring the handlers *)

Lemma handlers_of_update_logger_other j id f st :
  (forall lg, lg_handlers (f lg) = lg_handlers lg) ->
  handlers_of j (update_logger id f st) = handlers_of j st.
Proof.
  intros Hf. unfold handlers_of, update_logger. simpl.
  destruct (decide (id = j)) as [->|Hne].
  - rewrite list_lookup_alter_eq. destruct (logger_heap st !! j); simpl; [apply Hf | reflexivity].
  - rewrite list_lookup_alter_ne by exact Hne. reflexivity.
Qed.


Ltac handlers_of_norm :=
  repeat first
    [ progress change (handlers_of ?j (set_handler_heap ?v ?s)) with (handlers_of j s)
    | progress change (handlers_of ?j (set__CONFIGURED_LOGGERS ?v ?s)) with (handlers_of j s)
    | progress change (handlers_of ?j (set__SHARED_FILE_HANDLER ?v ?s)) with (handlers_of j s)
    | progress change (handlers_of ?j (set__loggerClass ?v ?s)) with (handlers_of j s)
    | progress change (handlers_of ?j (set_stdout ?v ?s)) with (handlers_of j s)
    | progress change (handlers_of ?j (set_fs ?v ?s)) with (handlers_of j s)
    | rewrite handlers_of_update_logger_other by reflexivity ].


(** ** Degraded mode *)

Lemma existing_FXColorLogger_state n st found st' :
  existing_FXColorLogger n st = Ok found st' ->
  st' = st \/ st' = state_of (getLogger n st).
Proof.
  unfold existing_FXColorLogger. mstep.
  destruct (loggerDict st !! n); [|intros H; injection H as _ <-; left; reflexivity].
  destruct (getLogger_never_raises n st) as (id' & st1 & Hg). mstep. mstep.
  rewrite Hg. simpl.
  case_bool_decide as Hc; intros Hr; injection Hr as _ <-; right; reflexivity.
Qed.

Lemma existing_FXColorLogger_fresh n st :
  loggerDict st !! n = None -> existing_FXColorLogger n st = Ok None st.
Proof. intros H. unfold existing_FXColorLogger. mstep. rewrite H. reflexivity. Qed.






(** ** Configuring a logger that is not an FXColorLogger *)

Lemma set_handler_levels_kind level hs heap :
  handler_kind <$> set_handler_levels level hs heap = handler_kind <$> heap.
Proof.
  revert heap. induction hs as [|h hs IH]; intros heap; [reflexivity|].
  unfold set_handler_levels in *. simpl. rewrite IH.
  apply list_eq. intros i. rewrite !list_lookup_fmap.
  destruct (decide (h = i)) as [->|Hne].
  - rewrite list_lookup_alter_eq. destruct (heap !! i); reflexivity.
  - rewrite list_lookup_alter_ne by exact Hne. reflexivity.
Qed.


Lemma mkdir_cases p st :
  (exists f, mkdir p st = Ok tt (set_fs f st)) \/
  mkdir p st = Raise (OSError "mkdir") st.
Proof. unfold mkdir. destruct (mkdir_from [] p (fs st)); eauto. Qed.

Lemma open_append_cases e p st :
  (exists f, open_append e p st = Ok tt (set_fs f st)) \/
  open_append e p st = Raise (OSError "open") st.
Proof.
  unfold open_append. destruct (fs st !! p) as [[|t]|]; eauto.
  left. exists (fs st). rewrite set_fs_same. reflexivity.
Qed.

(** [_create_shared_file_handler] either puts one file handler at [DEBUG] on
    the heap, or raises; beyond that it changes files only. *)
Lemma _create_shared_file_handler_cases e st :
  (exists f hd p s,
     _create_shared_file_handler e st
     = Ok (length (handler_heap st))
          (set_handler_heap (handler_heap st ++ [hd]) (set_fs f st)) /\
     h_level hd = DEBUG /\ h_class hd = FXTimedRotatingFileHandler p s) \/
  (exists err f, _create_shared_file_handler e st = Raise err (set_fs f st)).
Proof.
  unfold _create_shared_file_handler. mstep.
  destruct (_LOG_DIRECTORY st) as [d|].
  - destruct (mkdir_cases (d ++ [node e; user e]) st) as [[f Hm]|Hm]; mstep.
    + destruct (open_append_cases e ((d ++ [node e; user e]) ++ [current_date e +:+ ".log"])
                  (set_fs f st)) as [[f' Ho]|Ho]; repeat mstep.
      * left. eexists f', _, _, _. split; [reflexivity|]. split; reflexivity.
      * right. eauto.
    + right. exists (OSError "mkdir"), (fs st). rewrite set_fs_same. reflexivity.
  - right. eexists _, (fs st). rewrite set_fs_same. reflexivity.
Qed.

Lemma store_shared_file_handler_cases e st :
  (exists f hd p s,
     store_shared_file_handler e st
     = Ok (length (handler_heap st))
          (set__SHARED_FILE_HANDLER (Some (length (handler_heap st)))
             (set_handler_heap (handler_heap st ++ [hd]) (set_fs f st))) /\
     h_level hd = DEBUG /\ h_class hd = FXTimedRotatingFileHandler p s) \/
  (exists err f, store_shared_file_handler e st = Raise err (set_fs f st)).
Proof.
  unfold store_shared_file_handler.
  destruct (_create_shared_file_handler_cases e st)
    as [(f & hd & p & s & Hc & Hlev & Hcls)|(err & f & Hc)]; repeat mstep.
  - left. exists f, hd, p, s. split; [reflexivity|]. split; assumption.
  - right. eauto.
Qed.

Lemma handlers_of_Some j st lg :
  logger_heap st !! j = Some lg -> handlers_of j st = lg_handlers lg.
Proof. intros H. unfold handlers_of. rewrite H. reflexivity. Qed.



(** ** The level of the shared file sink *)

Global Instance preserves_refl I : Reflexive (preserves I).
Proof. intros st H. exact H. Qed.

Global Instance preserves_trans I : Transitive (preserves I).
Proof. intros st1 st2 st3 H1 H2 H. apply H2, H1, H. Qed.

Lemma sink_invariant_ext st st' :
  handler_heap st' = handler_heap st ->
  _SHARED_FILE_HANDLER st' = _SHARED_FILE_HANDLER st ->
  _DEFAULT_LEVEL st' = _DEFAULT_LEVEL st ->
  preserves sink_invariant st st'.
Proof.
  intros H1 H2 H3 [Ha Hb]. split.
  - intros h. rewrite H1, H2. apply Ha.
  - rewrite H3. intros Hd h hd. rewrite H1. apply Hb, Hd.
Qed.

Lemma sink_invariant_new_console hd st :
  is_file_handler hd = false ->
  preserves sink_invariant st (set_handler_heap (handler_heap st ++ [hd]) st).
Proof.
  intros Hhd [Ha Hb]. split.
  - intros h Hh. destruct (Ha h Hh) as (x & Hx & Hf). exists x. split; [|exact Hf].
    simpl. apply lookup_app_l_Some, Hx.
  - simpl. intros Hd h x Hx Hf. apply lookup_app_Some in Hx as [Hx|[_ Hx]].
    + apply (Hb Hd h x Hx Hf).
    + destruct (h - length (handler_heap st))%nat; simpl in Hx; [|discriminate].
      injection Hx as <-. congruence.
Qed.

Lemma sink_invariant_store_shared e :
  keeps (preserves sink_invariant) (store_shared_file_handler e).
Proof.
  intros st [Ha Hb].
  destruct (store_shared_file_handler_cases e st)
    as [(f & hd & p & s & Hc & Hlev & Hcls)|(err & f & Hc)]; rewrite Hc; simpl.
  - split.
    + intros h Hh. simpl in Hh. injection Hh as <-. exists hd. simpl.
      rewrite lookup_app_r, Nat.sub_diag by lia. split; [reflexivity|].
      unfold is_file_handler. rewrite Hcls. reflexivity.
    + simpl. intros Hd h x Hx Hf. apply lookup_app_Some in Hx as [Hx|[_ Hx]].
      * apply (Hb Hd h x Hx Hf).
      * destruct (h - length (handler_heap st))%nat; simpl in Hx; [|discriminate].
        injection Hx as <-. exact Hlev.
  - split; [exact Ha | exact Hb].
Qed.

(** Setting levels keeps the handlers' classes; it is done only when a
    default level is set. *)
Lemma shared_is_file_kinds st st' :
  handler_kind <$> handler_heap st' = handler_kind <$> handler_heap st ->
  _SHARED_FILE_HANDLER st' = _SHARED_FILE_HANDLER st ->
  shared_is_file st -> shared_is_file st'.
Proof.
  intros Hk Hs Ha h Hh. rewrite Hs in Hh. destruct (Ha h Hh) as (hd & Hhd & Hf).
  pose proof (f_equal (fun l => l !! h) Hk) as Hl. simpl in Hl.
  rewrite !list_lookup_fmap, Hhd in Hl.
  destruct (handler_heap st' !! h) as [hd'|]; [|discriminate].
  exists hd'. split; [reflexivity|]. simpl in Hl. injection Hl as Hc _.
  unfold is_file_handler in *. rewrite Hc. exact Hf.
Qed.

Lemma sink_invariant_apply_default_level logger :
  keeps (preserves sink_invariant) (apply_default_level logger).
Proof.
  intros st [Ha Hb]. unfold apply_default_level, Logger_setLevel. mstep.
  destruct (_DEFAULT_LEVEL st) as [level|] eqn:Hd;
    [|split; [exact Ha | intros _; apply Hb; reflexivity]].
  repeat mstep. rewrite set_handler_levels_eq. simpl. split.
  - apply (shared_is_file_kinds st); [apply set_handler_levels_kind | reflexivity | exact Ha].
  - simpl. rewrite Hd. discriminate.
Qed.

Lemma frames_DEFAULT_LEVEL_set_level_of level n :
  frames _DEFAULT_LEVEL (set_level_of level n).
Proof. frames_tac. Qed.

Lemma set_loggers_level_default level st :
  _DEFAULT_LEVEL (state_of (set_loggers_level level st)) = Some level.
Proof.
  assert (H : frames _DEFAULT_LEVEL
    (do configured <- get _CONFIGURED_LOGGERS;
     do_ for_each (elements configured) (set_level_of level);
     do tracked <- get FXFormatter_loggers;
     for_each (elements tracked) (fun logger_name =>
       do configured <- get _CONFIGURED_LOGGERS;
       if bool_decide (logger_name ∈ configured) then ret tt
       else set_level_of level logger_name))) by frames_tac.
  unfold set_loggers_level. mstep. rewrite H. reflexivity.
Qed.

Lemma sink_invariant_set_loggers_level level :
  keeps (preserves sink_invariant) (set_loggers_level level).
Proof.
  intros st [Ha Hb]. split.
  - pose proof (grows_set_loggers_level level st) as Hg.
    assert (Hs : frames _SHARED_FILE_HANDLER (set_loggers_level level)) by frames_tac.
    intros h Hh. rewrite Hs in Hh. destruct (Ha h Hh) as (hd & Hhd & Hf).
    pose proof (grows_handler _ _ Hg h (h_class hd, h_formatter hd)) as Hk.
    rewrite Hhd in Hk. specialize (Hk eq_refl).
    destruct (handler_heap (state_of (set_loggers_level level st)) !! h) as [hd'|];
      [|discriminate].
    exists hd'. split; [reflexivity|]. simpl in Hk. injection Hk as Hc _.
    unfold is_file_handler in *. rewrite Hc. exact Hf.
  - rewrite set_loggers_level_default. discriminate.
Qed.

Ltac sink_leaf :=
  lazymatch goal with
  | |- keeps _ (store_shared_file_handler _) => apply sink_invariant_store_shared
  | |- keeps _ (apply_default_level _) => apply sink_invariant_apply_default_level
  | |- keeps _ (set_loggers_level _) => apply sink_invariant_set_loggers_level
  | |- preserves _ ?st ?st => reflexivity
  | |- preserves _ _ (set_handler_heap (handler_heap _ ++ [_]) _) =>
      apply sink_invariant_new_console; reflexivity
  | |- preserves _ _ (Logger_handle _ _ _) =>
      apply sink_invariant_ext;
      [ apply (Logger_handle_frame handler_heap); reflexivity
      | apply (Logger_handle_frame _SHARED_FILE_HANDLER); reflexivity
      | apply (Logger_handle_frame _DEFAULT_LEVEL); reflexivity ]
  | |- preserves _ _ _ => apply sink_invariant_ext; reflexivity
  end.

Ltac sink_prim :=
  let st := fresh "st" in
  intros st;
  repeat (progress unfold getLogger, new_handler, mkdir, open_append,
    FXColorLogger_emit, FXColorLogger_debug, FXColorLogger_info,
    FXColorLogger_warning, FXColorLogger_error, FXColorLogger_critical,
    FXColorLogger__log, Logger_emit || case_match);
  simpl; sink_leaf.

Ltac sink_step :=
  lazymatch goal with
  | |- keeps _ (store_shared_file_handler _) => sink_leaf
  | |- keeps _ (apply_default_level _) => sink_leaf
  | |- keeps _ (set_loggers_level _) => sink_leaf
  | |- keeps _ (bind _ _) => apply keeps_bind; [typeclasses eauto | | intros ?]
  | |- keeps _ (ret _) => apply keeps_ret; typeclasses eauto
  | |- keeps _ (get _) => apply keeps_get; typeclasses eauto
  | |- keeps _ (raise _) => apply keeps_raise; typeclasses eauto
  | |- keeps _ (modify _) => apply keeps_modify; intros ?; sink_leaf
  | |- keeps _ (for_each _ _) => apply keeps_for_each; [typeclasses eauto.. | intros ?]
  | |- keeps _ (match ?x with _ => _ end) => destruct x
  | |- keeps _ _ =>
      first [ progress unfold configure_logger, check_save_to_file,
                existing_FXColorLogger, build_logger, make_logger, wire_logger,
                attach_file_handler, finish_logger, set_log_directory, print,
                setLoggerClass, getLoggerClass, addHandler, Logger_setLevel,
                _check_log_directory, delete_old_logs, delete_if_old, clear_logs,
                timedelta, datetime_sub, emit
            | sink_prim ]
  end.

Ltac sink_tac := repeat sink_step.

Lemma sink_invariant_configure_logger e n ec es sf :
  keeps (preserves sink_invariant) (configure_logger e n ec es sf).
Proof. sink_tac. Qed.

Lemma sink_invariant_set_log_directory e d :
  keeps (preserves sink_invariant) (set_log_directory e d).
Proof. sink_tac. Qed.

Lemma sink_invariant_step e o st : sink_invariant st -> sink_invariant (step e o st).
Proof.
  destruct o as [d | n ec es sf | level | days | | lg level | op lg m c caller | n | files];
    simpl.
  - apply sink_invariant_set_log_directory.
  - apply sink_invariant_configure_logger.
  - apply sink_invariant_set_loggers_level.
  - apply (ltac:(sink_tac) : keeps (preserves sink_invariant) (delete_old_logs e days)).
  - apply (ltac:(sink_tac) : keeps (preserves sink_invariant) clear_logs).
  - apply sink_invariant_ext; reflexivity.
  - apply (ltac:(sink_tac) : keeps (preserves sink_invariant) (emit op lg m c caller e)).
  - apply (ltac:(sink_tac) : keeps (preserves sink_invariant) (getLogger n)).
  - apply sink_invariant_ext; reflexivity.
Qed.

Lemma sink_invariant_initial cs files : sink_invariant (initial_state cs files).
Proof.
  split.
  - intros h Hh. discriminate.
  - intros _ h hd Hh. simpl in Hh. destruct h; discriminate.
Qed.

Lemma sink_invariant_run ops st : sink_invariant st -> sink_invariant (run ops st).
Proof.
  revert st. induction ops as [|[e o] ops IH]; intros st H; [exact H|].
  rewrite run_cons. apply IH, sink_invariant_step, H.
Qed.

(** ** Setting the level of all loggers *)

Global Instance levels_kept_refl level : Reflexive (levels_kept level).
Proof. intros st. split; auto. Qed.

Global Instance levels_kept_trans level : Transitive (levels_kept level).
Proof.
  intros st1 st2 st3 [a1 b1 c1 d1 e1 f1] [a2 b2 c2 d2 e2 f2]. split; eauto.
  intros j. rewrite e2. apply e1.
Qed.

Lemma existing_logger_grows n id st st' :
  grows st st' -> existing_logger n st = Some id -> existing_logger n st' = Some id.
Proof.
  intros Hg. unfold existing_logger. destruct (is_root_name n); [auto|].
  destruct (loggerDict st !! n) as [[|id']|] eqn:E; try discriminate.
  intros H. injection H as ->. rewrite (grows_dict _ _ Hg _ _ E). reflexivity.
Qed.

Lemma levels_kept_getLogger level n st : levels_kept level st (state_of (getLogger n st)).
Proof.
  pose proof (grows_getLogger n st) as Hg.
  assert (Hh : frames handler_heap (getLogger n)) by frames_tac.
  assert (Hl : forall j lg, logger_heap st !! j = Some lg ->
                            logger_heap (state_of (getLogger n st)) !! j = Some lg).
  { intros j lg Hj. unfold getLogger. repeat case_match; simpl; try exact Hj;
      apply lookup_app_l_Some, Hj. }
  split.
  - intros j Hj. destruct (logger_heap st !! j) as [lg|] eqn:E; [|discriminate].
    rewrite (Hl _ _ E). exact Hj.
  - intros h. rewrite Hh. auto.
  - intros j [lg Hj]. rewrite (Hl _ _ Hj). eauto.
  - intros h. rewrite Hh. auto.
  - intros j. apply getLogger_handlers_of.
  - intros m id. apply existing_logger_grows, Hg.
Qed.

Lemma levels_kept_Logger_setLevel level j st :
  levels_kept level st (update_logger j (with_level level) st).
Proof.
  split; simpl; auto.
  - intros i Hi. destruct (decide (j = i)) as [->|Hne].
    + rewrite list_lookup_alter_eq. destruct (logger_heap st !! i); [reflexivity|discriminate].
    + rewrite list_lookup_alter_ne by exact Hne. exact Hi.
  - intros i [lg Hi]. destruct (decide (j = i)) as [->|Hne].
    + rewrite list_lookup_alter_eq, Hi. simpl. eauto.
    + rewrite list_lookup_alter_ne by exact Hne. eauto.
  - intros i. apply handlers_of_update_logger_other. reflexivity.
Qed.

Lemma levels_kept_Handler_setLevel level h st :
  levels_kept level st (update_handler h (with_h_level level) st).
Proof.
  split; simpl; auto.
  - intros i Hi. destruct (decide (h = i)) as [->|Hne].
    + rewrite list_lookup_alter_eq. destruct (handler_heap st !! i); [reflexivity|discriminate].
    + rewrite list_lookup_alter_ne by exact Hne. exact Hi.
  - intros i [hd Hi]. destruct (decide (h = i)) as [->|Hne].
    + rewrite list_lookup_alter_eq, Hi. simpl. eauto.
    + rewrite list_lookup_alter_ne by exact Hne. eauto.
Qed.

Lemma levels_kept_set_level_of level n : keeps (levels_kept level) (set_level_of level n).
Proof.
  unfold set_level_of, Logger_setLevel, Handler_setLevel.
  apply keeps_bind; [typeclasses eauto | intros st; apply levels_kept_getLogger|].
  intros id. apply keeps_bind; [typeclasses eauto | |].
  - apply keeps_modify. intros st. apply levels_kept_Logger_setLevel.
  - intros _. apply keeps_bind; [typeclasses eauto | apply keeps_get; typeclasses eauto|].
    intros hs. apply keeps_for_each; [typeclasses eauto..|].
    intros h. apply keeps_modify. intros st. apply levels_kept_Handler_setLevel.
Qed.

(** The level of the handlers after [setLevel] on each of [hs]. *)
Lemma set_handler_levels_lookup level hs heap h :
  h_level <$> set_handler_levels level hs heap !! h
  = if bool_decide (h ∈ hs) then (fun _ => level) <$> heap !! h else h_level <$> heap !! h.
Proof.
  revert heap. induction hs as [|x hs IH]; intros heap; [reflexivity|].
  unfold set_handler_levels in *. simpl. rewrite IH.
  destruct (decide (x = h)) as [->|Hne].
  - rewrite list_lookup_alter_eq.
    rewrite (bool_decide_eq_true_2 (h ∈ h :: hs)) by (apply elem_of_cons; auto).
    destruct (heap !! h); simpl; case_bool_decide; reflexivity.
  - rewrite list_lookup_alter_ne by exact Hne.
    apply (f_equal (fun b : bool => if b then (fun _ => level) <$> heap !! h else h_level <$> heap !! h)).
    apply bool_decide_ext. rewrite elem_of_cons. split; [auto | intros [->|]; [congruence|auto]].
Qed.

(** [set_level_of] sets the level of the logger a name designates, and of
    each of its handlers. *)
Lemma set_level_of_eq level n id st :
  existing_logger n st = Some id ->
  set_level_of level n st
  = Ok tt (set_handler_heap
             (set_handler_levels level (handlers_of id st) (handler_heap st))
             (update_logger id (with_level level) st)).
Proof.
  intros Hex. unfold set_level_of, Logger_setLevel.
  pose proof (getLogger_existing _ _ _ Hex) as Hg. repeat mstep.
  rewrite set_handler_levels_eq. simpl.
  rewrite handlers_of_update_logger_other by reflexivity. reflexivity.
Qed.

Lemma for_each_app {A} (l1 l2 : list A) (body : A -> M unit) st :
  for_each (l1 ++ l2) body st = bind (for_each l1 body) (fun _ => for_each l2 body) st.
Proof.
  revert st. induction l1 as [|x l1 IH]; intros st; simpl; [reflexivity|].
  rewrite bind_assoc. destruct (body x st) as [[] st1|err st1] eqn:E.
  - rewrite !(bind_ok _ _ _ _ _ E). apply IH.
  - rewrite !(bind_raise _ _ _ _ _ E). reflexivity.
Qed.

Lemma set_level_of_ok level n st : exists st', set_level_of level n st = Ok tt st'.
Proof.
  unfold set_level_of, Logger_setLevel.
  destruct (getLogger_never_raises n st) as (id & st1 & Hg). repeat mstep.
  rewrite set_handler_levels_eq. eauto.
Qed.

Lemma for_each_ok {A} (l : list A) (body : A -> M unit) st :
  (forall x st, exists st', body x st = Ok tt st') ->
  exists st', for_each l body st = Ok tt st'.
Proof.
  intros Hok. revert st. induction l as [|x l IH]; intros st; simpl; [eauto|].
  destruct (Hok x st) as [st1 H1]. mstep. apply IH.
Qed.

(** An element of the list is handled at some point of the loop; what it
    establishes lasts when every later step keeps it. *)
Lemma for_each_establishes {A} (R : State -> State -> Prop) `{!Reflexive R, !Transitive R}
    (P Q : State -> Prop) (l : list A) (body : A -> M unit) (x : A) st :
  (forall y, keeps R (body y)) ->
  (forall y st, exists st', body y st = Ok tt st') ->
  (forall st st', R st st' -> P st -> P st') ->
  (forall st st', R st st' -> Q st -> Q st') ->
  (forall st, P st -> Q (state_of (body x st))) ->
  x ∈ l -> P st -> Q (state_of (for_each l body st)).
Proof.
  intros Hk Hok HP HQ Hx Hin HPst.
  apply list_elem_of_split in Hin as (l1 & l2 & ->).
  rewrite for_each_app.
  destruct (for_each_ok l1 body st Hok) as [st1 H1]. mstep.
  pose proof (keeps_for_each R l1 body Hk st) as Hr1. rewrite H1 in Hr1. simpl in Hr1.
  simpl. destruct (Hok x st1) as [st2 H2]. mstep.
  pose proof (Hx st1 (HP _ _ Hr1 HPst)) as HQ2. rewrite H2 in HQ2. simpl in HQ2.
  pose proof (keeps_for_each R l2 body Hk st2) as Hr2.
  apply (HQ _ _ Hr2 HQ2).
Qed.

Lemma levels_kept_set_loggers_level level st :
  levels_kept level st (state_of (set_loggers_level level st)).
Proof.
  assert (H : keeps (levels_kept level) (set_loggers_level level)).
  { unfold set_loggers_level.
    apply keeps_bind; [typeclasses eauto | |intros _].
    { apply keeps_modify. intros s. split; auto. }
    apply keeps_bind; [typeclasses eauto | apply keeps_get; typeclasses eauto | intros c].
    apply keeps_bind; [typeclasses eauto | |intros _].
    { apply keeps_for_each; [typeclasses eauto.. | apply levels_kept_set_level_of]. }
    apply keeps_bind; [typeclasses eauto | apply keeps_get; typeclasses eauto | intros t].
    apply keeps_for_each; [typeclasses eauto..|]. intros m.
    apply keeps_bind; [typeclasses eauto | apply keeps_get; typeclasses eauto | intros c'].
    destruct (bool_decide (m ∈ c')); [apply keeps_ret; typeclasses eauto|].
    apply levels_kept_set_level_of. }
  apply H.
Qed.

(** [set_loggers_level] on a configured logger: the logger and each of its
    handlers end up at the level. *)
Lemma set_loggers_level_effect level n id st :
  n ∈ _CONFIGURED_LOGGERS st ->
  existing_logger n st = Some id ->
  is_Some (logger_heap st !! id) ->
  let st' := state_of (set_loggers_level level st) in
  lg_level <$> logger_heap st' !! id = Some level /\
  (forall h, h ∈ handlers_of id st -> is_Some (handler_heap st !! h) ->
             h_level <$> handler_heap st' !! h = Some level).
Proof.
  intros Hn Hex Hlg st'. subst st'. unfold set_loggers_level. mstep. mstep.
  set (st0 := set__DEFAULT_LEVEL (Some level) st).
  set (P := fun s : State =>
    existing_logger n s = Some id /\ is_Some (logger_heap s !! id) /\
    handlers_of id s = handlers_of id st /\
    forall h, is_Some (handler_heap st !! h) -> is_Some (handler_heap s !! h)).
  set (Q := fun s : State =>
    lg_level <$> logger_heap s !! id = Some level /\
    forall h, h ∈ handlers_of id st -> is_Some (handler_heap st !! h) ->
              h_level <$> handler_heap s !! h = Some level).
  assert (HP : forall s s', levels_kept level s s' -> P s -> P s').
  { intros s s' Hk (H1 & H2 & H3 & H4).
    split; [apply (kept_existing _ _ _ Hk), H1|].
    split; [apply (kept_loggers _ _ _ Hk), H2|].
    split; [rewrite (kept_handlers_of _ _ _ Hk); exact H3|].
    intros h Hh. apply (kept_handlers _ _ _ Hk), H4, Hh. }
  assert (HQ : forall s s', levels_kept level s s' -> Q s -> Q s').
  { intros s s' Hk [H1 H2]. split; [apply (kept_logger_level _ _ _ Hk), H1|].
    intros h Hh Hv. apply (kept_handler_level _ _ _ Hk), H2; assumption. }
  assert (Hest : forall s, P s -> Q (state_of (set_level_of level n s))).
  { intros s (H1 & [lg H2] & H3 & H4). rewrite (set_level_of_eq _ _ _ _ H1). simpl. split.
    - change (lg_level <$> alter (with_level level) id (logger_heap s) !! id = Some level).
      rewrite list_lookup_alter_eq, H2. reflexivity.
    - intros h Hh Hv.
      change (h_level <$> set_handler_levels level (handlers_of id s) (handler_heap s) !! h
              = Some level). rewrite set_handler_levels_lookup, H3.
      rewrite bool_decide_eq_true_2 by exact Hh.
      destruct (H4 h Hv) as [hd ->]. reflexivity. }
  assert (HP0 : P st0).
  { split; [exact Hex|]. split; [exact Hlg|]. split; [reflexivity|]. auto. }
  pose proof (for_each_establishes (levels_kept level) P Q
                (elements (_CONFIGURED_LOGGERS st0)) (set_level_of level) n st0
                (levels_kept_set_level_of level) (set_level_of_ok level)
                HP HQ Hest (proj2 (elem_of_elements _ _) Hn) HP0) as HQ1.
  destruct (for_each_ok (elements (_CONFIGURED_LOGGERS st0)) (set_level_of level) st0
              (set_level_of_ok level)) as [st1 H1].
  rewrite H1 in HQ1. simpl in HQ1. mstep. mstep.
  refine (HQ st1 _ _ HQ1).
  apply (keeps_for_each (levels_kept level)). intros m.
  apply keeps_bind; [typeclasses eauto | apply keeps_get; typeclasses eauto | intros c'].
  destruct (bool_decide (m ∈ c')); [apply keeps_ret; typeclasses eauto|].
  apply levels_kept_set_level_of.
Qed.

(** Closed facts about concrete runs are settled by evaluation. *)
Ltac evaluate :=
  cbv zeta;
  repeat match goal with |- _ /\ _ => split end;
  vm_compute; reflexivity.

(** C6, as stated, fails: after [set_loggers_level(WARNING)] the shared file
    sink is at [WARNING].  A logger then set back to [DEBUG] builds and
    dispatches a debug record, and the file sink drops it: the filtering
    happens at the sink. *)
Lemma C6_counterexample :
  let st := leveled_state in
  let st' := run [(example_env, call_setLevel 1 DEBUG);
                  (example_env, call_emit op_debug 1 "detail" None example_caller)] st in
  _SHARED_FILE_HANDLER st = Some 0%nat /\
  h_level <$> handler_heap st !! 0%nat = Some WARNING /\
  handlers_of 1 st = [1%nat; 0%nat] /\
  length (handled st') = S (length (handled st)) /\
  file_output st' = file_output st.
Proof. evaluate. Qed.

(** C6 (amended): in every state a process reaches, the shared file sink,
    once it exists, is a file handler of the heap, and it is at [DEBUG] as
    long as no default level has been set, that is, until the first
    [set_loggers_level]; [set_loggers_level(level)] puts it at [level] when
    it is attached to a configured logger, like every other handler of that
    logger. *)
Theorem C6_shared_sink_level :
  forall (cs : bool) (files : gmap Path Node) (ops : list (Env * Op)) (h : nat),
    let st := run ops (initial_state cs files) in
    _SHARED_FILE_HANDLER st = Some h ->
    exists hd,
      handler_heap st !! h = Some hd /\
      is_file_handler hd = true /\
      (_DEFAULT_LEVEL st = None -> h_level hd = DEBUG) /\
      (forall (level : Z) (n : string) (id : nat),
         n ∈ _CONFIGURED_LOGGERS st ->
         existing_logger n st = Some id ->
         is_Some (logger_heap st !! id) ->
         h ∈ handlers_of id st ->
         h_level <$> handler_heap (state_of (set_loggers_level level st)) !! h
         = Some level).
Proof.
  intros cs files ops h st Hsh.
  destruct (sink_invariant_run ops _ (sink_invariant_initial cs files)) as [Ha Hb].
  fold st in Ha, Hb. destruct (Ha h Hsh) as (hd & Hhd & Hf).
  exists hd. split; [exact Hhd|]. split; [exact Hf|]. split.
  - intros Hd. apply (Hb Hd h hd Hhd Hf).
  - intros level n id Hn Hex Hlg Hin.
    destruct (set_loggers_level_effect level n id st Hn Hex Hlg) as [_ Hh].
    apply Hh; [exact Hin | rewrite Hhd; eauto].
Qed.

Lemma C6_shared_sink_level_witness :
  let st := run [(example_env, call_set_log_directory ["logs"%string]);
                 (example_env, call_configure_logger "app" true true true)]
              (initial_state false example_files) in
  _SHARED_FILE_HANDLER st = Some 0%nat /\
  exists hd,
    handler_heap st !! 0%nat = Some hd /\
    is_file_handler hd = true /\
    (_DEFAULT_LEVEL st = None -> h_level hd = DEBUG) /\
    (forall (level : Z) (n : string) (id : nat),
       n ∈ _CONFIGURED_LOGGERS st ->
       existing_logger n st = Some id ->
       is_Some (logger_heap st !! id) ->
       0%nat ∈ handlers_of id st ->
       h_level <$> handler_heap (state_of (set_loggers_level level st)) !! 0%nat
       = Some level).
Proof.
  cbv zeta.
  assert (Hsh : _SHARED_FILE_HANDLER
                  (run [(example_env, call_set_log_directory ["logs"%string]);
                        (example_env, call_configure_logger "app" true true true)]
                     (initial_state false example_files)) = Some 0%nat)
    by (vm_compute; reflexivity).
  split; [exact Hsh|].
  exact (C6_shared_sink_level false example_files
           [(example_env, call_set_log_directory ["logs"%string]);
            (example_env, call_configure_logger "app" true true true)] 0%nat Hsh).
Defined.

(** ** The threshold of a logger *)

Lemma FXColorLogger_emit_eq op self m c caller e st :
  FXColorLogger_emit op self m c caller e st
  = if isEnabledFor self (op_level op) st
    then Ok tt (Logger_handle self (built_record self (op_level op) m c caller e st) st)
    else Ok tt st.
Proof.
  destruct op; simpl;
    unfold FXColorLogger_debug, FXColorLogger_info, FXColorLogger_warning,
      FXColorLogger_error, FXColorLogger_critical, FXColorLogger__log;
    destruct (isEnabledFor self _ st); reflexivity.
Qed.

Lemma handled_Logger_handle self record st :
  handled (Logger_handle self record st) = handled st ++ [record].
Proof.
  unfold Logger_handle. rewrite (callHandlers_frame handled); reflexivity.
Qed.

(** A logger whose own level is set has that level as its threshold. *)
Lemma getEffectiveLevel_own self st level :
  lg_level <$> logger_heap st !! self = Some level -> level <> NOTSET ->
  getEffectiveLevel self st = level.
Proof.
  intros H Hne. unfold getEffectiveLevel. simpl.
  destruct (logger_heap st !! self) as [lg|]; [|discriminate].
  injection H as H. rewrite H. destruct (level =? 0) eqn:E; [|reflexivity].
  apply Z.eqb_eq in E. contradiction.
Qed.

Lemma past_Logger_setLevel self level st :
  past (state_of (Logger_setLevel self level st)) = past st.
Proof. reflexivity. Qed.

Lemma past_set_loggers_level level st :
  past (state_of (set_loggers_level level st)) = past st.
Proof.
  assert (H : frames past (set_loggers_level level)) by frames_tac. apply H.
Qed.

(** C3: the threshold [T] of a logger is its effective level (its own level
    when one is set).  A leveled call of level [L] builds and dispatches a
    record if and only if [T <= L]; below the threshold the call changes
    nothing at all.  [setLevel] and [set_loggers_level] (the latter for a
    logger made by [configure_logger]) make the given level the threshold
    for the calls that follow, and leave everything put out before as it
    is. *)
Theorem C3_threshold_decides :
  forall (op : EmitOp) (self : nat) (m : string) (c : option string)
         (caller : Caller) (e : Env) (st : State) (lg : Logger),
    logger_heap st !! self = Some lg ->
    let T := getEffectiveLevel self st in
    let L := op_level op in
    let r := FXColorLogger_emit op self m c caller e st in
    ((exists record, handled (state_of r) = handled st ++ [record]) <-> T <= L) /\
    (L < T -> r = Ok tt st) /\
    (T <= L ->
     r = Ok tt (Logger_handle self (built_record self L m c caller e st) st) /\
     levelno (built_record self L m c caller e st) = L /\
     handled (state_of r) = handled st ++ [built_record self L m c caller e st]) /\
    (lg_level lg <> NOTSET -> T = lg_level lg) /\
    (forall T', T' <> NOTSET ->
       let st' := state_of (Logger_setLevel self T' st) in
       getEffectiveLevel self st' = T' /\ past st' = past st) /\
    (forall T' n, T' <> NOTSET ->
       n ∈ _CONFIGURED_LOGGERS st -> existing_logger n st = Some self ->
       let st' := state_of (set_loggers_level T' st) in
       getEffectiveLevel self st' = T' /\ past st' = past st).
Proof.
  intros op self m c caller e st lg Hlg T L r. subst r.
  rewrite FXColorLogger_emit_eq. unfold isEnabledFor. fold T L.
  assert (Hlev : levelno (built_record self L m c caller e st) = L).
  { unfold built_record. destruct c as [x|]; [destruct (truthy x)|]; reflexivity. }
  split; [|split; [|split; [|split; [|split]]]].
  - destruct (T <=? L) eqn:E.
    + apply Z.leb_le in E. split; [intros _; exact E|]. intros _. simpl.
      eexists. apply handled_Logger_handle.
    + apply Z.leb_gt in E. split; [|lia]. simpl. intros [record H].
      apply (f_equal length) in H. rewrite length_app in H. simpl in H. lia.
  - intros Hlt. apply Z.leb_gt in Hlt. rewrite Hlt. reflexivity.
  - intros Hle. apply Z.leb_le in Hle. rewrite Hle. simpl.
    split; [reflexivity|]. split; [exact Hlev|]. apply handled_Logger_handle.
  - intros Hne. apply getEffectiveLevel_own; [rewrite Hlg; reflexivity | exact Hne].
  - intros T' Hne. cbv zeta. split; [|apply past_Logger_setLevel].
    apply getEffectiveLevel_own; [|exact Hne]. simpl.
    rewrite list_lookup_alter_eq, Hlg. reflexivity.
  - intros T' n Hne Hn Hex. cbv zeta. split; [|apply past_set_loggers_level].
    apply getEffectiveLevel_own; [|exact Hne].
    apply (set_loggers_level_effect T' n self st Hn Hex). rewrite Hlg. eauto.
Qed.

Lemma C3_threshold_decides_witness :
  logger_heap info_state !! 1%nat
  = Some {| lg_name := "app"; lg_class := FXColorLogger_class; lg_level := INFO;
            lg_handlers := [0%nat]; lg_propagate := false |} /\
  FXColorLogger_emit op_debug 1 "detail" None example_caller example_env info_state
  = Ok tt info_state /\
  exists record,
    handled (state_of (FXColorLogger_emit op_warning 1 "careful" None example_caller
                         example_env info_state))
    = handled info_state ++ [record].
Proof.
  assert (Hlg : logger_heap info_state !! 1%nat
                = Some {| lg_name := "app"; lg_class := FXColorLogger_class;
                          lg_level := INFO; lg_handlers := [0%nat];
                          lg_propagate := false |})
    by (vm_compute; reflexivity).
  destruct (C3_threshold_decides op_debug 1 "detail" None example_caller example_env
              info_state _ Hlg) as (_ & Hnoop & _).
  destruct (C3_threshold_decides op_warning 1 "careful" None example_caller example_env
              info_state _ Hlg) as (Hiff & _).
  split; [exact Hlg|]. split.
  - apply Hnoop. vm_compute. reflexivity.
  - apply Hiff. vm_compute. discriminate.
Defined.

(** ** Handler levels under [configure_logger] *)

Global Instance level_policy_refl : Reflexive level_policy.
Proof. intros st. split; [reflexivity|]. intros h hd H. exists hd. auto. Qed.

Global Instance level_policy_trans : Transitive level_policy.
Proof.
  intros st1 st2 st3 [d1 l1] [d2 l2]. split; [congruence|].
  intros h hd H. destruct (l1 h hd H) as (hd2 & H2 & Hc2 & Hl2).
  destruct (l2 h hd2 H2) as (hd3 & H3 & Hc3 & Hl3).
  exists hd3. split; [exact H3|]. split; [congruence|].
  rewrite d1 in Hl3. destruct Hl3 as [Hl3|Hl3]; [|right; exact Hl3].
  rewrite Hl3. exact Hl2.
Qed.











(** ** One line per console handler *)








(** ** Configuring a plain logger again and again *)










(** ** Clearing the log directory *)

Lemma clear_loop l st :
  exists st',
    for_each l (fun log_file =>
      do regular <- get (is_file log_file);
      if regular then modify (unlink log_file) else ret tt) st = Ok tt st' /\
    st' = set_fs (fs st') st /\
    forall p, fs st' !! p =
              if bool_decide (p ∈ l) && regular (fs st) p then None
              else fs st !! p.
Proof.
  revert st. induction l as [|x l IH]; intros st.
  - exists st. split; [reflexivity|]. split; [symmetry; apply set_fs_same|].
    intros p. reflexivity.
  - cbn [for_each]. unfold bind at 1. unfold bind at 1. unfold get at 1.
    set (st1 := if is_file x st then unlink x st else st).
    assert (Hbody : (if is_file x st then modify (unlink x) else ret tt) st = Ok tt st1).
    { unfold st1. destruct (is_file x st); reflexivity. }
    rewrite Hbody.
    destruct (IH st1) as (st' & Hrun & Hframe & Hfs).
    exists st'. split; [exact Hrun|]. split.
    { rewrite Hframe. unfold st1. destruct (is_file x st); reflexivity. }
    intros p. rewrite Hfs. unfold st1, is_file, regular.
    destruct (decide (p = x)) as [->|Hne].
    + rewrite (bool_decide_eq_true_2 (x ∈ x :: l)) by (apply elem_of_cons; left; reflexivity).
      destruct (fs st !! x) as [[|t]|] eqn:E; simpl; rewrite ?E, ?andb_false_r; try reflexivity.
      rewrite lookup_delete_eq, andb_false_r. reflexivity.
    + assert (Hl : bool_decide (p ∈ x :: l) = bool_decide (p ∈ l)).
      { apply bool_decide_ext. rewrite elem_of_cons. tauto. }
      rewrite Hl.
      assert (Heq : fs (if match fs st !! x with
                             | Some (File _) => true
                             | _ => false
                             end then unlink x st else st) !! p = fs st !! p).
      { destruct (fs st !! x) as [[|t]|]; try reflexivity.
        simpl. apply lookup_delete_ne. congruence. }
      rewrite Heq. reflexivity.
Qed.

Lemma lookup_cleared d f p :
  cleared d f !! p = if is_child d p && regular f p then None else f !! p.
Proof.
  unfold cleared. destruct (is_child d p && regular f p) eqn:E.
  - apply map_lookup_filter_None. right. intros x Hx. simpl. rewrite E. discriminate.
  - destruct (f !! p) as [x|] eqn:Hp.
    + apply map_lookup_filter_Some. split; [exact Hp|]. simpl. rewrite E. reflexivity.
    + apply map_lookup_filter_None. left. exact Hp.
Qed.

Lemma clear_logs_effect d st :
  _LOG_DIRECTORY st = Some d -> is_dir d st = true ->
  clear_logs st = Ok tt (set_fs (cleared d (fs st)) st).
Proof.
  intros H Hd. unfold clear_logs.
  rewrite (bind_ok _ _ _ _ _ (_check_log_directory_ok d st H Hd)).
  rewrite (bind_ok _ _ st _ st (eq_refl : get _LOG_DIRECTORY st = Ok _ st)).
  rewrite H. simpl default.
  rewrite (bind_ok _ _ st _ st (eq_refl : get (iterdir d) st = Ok _ st)).
  destruct (clear_loop (iterdir d st) st) as (st' & Hrun & Hframe & Hfs).
  rewrite Hrun. f_equal. rewrite Hframe. f_equal.
  apply map_eq. intros p. rewrite Hfs, lookup_cleared.
  destruct (regular (fs st) p) eqn:Hr; [|rewrite !andb_false_r; reflexivity].
  rewrite !andb_true_r.
  destruct (is_child d p) eqn:Hc.
  - rewrite bool_decide_eq_true_2; [reflexivity|].
    apply elem_of_iterdir. split; [exact Hc|].
    unfold regular in Hr. destruct (fs st !! p); [eauto | discriminate].
  - rewrite bool_decide_eq_false_2; [reflexivity|].
    intros Hin. apply elem_of_iterdir in Hin as [Hc' _]. congruence.
Qed.

Lemma is_child_self d : is_child d d = false.
Proof.
  unfold is_child. apply bool_decide_eq_false_2. intros [Hne Ht].
  apply (f_equal length) in Ht. rewrite length_take in Ht.
  destruct d; [congruence|]. simpl in Ht. lia.
Qed.

Lemma regular_cleared d f p :
  regular (cleared d f) p = negb (is_child d p) && regular f p.
Proof.
  unfold regular at 1. rewrite lookup_cleared.
  destruct (is_child d p); simpl; [|reflexivity].
  unfold regular. destruct (f !! p) as [[|t]|]; reflexivity.
Qed.

Lemma cleared_idem d f : cleared d (cleared d f) = cleared d f.
Proof.
  apply map_eq. intros p. rewrite lookup_cleared, regular_cleared.
  destruct (is_child d p); reflexivity.
Qed.

(** X1: [clear_logs()] fails with a [ValueError], and changes nothing, when
    no log directory is set or the set directory is not there.  Otherwise it
    returns after deleting exactly the regular files directly under the log
    directory, whatever their age: directories, and files in subdirectories
    or elsewhere, stay, and so does the rest of the state.  The log directory
    is still usable afterwards, and a second call changes nothing more. *)
Theorem X1_clear_logs :
  forall (st : State),
    (_LOG_DIRECTORY st = None ->
     clear_logs st
     = Raise (ValueError "Log directory is not set. Call `set_log_directory` first.") st) /\
    (forall d, _LOG_DIRECTORY st = Some d -> is_dir d st = false ->
     clear_logs st
     = Raise (ValueError ("Log directory does not exist: '" +:+ path_str d +:+ "'.")) st) /\
    (forall d, _LOG_DIRECTORY st = Some d -> is_dir d st = true ->
     exists st',
       clear_logs st = Ok tt st' /\
       st' = set_fs (fs st') st /\
       (forall p, fs st' !! p = if is_child d p && is_file p st then None else fs st !! p) /\
       (forall p, is_child d p = true -> is_file p st' = false) /\
       is_dir d st' = true /\
       clear_logs st' = Ok tt st').
Proof.
  intros st. split; [|split].
  - intros H. unfold clear_logs, bind.
    rewrite _check_log_directory_unset by exact H. reflexivity.
  - intros d H Hd. unfold clear_logs, bind.
    rewrite (_check_log_directory_missing d) by assumption. reflexivity.
  - intros d H Hd. exists (set_fs (cleared d (fs st)) st).
    assert (Hdir : is_dir d (set_fs (cleared d (fs st)) st) = true).
    { unfold is_dir in *. simpl. rewrite lookup_cleared, is_child_self. exact Hd. }
    split; [apply clear_logs_effect; assumption|].
    split; [reflexivity|]. split; [intros p; apply lookup_cleared|].
    split.
    { intros p Hc. change (regular (cleared d (fs st)) p = false).
      rewrite regular_cleared, Hc. reflexivity. }
    split; [exact Hdir|].
    rewrite (clear_logs_effect d) by assumption.
    simpl. rewrite cleared_idem. reflexivity.
Qed.

Lemma X1_clear_logs_witness :
  exists st',
    clear_logs example_logs_state = Ok tt st' /\
    fs st' !! ["logs"; "old.log"]%string = None /\
    fs st' !! ["logs"; "new.log"]%string = None /\
    fs st' !! ["logs"; "host"]%string = Some Dir /\
    fs st' !! ["logs"; "host"; "deep.log"]%string = Some (File 5).
Proof.
  destruct (X1_clear_logs example_logs_state) as (_ & _ & H).
  destruct (H ["logs"%string] eq_refl eq_refl) as (st' & Hrun & _ & Hfs & _).
  exists st'. split; [exact Hrun|].
  rewrite !Hfs. repeat split; vm_compute; reflexivity.
Defined.

Lemma lookup_aged_out d cutoff f p :
  aged_out d cutoff f !! p = if is_child d p && old_file cutoff f p then None else f !! p.
Proof.
  unfold aged_out. destruct (is_child d p && old_file cutoff f p) eqn:E.
  - apply map_lookup_filter_None. right. intros x Hx. simpl. rewrite E. discriminate.
  - destruct (f !! p) as [x|] eqn:Hp.
    + apply map_lookup_filter_Some. split; [exact Hp|]. simpl. rewrite E. reflexivity.
    + apply map_lookup_filter_None. left. exact Hp.
Qed.

Lemma delete_old_logs_effect e days d st :
  _LOG_DIRECTORY st = Some d -> is_dir d st = true -> representable e days ->
  delete_old_logs e days st
  = Ok tt (set_fs (aged_out d (cutoff_date e days) (fs st)) st).
Proof.
  intros H Hd [Hdays Hcut]. unfold cutoff_date in *. unfold delete_old_logs.
  rewrite (bind_ok _ _ _ _ _ (_check_log_directory_ok d st H Hd)).
  rewrite (bind_ok _ _ _ _ _ (timedelta_ok days st Hdays)).
  rewrite (bind_ok _ _ _ _ _ (datetime_sub_ok _ _ st Hcut)).
  rewrite (bind_ok _ _ st _ st (eq_refl : get _LOG_DIRECTORY st = Ok _ st)).
  rewrite H. simpl default.
  rewrite (bind_ok _ _ st _ st (eq_refl : get (iterdir d) st = Ok _ st)).
  destruct (delete_loop (now e - days * microseconds_per_day) (iterdir d st) st)
    as (st' & Hrun & Hframe & Hfs).
  rewrite Hrun. f_equal. rewrite Hframe. f_equal.
  apply map_eq. intros p. rewrite Hfs, lookup_aged_out.
  destruct (old_file (now e - days * microseconds_per_day) (fs st) p) eqn:Hold;
    [|rewrite !andb_false_r; reflexivity].
  rewrite !andb_true_r.
  destruct (is_child d p) eqn:Hc.
  - rewrite bool_decide_eq_true_2; [reflexivity|].
    apply elem_of_iterdir. split; [exact Hc|].
    unfold old_file in Hold. destruct (fs st !! p); [eauto | discriminate].
  - rewrite bool_decide_eq_false_2; [reflexivity|].
    intros Hin. apply elem_of_iterdir in Hin as [Hc' _]. congruence.
Qed.

Lemma old_file_aged_out d c1 c2 f p :
  old_file c1 (aged_out d c2 f) p
  = negb (is_child d p && old_file c2 f p) && old_file c1 f p.
Proof.
  unfold old_file at 1. rewrite lookup_aged_out.
  destruct (is_child d p && old_file c2 f p); reflexivity.
Qed.

Lemma old_file_max c1 c2 f p :
  old_file (Z.max c1 c2) f p = old_file c1 f p || old_file c2 f p.
Proof.
  unfold old_file. destruct (f !! p) as [[|t]|]; try reflexivity.
  destruct (t <? c1) eqn:E1, (t <? c2) eqn:E2; simpl;
    rewrite ?Z.ltb_lt, ?Z.ltb_ge in *; try (apply Z.ltb_lt; lia); apply Z.ltb_ge; lia.
Qed.

Lemma old_file_regular c f p : old_file c f p = true -> regular f p = true.
Proof. unfold old_file, regular. destruct (f !! p) as [[|t]|]; congruence. Qed.

Lemma aged_out_aged_out d c1 c2 f :
  aged_out d c1 (aged_out d c2 f) = aged_out d (Z.max c1 c2) f.
Proof.
  apply map_eq. intros p.
  rewrite !lookup_aged_out, old_file_aged_out, old_file_max.
  destruct (is_child d p), (old_file c2 f p), (old_file c1 f p); reflexivity.
Qed.

Lemma cleared_aged_out d c f : cleared d (aged_out d c f) = cleared d f.
Proof.
  apply map_eq. intros p. rewrite !lookup_cleared, lookup_aged_out.
  unfold regular at 1. rewrite lookup_aged_out.
  destruct (is_child d p) eqn:Hc; simpl; [|reflexivity].
  destruct (old_file c f p) eqn:Ho.
  - rewrite (old_file_regular _ _ _ Ho). reflexivity.
  - reflexivity.
Qed.

Lemma aged_out_cleared d c f : aged_out d c (cleared d f) = cleared d f.
Proof.
  apply map_eq. intros p. rewrite lookup_aged_out, !lookup_cleared.
  destruct (is_child d p) eqn:Hc; simpl; [|reflexivity].
  destruct (old_file c (cleared d f) p) eqn:Ho; [|reflexivity].
  apply old_file_regular in Ho. rewrite regular_cleared, Hc in Ho. discriminate.
Qed.

Lemma is_dir_aged_out d c st :
  is_dir d st = true -> is_dir d (set_fs (aged_out d c (fs st)) st) = true.
Proof.
  unfold is_dir. simpl. rewrite lookup_aged_out, is_child_self. auto.
Qed.

Lemma is_dir_cleared d st :
  is_dir d st = true -> is_dir d (set_fs (cleared d (fs st)) st) = true.
Proof.
  unfold is_dir. simpl. rewrite lookup_cleared, is_child_self. auto.
Qed.

(** X2: how the two clean-up operations compose, with the log directory
    set and there and cutoff dates [datetime] can hold.  Two
    [delete_old_logs] in a row leave what a single one with the later of the
    two cutoff dates leaves; [clear_logs] after [delete_old_logs] leaves
    what [clear_logs] alone leaves; and [delete_old_logs] after [clear_logs]
    returns without changing anything. *)
Theorem X2_cleanup_composes :
  forall (e1 e2 : Env) (days1 days2 : Z) (d : Path) (st : State),
    _LOG_DIRECTORY st = Some d -> is_dir d st = true ->
    representable e1 days1 -> representable e2 days2 ->
    let aged := state_of (delete_old_logs e1 days1 st) in
    let emptied := state_of (clear_logs st) in
    delete_old_logs e2 days2 aged
    = Ok tt (set_fs (aged_out d (Z.max (cutoff_date e1 days1) (cutoff_date e2 days2))
                       (fs st)) st) /\
    clear_logs aged = Ok tt emptied /\
    delete_old_logs e2 days2 emptied = Ok tt emptied.
Proof.
  intros e1 e2 days1 days2 d st H Hd H1 H2. cbv zeta.
  rewrite (delete_old_logs_effect e1 days1 d st H Hd H1).
  rewrite (clear_logs_effect d st H Hd). simpl state_of.
  split; [|split].
  - rewrite (delete_old_logs_effect e2 days2 d);
      [|exact H|apply is_dir_aged_out; exact Hd|exact H2].
    simpl. rewrite aged_out_aged_out, Z.max_comm. reflexivity.
  - rewrite (clear_logs_effect d); [|exact H|apply is_dir_aged_out; exact Hd].
    simpl. rewrite cleared_aged_out. reflexivity.
  - rewrite (delete_old_logs_effect e2 days2 d);
      [|exact H|apply is_dir_cleared; exact Hd|exact H2].
    simpl. rewrite aged_out_cleared. reflexivity.
Qed.

Lemma X2_cleanup_composes_witness :
  let aged := state_of (delete_old_logs example_env 1 example_logs_state) in
  let emptied := state_of (clear_logs example_logs_state) in
  delete_old_logs example_env 0 aged
  = Ok tt (set_fs (aged_out ["logs"%string]
                     (Z.max (cutoff_date example_env 1) (cutoff_date example_env 0))
                     (fs example_logs_state)) example_logs_state) /\
  clear_logs aged = Ok tt emptied /\
  delete_old_logs example_env 0 emptied = Ok tt emptied.
Proof.
  assert (H1 : representable example_env 1) by (split; [vm_compute; discriminate | split; vm_compute; discriminate]).
  assert (H0 : representable example_env 0) by (split; [vm_compute; discriminate | split; vm_compute; discriminate]).
  exact (X2_cleanup_composes example_env example_env 1 0 ["logs"%string]
           example_logs_state eq_refl eq_refl H1 H0).
Defined.

(** ** File names of any shape *)

(** Where [rfind] finds the character, the text splits there, and the
    character does not occur after it. *)
Lemma rfind_from_split i p c found :
  (rfind_from i p c found = found /\ contains_char c p = false) \/
  exists a b, p = a +:+ String c b /\ contains_char c b = false /\
              rfind_from i p c found = i + Z.of_nat (String.length a).
Proof.
  revert i found. induction p as [|x p IH]; intros i found.
  - left. split; reflexivity.
  - simpl rfind_from.
    destruct (IH (i + 1) (if Ascii.eqb x c then i else found)) as [[E Hc]|(a & b & -> & Hb & E)].
    + destruct (Ascii.eqb x c) eqn:Ex.
      * right. exists EmptyString, p. apply Ascii.eqb_eq in Ex. subst x.
        split; [reflexivity|]. split; [exact Hc|]. rewrite E. simpl. lia.
      * left. split; [exact E|]. simpl. rewrite Ex, Hc. reflexivity.
    + right. exists (String x a), b. split; [reflexivity|]. split; [exact Hb|].
      rewrite E. simpl String.length. lia.
Qed.

Lemma rfind_split p c :
  (rfind p c = -1 /\ contains_char c p = false) \/
  exists a b, p = a +:+ String c b /\ contains_char c b = false /\
              rfind p c = Z.of_nat (String.length a).
Proof.
  unfold rfind. destruct (rfind_from_split 0 p c (-1)) as [H|(a & b & H1 & H2 & H3)].
  - left. exact H.
  - right. exists a, b. split; [exact H1|]. split; [exact H2|]. rewrite H3. lia.
Qed.

Lemma rfind_after a b c :
  contains_char c b = true -> Z.of_nat (String.length a) <= rfind (a +:+ b) c.
Proof.
  intros H. unfold rfind. rewrite rfind_from_app.
  destruct (rfind_from_split (0 + Z.of_nat (String.length a)) b c (rfind_from 0 a c (-1)))
    as [[_ E]|(a' & b' & _ & _ & E)]; [congruence|].
  rewrite E. lia.
Qed.

Lemma slices_at a b :
  slice_to (a +:+ b) (Z.of_nat (String.length a)) = a /\
  slice_from (a +:+ b) (Z.of_nat (String.length a)) = b.
Proof.
  unfold slice_to, slice_from. rewrite Nat2Z.id. split; [apply substring_app_l|].
  rewrite substring_app_r, length_append.
  replace (String.length a + String.length b - String.length a)%nat
    with (String.length b) by lia.
  apply substring_all.
Qed.

(** What [genericpath._splitext] returns for any path: the two parts make up
    the path, and the extension is empty or is the last dot of the path with
    what follows it, in which there is no separator. *)
Lemma _splitext_parts p sep altsep :
  exists name ext,
    _splitext p sep altsep = (name, ext) /\ p = name +:+ ext /\
    (ext = EmptyString \/
     exists x, ext = String "."%char x /\ contains_char "."%char x = false /\
               contains_char sep x = false /\
               match altsep with
               | Some a => contains_char a x = false
               | None => True
               end) /\
    (contains_char "."%char p = false -> ext = EmptyString).
Proof.
  unfold _splitext.
  set (sepIndex := match altsep with
                   | Some a => Z.max (rfind p sep) (rfind p a)
                   | None => rfind p sep
                   end).
  assert (Hempty : exists name ext : string,
            (p, EmptyString) = (name, ext) /\ p = name +:+ ext /\
            (ext = EmptyString \/
             exists x, ext = String "."%char x /\ contains_char "."%char x = false /\
                       contains_char sep x = false /\
                       match altsep with
                       | Some a => contains_char a x = false
                       | None => True
                       end) /\
            (contains_char "."%char p = false -> ext = EmptyString)).
  { exists p, EmptyString. split; [reflexivity|]. split.
    - clear. induction p as [|x p IH]; [reflexivity|]. rewrite append_cons, <- IH. reflexivity.
    - split; [left; reflexivity | reflexivity]. }
  destruct (rfind_split p "."%char) as [[E _]|(a & b & Hp & Hb & E)].
  - rewrite E.
    assert (Hs : -1 <= sepIndex).
    { unfold sepIndex. pose proof (rfind_bound p sep). destruct altsep as [c|]; lia. }
    replace (sepIndex <? -1) with false by (symmetry; apply Z.ltb_ge; lia).
    exact Hempty.
  - rewrite E.
    destruct ((sepIndex <? Z.of_nat (String.length a))
              && has_non_dot (slice_from p (sepIndex + 1))
                   (Z.to_nat (Z.of_nat (String.length a) - (sepIndex + 1)))) eqn:Hcond;
      [|exact Hempty].
    apply andb_true_iff in Hcond as [Hlt _]. apply Z.ltb_lt in Hlt.
    destruct (slices_at a (String "."%char b)) as [Hto Hfrom].
    rewrite Hp, Hto, Hfrom.
    exists a, (String "."%char b). split; [reflexivity|]. split; [reflexivity|].
    assert (Hfree : forall c, rfind p c <= sepIndex -> contains_char c b = false).
    { intros c Hc. destruct (contains_char c b) eqn:Hcb; [|reflexivity].
      pose proof (rfind_after (a +:+ ".") b c Hcb) as Hge.
      rewrite append_assoc in Hge. change ("." +:+ b) with (String "."%char b) in Hge.
      rewrite <- Hp in Hge. rewrite length_append in Hge. simpl String.length in Hge. lia. }
    split.
    + right. exists b. split; [reflexivity|]. split; [exact Hb|]. split.
      * apply Hfree. unfold sepIndex. destruct altsep; lia.
      * destruct altsep as [c|]; [|exact I]. apply Hfree. unfold sepIndex. lia.
    + intros Hno. rewrite contains_char_app in Hno. simpl in Hno.
      rewrite orb_true_r in Hno. discriminate.
Qed.

(** X3: [rotation_filename] on any name.  The name is cut in two parts, of
    which the second is empty or is the last dot of the name with the
    characters after it (no dot and no directory separator among them), and
    the suffix goes between the two, after a dot: no character of the name is
    lost or reordered.  A name without any dot gets the suffix at its end. *)
Theorem X3_rotation_filename_any_name :
  forall (os : os_path) (suffix default_name : string),
    exists name ext,
      default_name = name +:+ ext /\
      rotation_filename os suffix default_name = name +:+ "." +:+ suffix +:+ ext /\
      (ext = EmptyString \/
       exists x, ext = String "."%char x /\ contains_char "."%char x = false /\
                 separator_free os x = true) /\
      (contains_char "."%char default_name = false ->
       rotation_filename os suffix default_name = default_name +:+ "." +:+ suffix).
Proof.
  intros os suffix p. unfold rotation_filename, splitext.
  assert (Hend : forall s, s +:+ EmptyString = s).
  { induction s as [|x s IH]; [reflexivity|]. rewrite append_cons, IH. reflexivity. }
  destruct os.
  - destruct (_splitext_parts p "/"%char None) as (name & ext & -> & Hp & Hext & Hno).
    exists name, ext. split; [exact Hp|]. split; [reflexivity|]. split.
    + destruct Hext as [->|(x & -> & Hx & Hs & _)]; [left; reflexivity|].
      right. exists x. split; [reflexivity|]. split; [exact Hx|].
      unfold separator_free. simpl. rewrite Hs. reflexivity.
    + intros H. rewrite (Hno H) in *. rewrite Hend in Hp. subst name.
      rewrite Hend. reflexivity.
  - destruct (_splitext_parts p "\"%char (Some "/"%char)) as (name & ext & -> & Hp & Hext & Hno).
    exists name, ext. split; [exact Hp|]. split; [reflexivity|]. split.
    + destruct Hext as [->|(x & -> & Hx & Hs & Ha)]; [left; reflexivity|].
      right. exists x. split; [reflexivity|]. split; [exact Hx|].
      unfold separator_free. simpl. rewrite Hs, Ha. reflexivity.
    + intros H. rewrite (Hno H) in *. rewrite Hend in Hp. subst name.
      rewrite Hend. reflexivity.
Qed.

Lemma X3_rotation_filename_any_name_witness :
  contains_char "."%char "/logs/today" = false /\
  rotation_filename posixpath "%Y-%m-%d" "/logs/today" = "/logs/today" +:+ "." +:+ "%Y-%m-%d".
Proof.
  split; [reflexivity|].
  destruct (X3_rotation_filename_any_name posixpath "%Y-%m-%d" "/logs/today")
    as (name & ext & _ & _ & _ & H).
  apply H. reflexivity.
Defined.

(** ** The colour of one call *)

Lemma enable_color_init cs ec es :
  enable_color (FXFormatter_init cs ec es) = cs && ec.
Proof. destruct cs, ec; reflexivity. Qed.




(** ** The operations as state changes *)

Lemma store_shared_file_handler_eq e d st :
  _LOG_DIRECTORY st = Some d ->
  store_shared_file_handler e st =
  match opened_log_file e d (fs st) with
  | inl (err, f) => Raise err (set_fs f st)
  | inr f =>
      Ok (length (handler_heap st))
        (set__SHARED_FILE_HANDLER (Some (length (handler_heap st)))
           (push_handler (shared_file_handler e d (_COLOR_SUPPORTED st)) (set_fs f st)))
  end.
Proof.
  intros Hd.
  unfold store_shared_file_handler, _create_shared_file_handler, opened_log_file,
    bind, get, mkdir, open_append, new_handler, modify, ret, raise, log_file_path,
    push_handler, shared_file_handler.
  rewrite Hd.
  destruct (mkdir_from [] (d ++ [node e; user e]) (fs st)) as [f1|].
  - unfold log_file_path. simpl fs.
    destruct (f1 !! _) as [[|t]|]; reflexivity.
  - rewrite set_fs_same. reflexivity.
Qed.

Lemma apply_default_level_eq logger st :
  apply_default_level logger st = Ok tt (leveled logger st).
Proof.
  unfold apply_default_level, leveled, Logger_setLevel. mstep.
  destruct (_DEFAULT_LEVEL st) as [level|]; [|reflexivity].
  repeat mstep. rewrite set_handler_levels_eq.
  rewrite handlers_of_update_logger_other by reflexivity. reflexivity.
Qed.

Lemma finish_logger_eq n logger st :
  finish_logger n logger st = Ok logger (finished n logger st).
Proof.
  unfold finish_logger, finished. repeat mstep.
  rewrite (bind_ok _ _ _ _ _ (apply_default_level_eq _ _)). reflexivity.
Qed.

Lemma wire_logger_eq e n logger formatter cs st :
  wire_logger e n logger formatter cs st =
  let st1 := attach logger (length (handler_heap st))
               (push_handler (console_handler formatter) st) in
  if cs then
    match _SHARED_FILE_HANDLER st with
    | Some h => Ok logger (finished n logger (attach logger h st1))
    | None =>
        match store_shared_file_handler e st1 with
        | Ok h st2 => Ok logger (finished n logger (attach logger h st2))
        | Raise err st2 => Raise err st2
        end
    end
  else Ok logger (finished n logger st1).
Proof.
  unfold wire_logger, addHandler. mstep. mstep. cbv zeta.
  change (update_logger logger _ (set_handler_heap _ st))
    with (attach logger (length (handler_heap st))
            (push_handler (console_handler formatter) st)).
  set (st1 := attach _ _ _).
  destruct cs.
  - unfold attach_file_handler. mstep. mstep.
    change (_SHARED_FILE_HANDLER st1) with (_SHARED_FILE_HANDLER st).
    destruct (_SHARED_FILE_HANDLER st) as [h|].
    + repeat mstep. unfold addHandler. mstep. apply finish_logger_eq.
    + destruct (store_shared_file_handler e st1) as [h st2|err st2] eqn:Hs; repeat mstep.
      * unfold addHandler. mstep. apply finish_logger_eq.
      * reflexivity.
  - mstep. apply finish_logger_eq.
Qed.

(** ** Every state a process reaches is well formed *)

Lemma lookup_fmap_eq {A B} (f : A -> B) (l l' : list A) j x' :
  f <$> l' = f <$> l -> l' !! j = Some x' ->
  exists x, l !! j = Some x /\ f x = f x'.
Proof.
  intros H Hx. assert (Hj : (f <$> l) !! j = Some (f x')).
  { rewrite <- H, list_lookup_fmap, Hx. reflexivity. }
  rewrite list_lookup_fmap in Hj. destruct (l !! j) as [x|]; [|discriminate].
  exists x. split; [reflexivity|]. simpl in Hj. congruence.
Qed.

Lemma fmap_eq_length {A B} (f : A -> B) (l l' : list A) :
  f <$> l' = f <$> l -> length l' = length l.
Proof. intros H. apply (f_equal length) in H. rewrite !length_fmap in H. exact H. Qed.

Global Instance same_shape_refl : Reflexive same_shape.
Proof. intros st. split; reflexivity. Qed.

Global Instance same_shape_trans : Transitive same_shape.
Proof.
  intros a b c [] []. split; etransitivity; eassumption.
Qed.

Lemma well_formed_ext st st' : same_shape st st' -> well_formed st -> well_formed st'.
Proof.
  intros [Hl Hh Hd Hc Hs Hdir Hcol] [Hroot Hdict Hvalid Hnodup Hshared Hsingle Hquiet Hconf].
  pose proof (fmap_eq_length _ _ _ Hl) as Hlen.
  pose proof (fmap_eq_length _ _ _ Hh) as Hhlen.
  assert (Hsome : forall j, is_Some (logger_heap st !! j) -> is_Some (logger_heap st' !! j)).
  { intros j Hj. apply lookup_lt_is_Some. apply lookup_lt_is_Some in Hj. lia. }
  split.
  - apply Hsome, Hroot.
  - intros n id Hn. rewrite Hd in Hn. apply Hsome. eapply Hdict, Hn.
  - intros j lg' Hj. destruct (lookup_fmap_eq _ _ _ _ _ Hl Hj) as (lg & Hlg & Heq).
    injection Heq as Hhs _. rewrite <- Hhs, Hhlen. eapply Hvalid, Hlg.
  - intros j lg' Hj. destruct (lookup_fmap_eq _ _ _ _ _ Hl Hj) as (lg & Hlg & Heq).
    injection Heq as Hhs _. rewrite <- Hhs. eapply Hnodup, Hlg.
  - intros h Hsh. rewrite Hs in Hsh. destruct (Hshared h Hsh) as (hd & Hhd & Hf).
    symmetry in Hh. destruct (lookup_fmap_eq _ _ _ _ _ Hh Hhd) as (hd' & Hhd' & Heq).
    exists hd'. split; [exact Hhd'|]. unfold is_file_handler in *.
    unfold handler_kind in Heq. injection Heq as Hcls _. rewrite Hcls. exact Hf.
  - intros h hd' Hhd' Hf. destruct (lookup_fmap_eq _ _ _ _ _ Hh Hhd') as (hd & Hhd & Heq).
    assert (Hf' : is_file_handler hd = true).
    { unfold is_file_handler in *. unfold handler_kind in Heq.
      injection Heq as Hcls _. rewrite Hcls. exact Hf. }
    destruct (Hsingle h hd Hhd Hf') as (Hsh & e & d & Hdd & Hk).
    rewrite Hs, Hdir, Hcol. split; [exact Hsh|]. exists e, d. split; [exact Hdd|].
    rewrite <- Heq. exact Hk.
  - intros j lg' h Hj Hsh Hin. destruct (lookup_fmap_eq _ _ _ _ _ Hl Hj) as (lg & Hlg & Heq).
    injection Heq as Hhs Hp. rewrite <- Hp. rewrite Hs in Hsh. rewrite <- Hhs in Hin.
    eapply Hquiet; eassumption.
  - intros n Hn. rewrite Hc in Hn. destruct (Hconf n Hn) as (j & lg & Hex & Hlg & Hp & Hne).
    symmetry in Hl. destruct (lookup_fmap_eq _ _ _ _ _ Hl Hlg) as (lg' & Hlg' & Heq).
    exists j, lg'. split; [rewrite (existing_logger_ext n st st' Hd); exact Hex|].
    split; [exact Hlg'|]. injection Heq as Hhs Hpp. rewrite Hhs, Hpp. split; assumption.
Qed.


Lemma getLogger_eq n st :
  getLogger n st =
  match existing_logger n st with
  | Some id => Ok id st
  | None => Ok (length (logger_heap st)) (registered n (_loggerClass st) st)
  end.
Proof.
  unfold getLogger, existing_logger. destruct (is_root_name n); [reflexivity|].
  destruct (loggerDict st !! n) as [[|id]|]; reflexivity.
Qed.

Lemma _fixupParents_ref prefixes d k id :
  _fixupParents prefixes d !! k = Some (LoggerRef id) -> d !! k = Some (LoggerRef id).
Proof.
  revert d. induction prefixes as [|p ps IH]; intros d H; [exact H|].
  simpl in H. destruct (d !! p) as [[|j]|] eqn:E.
  - apply IH, H.
  - exact H.
  - apply IH in H. destruct (decide (k = p)) as [->|Hne].
    + rewrite lookup_insert_eq in H. discriminate.
    + rewrite lookup_insert_ne in H by congruence. exact H.
Qed.

Lemma lookup_snoc_cases {A} (l : list A) (x y : A) j :
  (l ++ [x]) !! j = Some y -> l !! j = Some y \/ (j = length l /\ y = x).
Proof.
  intros H. apply lookup_app_Some in H as [H|[Hle H]]; [left; exact H|].
  right. destruct (j - length l)%nat as [|k] eqn:E; simpl in H; [|destruct k; discriminate].
  split; [lia | congruence].
Qed.

Lemma well_formed_registered n cls st :
  existing_logger n st = None -> well_formed st -> well_formed (registered n cls st).
Proof.
  intros Hnone [Hroot Hdict Hvalid Hnodup Hshared Hsingle Hquiet Hconf].
  assert (Hold : forall j lg, (logger_heap st ++ [new_logger n cls]) !! j = Some lg ->
                   logger_heap st !! j = Some lg \/ lg = new_logger n cls).
  { intros j lg H. apply lookup_snoc_cases in H as [H|[_ H]]; auto. }
  assert (Hkeep : forall j, is_Some (logger_heap st !! j) ->
                    is_Some ((logger_heap st ++ [new_logger n cls]) !! j)).
  { intros j [lg Hj]. exists lg. apply lookup_app_l_Some. exact Hj. }
  split; simpl.
  - apply Hkeep, Hroot.
  - intros k id Hk. apply _fixupParents_ref in Hk.
    destruct (decide (k = n)) as [->|Hne].
    + rewrite lookup_insert_eq in Hk. injection Hk as <-.
      apply lookup_lt_is_Some. rewrite length_app. simpl. lia.
    + rewrite lookup_insert_ne in Hk by congruence. apply Hkeep. eapply Hdict, Hk.
  - intros j lg Hj. destruct (Hold j lg Hj) as [H| ->]; [eapply Hvalid, H | constructor].
  - intros j lg Hj. destruct (Hold j lg Hj) as [H| ->]; [eapply Hnodup, H | constructor].
  - exact Hshared.
  - exact Hsingle.
  - intros j lg h Hj Hsh Hin. destruct (Hold j lg Hj) as [H| ->].
    + eapply Hquiet; eassumption.
    + simpl in Hin. inversion Hin.
  - intros k Hk. destruct (Hconf k Hk) as (j & lg & Hex & Hlg & Hp & Hne).
    exists j, lg. split; [|split; [apply lookup_app_l_Some; exact Hlg | split; assumption]].
    unfold existing_logger in *. simpl.
    destruct (is_root_name k); [exact Hex|].
    destruct (loggerDict st !! k) as [[|i]|] eqn:E; try discriminate.
    injection Hex as ->.
    rewrite (_fixupParents_kept _ _ k (LoggerRef j)); [reflexivity|].
    destruct (decide (k = n)) as [->|Hkn].
    + rewrite E in Hnone. destruct (is_root_name n); discriminate.
    + rewrite lookup_insert_ne by congruence. exact E.
Qed.

Lemma well_formed_getLogger n st :
  well_formed st -> well_formed (state_of (getLogger n st)).
Proof.
  intros Hwf. rewrite getLogger_eq. destruct (existing_logger n st) eqn:E; [exact Hwf|].
  apply well_formed_registered; assumption.
Qed.

Lemma getLogger_valid n st id st' :
  well_formed st -> getLogger n st = Ok id st' ->
  existing_logger n st' = Some id /\ is_Some (logger_heap st' !! id).
Proof.
  intros Hwf H. split; [eapply getLogger_post, H|].
  rewrite getLogger_eq in H. destruct (existing_logger n st) as [j|] eqn:E.
  - injection H as <- <-. unfold existing_logger in E.
    destruct (is_root_name n); [injection E as <-; apply Hwf|].
    destruct (loggerDict st !! n) as [[|i]|] eqn:Hd; try discriminate.
    injection E as ->. eapply wf_dict; eassumption.
  - injection H as <- <-. simpl. apply lookup_lt_is_Some. rewrite length_app. simpl. lia.
Qed.

Lemma well_formed_push hd st :
  is_file_handler hd = false -> well_formed st -> well_formed (push_handler hd st).
Proof.
  intros Hf [Hroot Hdict Hvalid Hnodup Hshared Hsingle Hquiet Hconf].
  split; simpl; try assumption.
  - intros j lg Hj. eapply Forall_impl; [eapply Hvalid, Hj|].
    simpl. intros h Hh. rewrite length_app. lia.
  - intros h Hsh. destruct (Hshared h Hsh) as (x & Hx & Hfx).
    exists x. split; [apply lookup_app_l_Some; exact Hx | exact Hfx].
  - intros h x Hx Hfx. apply lookup_snoc_cases in Hx as [Hx|[_ ->]]; [|congruence].
    apply Hsingle; assumption.
Qed.

Lemma lookup_attach logger h st j lg' :
  logger_heap (attach logger h st) !! j = Some lg' ->
  exists lg, logger_heap st !! j = Some lg /\
    lg_propagate lg' = lg_propagate lg /\
    (lg_handlers lg' = lg_handlers lg \/
     (j = logger /\ (h ∉ lg_handlers lg) /\ lg_handlers lg' = lg_handlers lg ++ [h])).
Proof.
  unfold attach, update_logger. simpl. intros H.
  destruct (decide (j = logger)) as [->|Hne].
  - rewrite list_lookup_alter_eq in H. destruct (logger_heap st !! logger) as [lg|]; [|discriminate].
    exists lg. split; [reflexivity|]. simpl in H. injection H as <-.
    case_bool_decide as Hin; [split; [reflexivity | left; reflexivity]|].
    split; [reflexivity|]. right. split; [reflexivity|]. split; [exact Hin | reflexivity].
  - rewrite list_lookup_alter_ne in H by congruence.
    exists lg'. split; [exact H|]. split; [reflexivity | left; reflexivity].
Qed.

Lemma existing_logger_attach n logger h st :
  existing_logger n (attach logger h st) = existing_logger n st.
Proof. reflexivity. Qed.

Lemma lookup_attach_Some logger h st j lg :
  logger_heap st !! j = Some lg ->
  exists lg', logger_heap (attach logger h st) !! j = Some lg' /\
    lg_propagate lg' = lg_propagate lg /\
    (lg_handlers lg <> [] -> lg_handlers lg' <> []) /\
    (j = logger -> h ∈ lg_handlers lg').
Proof.
  intros H. unfold attach, update_logger. simpl.
  destruct (decide (j = logger)) as [->|Hne].
  - rewrite list_lookup_alter_eq, H. simpl. eexists. split; [reflexivity|].
    case_bool_decide as Hin; simpl.
    + split; [reflexivity|]. split; [auto|]. intros _. exact Hin.
    + split; [reflexivity|]. split.
      * intros _ Hnil. apply app_eq_nil in Hnil as [_ Hnil]. discriminate.
      * intros _. apply elem_of_app. right. apply list_elem_of_singleton. reflexivity.
  - rewrite list_lookup_alter_ne by congruence. exists lg. split; [exact H|].
    split; [reflexivity|]. split; [auto | congruence].
Qed.

(** Attaching a handler that is not the shared file handler. *)
Lemma well_formed_attach logger h st :
  (h < length (handler_heap st))%nat -> _SHARED_FILE_HANDLER st <> Some h ->
  well_formed st -> well_formed (attach logger h st).
Proof.
  intros Hh Hns [Hroot Hdict Hvalid Hnodup Hshared Hsingle Hquiet Hconf].
  assert (Hkeep : forall j, is_Some (logger_heap st !! j) ->
                    is_Some (logger_heap (attach logger h st) !! j)).
  { intros j [lg Hj]. destruct (lookup_attach_Some logger h st j lg Hj) as (lg' & H' & _).
    eauto. }
  split.
  - apply Hkeep, Hroot.
  - intros n id Hn. apply Hkeep. eapply Hdict, Hn.
  - intros j lg' Hj. destruct (lookup_attach _ _ _ _ _ Hj) as (lg & Hlg & _ & [->|(_ & _ & ->)]).
    + eapply Hvalid, Hlg.
    + apply Forall_app. split; [eapply Hvalid, Hlg | repeat constructor; exact Hh].
  - intros j lg' Hj. destruct (lookup_attach _ _ _ _ _ Hj) as (lg & Hlg & _ & [->|(_ & Hnin & ->)]).
    + eapply Hnodup, Hlg.
    + apply NoDup_app. split; [eapply Hnodup, Hlg|]. split; [|apply NoDup_singleton].
      intros x Hx Hx'. apply list_elem_of_singleton in Hx'. subst x. contradiction.
  - exact Hshared.
  - exact Hsingle.
  - intros j lg' s Hj Hsh Hin.
    destruct (lookup_attach _ _ _ _ _ Hj) as (lg & Hlg & -> & [Heq|(_ & _ & Heq)]);
      rewrite Heq in Hin.
    + eapply Hquiet; eassumption.
    + apply elem_of_app in Hin as [Hin|Hin]; [eapply Hquiet; eassumption|].
      apply list_elem_of_singleton in Hin. subst s. contradiction.
  - intros n Hn. destruct (Hconf n Hn) as (j & lg & Hex & Hlg & Hp & Hne).
    destruct (lookup_attach_Some logger h st j lg Hlg) as (lg' & H' & Hp' & Hne' & _).
    exists j, lg'. split; [exact Hex|]. split; [exact H'|]. split; [congruence | auto].
Qed.


Lemma fmap_alter_same {A B} (f : A -> B) (g : A -> A) j (l : list A) :
  (forall x, f (g x) = f x) -> f <$> alter g j l = f <$> l.
Proof.
  intros H. revert j. induction l as [|x l IH]; intros j; [reflexivity|].
  destruct j as [|j]; simpl.
  - rewrite H. reflexivity.
  - f_equal. apply IH.
Qed.

Lemma same_shape_leveled logger st : same_shape st (leveled logger st).
Proof.
  unfold leveled. destruct (_DEFAULT_LEVEL st) as [level|]; [|reflexivity].
  split; try reflexivity; simpl.
  - apply fmap_alter_same. reflexivity.
  - apply set_handler_levels_kind.
Qed.

Lemma same_shape_with_level j level st :
  same_shape st (update_logger j (with_level level) st).
Proof. split; try reflexivity. simpl. apply fmap_alter_same. reflexivity. Qed.

Lemma same_shape_with_h_level h level st :
  same_shape st (update_handler h (with_h_level level) st).
Proof. split; try reflexivity. simpl. apply fmap_alter_same. reflexivity. Qed.

(** The loggers after [addHandler(h)] on [logger] and [propagate = False]. *)
Lemma lookup_quiet_attach logger h st j lg' :
  logger_heap (update_logger logger (with_propagate false) (attach logger h st)) !! j
  = Some lg' ->
  exists lg, logger_heap st !! j = Some lg /\
    ((j <> logger /\ lg' = lg) \/
     (j = logger /\ lg_propagate lg' = false /\ h ∈ lg_handlers lg' /\
      (lg_handlers lg' = lg_handlers lg \/
       ((h ∉ lg_handlers lg) /\ lg_handlers lg' = lg_handlers lg ++ [h])))).
Proof.
  unfold attach, update_logger. simpl. intros H.
  destruct (decide (j = logger)) as [->|Hne].
  - rewrite !list_lookup_alter_eq in H.
    destruct (logger_heap st !! logger) as [lg|]; [|discriminate].
    exists lg. split; [reflexivity|]. right. split; [reflexivity|].
    simpl in H. injection H as <-. split; [reflexivity|].
    case_bool_decide as Hin; simpl.
    + split; [exact Hin | left; reflexivity].
    + split; [apply elem_of_app; right; apply list_elem_of_singleton; reflexivity|].
      right. split; [exact Hin | reflexivity].
  - rewrite !list_lookup_alter_ne in H by congruence.
    exists lg'. split; [exact H|]. left. split; [exact Hne | reflexivity].
Qed.

Lemma lookup_quiet_attach_Some logger h st j lg :
  logger_heap st !! j = Some lg ->
  exists lg',
    logger_heap (update_logger logger (with_propagate false) (attach logger h st)) !! j
    = Some lg'.
Proof.
  intros H. apply lookup_lt_is_Some. unfold attach, update_logger. simpl.
  rewrite !length_alter. apply lookup_lt_is_Some. eauto.
Qed.

Lemma well_formed_finished n logger h st :
  (h < length (handler_heap st))%nat ->
  existing_logger n st = Some logger -> is_Some (logger_heap st !! logger) ->
  well_formed st -> well_formed (finished n logger (attach logger h st)).
Proof.
  intros Hh Hex Hlg [Hroot Hdict Hvalid Hnodup Hshared Hsingle Hquiet Hconf].
  unfold finished. eapply well_formed_ext; [apply same_shape_leveled|].
  set (st1 := update_logger logger (with_propagate false) (attach logger h st)).
  assert (Hkeep : forall j, is_Some (logger_heap st !! j) -> is_Some (logger_heap st1 !! j)).
  { intros j [lg Hj]. destruct (lookup_quiet_attach_Some logger h st j lg Hj) as [lg' H'].
    eauto. }
  assert (Hlook : forall j lg', logger_heap st1 !! j = Some lg' ->
            exists lg, logger_heap st !! j = Some lg /\
              ((j <> logger /\ lg' = lg) \/
               (j = logger /\ lg_propagate lg' = false /\ h ∈ lg_handlers lg' /\
                (lg_handlers lg' = lg_handlers lg \/
                 ((h ∉ lg_handlers lg) /\ lg_handlers lg' = lg_handlers lg ++ [h]))))).
  { intros j lg'. apply lookup_quiet_attach. }
  assert (Hd1 : loggerDict st1 = loggerDict st) by reflexivity.
  assert (Hh1 : handler_heap st1 = handler_heap st) by reflexivity.
  assert (Hs1 : _SHARED_FILE_HANDLER st1 = _SHARED_FILE_HANDLER st) by reflexivity.
  assert (Hl1 : _LOG_DIRECTORY st1 = _LOG_DIRECTORY st) by reflexivity.
  assert (Hc1 : _COLOR_SUPPORTED st1 = _COLOR_SUPPORTED st) by reflexivity.
  assert (Hn1 : _CONFIGURED_LOGGERS st1 = _CONFIGURED_LOGGERS st) by reflexivity.
  assert (He1 : forall k, existing_logger k st1 = existing_logger k st)
    by (intros k; apply existing_logger_ext; exact Hd1).
  clearbody st1.
  split; simpl; rewrite ?Hd1, ?Hh1, ?Hs1, ?Hl1, ?Hc1, ?Hn1.
  - apply Hkeep, Hroot.
  - intros k id Hk. apply Hkeep. eapply Hdict, Hk.
  - intros j lg' Hj.
    destruct (Hlook j lg' Hj) as (lg & Hl & [[_ ->]|(_ & _ & _ & [->|[_ ->]])]);
      try (eapply Hvalid, Hl).
    apply Forall_app. split; [eapply Hvalid, Hl | repeat constructor; exact Hh].
  - intros j lg' Hj.
    destruct (Hlook j lg' Hj) as (lg & Hl & [[_ ->]|(_ & _ & _ & [->|[Hnin ->]])]);
      try (eapply Hnodup, Hl).
    apply NoDup_app. split; [eapply Hnodup, Hl|]. split; [|apply NoDup_singleton].
    intros x Hx Hx'. apply list_elem_of_singleton in Hx'. subst x. contradiction.
  - exact Hshared.
  - exact Hsingle.
  - intros j lg' s Hj Hsh Hin.
    destruct (Hlook j lg' Hj) as (lg & Hl & [[_ ->]|(_ & Hp & _)]); [|exact Hp].
    eapply Hquiet; eassumption.
  - intros k Hk. apply elem_of_union in Hk as [Hk|Hk].
    + apply elem_of_singleton in Hk. subst k.
      destruct (Hkeep logger Hlg) as [lg' H']. exists logger, lg'.
      split; [rewrite <- Hex; apply (existing_logger_ext n); exact Hd1|]. split; [exact H'|].
      destruct (Hlook logger lg' H') as (lg & Hl & [[Hne _]|(_ & Hp & Hin & _)]);
        [congruence|].
      split; [exact Hp|]. intros Hnil. rewrite Hnil in Hin. inversion Hin.
    + destruct (Hconf k Hk) as (j & lg & Hexk & Hl & Hp & Hne).
      destruct (Hkeep j (ex_intro _ lg Hl)) as [lg' H']. exists j, lg'.
      split; [rewrite <- Hexk; apply (existing_logger_ext k); exact Hd1|]. split; [exact H'|].
      destruct (Hlook j lg' H') as (lg0 & Hl0 & [[_ ->]|(_ & Hp' & Hin & _)]).
      * rewrite Hl in Hl0. injection Hl0 as <-. split; assumption.
      * split; [exact Hp'|]. intros Hnil. rewrite Hnil in Hin. inversion Hin.
Qed.

Lemma store_shared_file_handler_unset e st :
  _LOG_DIRECTORY st = None ->
  store_shared_file_handler e st
  = Raise (AttributeError "'NoneType' object has no attribute 'joinpath'") st.
Proof.
  intros H. unfold store_shared_file_handler, _create_shared_file_handler, bind, get, raise.
  rewrite H. reflexivity.
Qed.

Lemma same_shape_set_fs f st : same_shape st (set_fs f st).
Proof. split; reflexivity. Qed.

Lemma well_formed_shared_lt st h :
  well_formed st -> _SHARED_FILE_HANDLER st = Some h -> (h < length (handler_heap st))%nat.
Proof.
  intros Hwf Hsh. destruct (wf_shared st Hwf h Hsh) as (hd & Hhd & _).
  eapply lookup_lt_Some, Hhd.
Qed.

Lemma well_formed_store e st :
  _SHARED_FILE_HANDLER st = None ->
  well_formed st -> well_formed (state_of (store_shared_file_handler e st)).
Proof.
  intros Hnone Hwf. destruct (_LOG_DIRECTORY st) as [d|] eqn:Hd.
  - rewrite (store_shared_file_handler_eq e d st Hd).
    destruct (opened_log_file e d (fs st)) as [[err f]|f]; simpl.
    + eapply well_formed_ext; [apply same_shape_set_fs | exact Hwf].
    + destruct Hwf as [Hroot Hdict Hvalid Hnodup Hshared Hsingle Hquiet Hconf].
      split; simpl; try assumption.
      * intros j lg Hj. eapply Forall_impl; [eapply Hvalid, Hj|].
        simpl. intros h Hh. rewrite length_app. lia.
      * intros h Hh. injection Hh as <-. eexists. split.
        -- rewrite lookup_app_r, Nat.sub_diag by lia. reflexivity.
        -- reflexivity.
      * intros h hd Hhd Hf. apply lookup_snoc_cases in Hhd as [Hhd|[-> ->]].
        -- destruct (Hsingle h hd Hhd Hf) as [Hsh _]. congruence.
        -- split; [reflexivity|]. exists e, d. split; [exact Hd | reflexivity].
      * intros j lg h Hj Hsh Hin. injection Hsh as <-.
        pose proof (Hvalid j lg Hj) as Hv. rewrite Forall_forall in Hv.
        specialize (Hv _ Hin). lia.
  - rewrite (store_shared_file_handler_unset e st Hd). exact Hwf.
Qed.

Lemma store_shared_file_handler_shared e st h st' :
  store_shared_file_handler e st = Ok h st' -> _SHARED_FILE_HANDLER st' = Some h.
Proof.
  unfold store_shared_file_handler. intros H.
  destruct (_create_shared_file_handler e st) as [h0 st0|err st0] eqn:E.
  - rewrite (bind_ok _ _ _ _ _ E) in H. injection H as <- <-. reflexivity.
  - rewrite (bind_raise _ _ _ _ _ E) in H. discriminate.
Qed.

Lemma store_shared_file_handler_loggers e :
  frames (fun st => (logger_heap st, loggerDict st)) (store_shared_file_handler e).
Proof.
  intros st. destruct (_LOG_DIRECTORY st) as [d|] eqn:Hd.
  - rewrite (store_shared_file_handler_eq e d st Hd).
    destruct (opened_log_file e d (fs st)) as [[err f]|f]; reflexivity.
  - rewrite (store_shared_file_handler_unset e st Hd). reflexivity.
Qed.

Lemma well_formed_wire_logger e n logger formatter cs st :
  existing_logger n st = Some logger -> is_Some (logger_heap st !! logger) ->
  well_formed st -> well_formed (state_of (wire_logger e n logger formatter cs st)).
Proof.
  intros Hex Hlg Hwf. rewrite wire_logger_eq. cbv zeta.
  set (st0 := push_handler (console_handler formatter) st).
  assert (Hwf0 : well_formed st0) by (apply well_formed_push; [reflexivity | exact Hwf]).
  assert (Hhc : (length (handler_heap st) < length (handler_heap st0))%nat).
  { unfold st0. simpl. rewrite length_app. simpl. lia. }
  assert (Hns : _SHARED_FILE_HANDLER st0 <> Some (length (handler_heap st))).
  { intros Hsh. pose proof (well_formed_shared_lt st _ Hwf Hsh). lia. }
  set (st1 := attach logger (length (handler_heap st)) st0).
  assert (Hwf1 : well_formed st1) by (apply well_formed_attach; assumption).
  assert (Hlg1 : is_Some (logger_heap st1 !! logger)).
  { destruct Hlg as [lg Hl].
    destruct (lookup_attach_Some logger (length (handler_heap st)) st0 logger lg Hl)
      as (lg' & H' & _). eauto. }
  destruct cs.
  - destruct (_SHARED_FILE_HANDLER st) as [h|] eqn:Hsh.
    + cbn [state_of]. apply well_formed_finished; [|exact Hex|exact Hlg1|exact Hwf1].
      pose proof (well_formed_shared_lt st _ Hwf Hsh).
      change (handler_heap st1) with (handler_heap st0). lia.
    + pose proof (well_formed_store e st1 Hsh Hwf1) as Hwf2.
      pose proof (store_shared_file_handler_loggers e st1) as Hfr.
      destruct (store_shared_file_handler e st1) as [h st2|err st2] eqn:Hs; [|exact Hwf2].
      assert (Hheap : logger_heap st2 = logger_heap st1) by exact (f_equal fst Hfr).
      assert (Hdict : loggerDict st2 = loggerDict st1) by exact (f_equal snd Hfr).
      change (well_formed st2) in Hwf2. cbn [state_of].
      apply well_formed_finished; [| | |exact Hwf2].
      * apply well_formed_shared_lt; [exact Hwf2|].
        eapply store_shared_file_handler_shared, Hs.
      * rewrite (existing_logger_ext n st1 st2 Hdict). exact Hex.
      * rewrite Hheap. exact Hlg1.
  - cbn [state_of]. apply well_formed_finished; [exact Hhc|exact Hex|exact Hlg|exact Hwf0].
Qed.


Lemma same_shape_structure st st' : structure st' = structure st -> same_shape st st'.
Proof.
  unfold structure. intros H. injection H as H1 H2 H3 H4 H5 H6 H7.
  split; congruence.
Qed.

Lemma well_formed_structure st st' :
  structure st' = structure st -> well_formed st -> well_formed st'.
Proof. intros H. apply well_formed_ext, same_shape_structure, H. Qed.

Lemma structure_emit op lg m c caller e : frames structure (emit op lg m c caller e).
Proof. frames_tac. Qed.

Lemma structure_delete_old_logs e days : frames structure (delete_old_logs e days).
Proof. frames_tac. Qed.

Lemma structure_clear_logs : frames structure clear_logs.
Proof. frames_tac. Qed.

Lemma structure_Logger_handle self record st :
  structure (Logger_handle self record st) = structure st.
Proof. apply Logger_handle_frame; reflexivity. Qed.

(** Going through a computation step by step, with [leaf] for the state
    changes. *)
Ltac keeps_step leaf :=
  lazymatch goal with
  | |- keeps _ (bind _ _) => apply keeps_bind; [typeclasses eauto | | intros ?]
  | |- keeps _ (ret _) => apply keeps_ret; typeclasses eauto
  | |- keeps _ (get _) => apply keeps_get; typeclasses eauto
  | |- keeps _ (raise _) => apply keeps_raise; typeclasses eauto
  | |- keeps _ (for_each _ _) => apply keeps_for_each; [typeclasses eauto.. | intros ?]
  | |- keeps _ (match ?x with _ => _ end) => destruct x
  | |- keeps _ _ => leaf
  end.

Ltac well_formed_leaf :=
  idtac;
  lazymatch goal with
  | |- keeps _ (getLogger _) => intros ? ?; apply well_formed_getLogger; assumption
  | |- keeps _ (modify _) =>
      let st := fresh "st" in
      let H := fresh "H" in
      apply keeps_modify; intros st H; eapply well_formed_ext; [|exact H];
      first [ apply same_shape_with_level | apply same_shape_with_h_level
            | split; reflexivity ]
  end.

Lemma well_formed_set_loggers_level level :
  keeps (preserves well_formed) (set_loggers_level level).
Proof.
  unfold set_loggers_level, set_level_of, Logger_setLevel, Handler_setLevel.
  repeat keeps_step well_formed_leaf.
Qed.

Lemma well_formed_no_sink st :
  well_formed st -> _LOG_DIRECTORY st = None ->
  _SHARED_FILE_HANDLER st = None /\
  forall h hd, handler_heap st !! h = Some hd -> is_file_handler hd = false.
Proof.
  intros Hwf Hd.
  assert (Hno : forall h hd, handler_heap st !! h = Some hd -> is_file_handler hd = false).
  { intros h hd Hhd. destruct (is_file_handler hd) eqn:Hf; [|reflexivity].
    destruct (wf_single st Hwf h hd Hhd Hf) as (_ & e & d & Hdd & _). congruence. }
  split; [|exact Hno].
  destruct (_SHARED_FILE_HANDLER st) as [h|] eqn:Hsh; [|reflexivity].
  destruct (wf_shared st Hwf h Hsh) as (hd & Hhd & Hf).
  rewrite (Hno h hd Hhd) in Hf. discriminate.
Qed.

Lemma well_formed_set_log_directory e d st :
  well_formed st -> well_formed (state_of (set_log_directory e d st)).
Proof.
  intros Hwf. unfold set_log_directory. mstep.
  destruct (_LOG_DIRECTORY st) as [d0|] eqn:Hd; [exact Hwf|].
  destruct (well_formed_no_sink st Hwf Hd) as [Hsh Hno].
  repeat mstep.
  set (st1 := set__LOG_DIRECTORY (Some d) st).
  assert (Hwf1 : well_formed st1).
  { destruct Hwf as [Hroot Hdict Hvalid Hnodup Hshared Hsingle Hquiet Hconf].
    split; try assumption.
    intros h hd Hhd Hf. simpl in Hhd. rewrite (Hno h hd Hhd) in Hf. discriminate. }
  destruct (is_dir d st1); [|exact Hwf1].
  pose proof (well_formed_store e st1 Hsh Hwf1) as Hwf2.
  destruct (store_shared_file_handler e st1) as [h st2|err st2] eqn:Hs; repeat mstep;
    exact Hwf2.
Qed.

Lemma well_formed_configure_logger e n ec es sf st :
  well_formed st -> well_formed (state_of (configure_logger e n ec es sf st)).
Proof.
  intros Hwf. unfold configure_logger.
  rewrite (bind_ok _ _ _ _ _ (check_save_to_file_eq n sf st)).
  set (st0 := if sf && negb (log_directory_usable st) then _ else st).
  assert (Hwf0 : well_formed st0).
  { unfold st0. destruct (sf && negb (log_directory_usable st)); [|exact Hwf].
    eapply well_formed_structure; [|exact Hwf]. reflexivity. }
  clearbody st0.
  destruct (existing_FXColorLogger_never_raises n st0) as (found & st1 & Hf). mstep.
  assert (Hwf1 : well_formed st1).
  { destruct (existing_FXColorLogger_state _ _ _ _ Hf) as [->| ->];
      [exact Hwf0 | apply well_formed_getLogger, Hwf0]. }
  destruct found as [id|]; [exact Hwf1|].
  unfold build_logger. mstep.
  destruct (make_logger_eq n st1) as (id & st2 & Hg & Hm). mstep.
  assert (Hwfc : well_formed (set__loggerClass FXColorLogger_class st1)).
  { eapply well_formed_structure; [|exact Hwf1]. reflexivity. }
  destruct (getLogger_valid _ _ _ _ Hwfc Hg) as [Hex Hlg].
  pose proof (well_formed_getLogger n _ Hwfc) as Hwf2. rewrite Hg in Hwf2.
  apply well_formed_wire_logger.
  - rewrite <- Hex. apply existing_logger_ext. reflexivity.
  - exact Hlg.
  - eapply well_formed_structure; [|exact Hwf2]. reflexivity.
Qed.

Lemma well_formed_initial cs files : well_formed (initial_state cs files).
Proof.
  split; simpl.
  - eauto.
  - intros n id H. rewrite lookup_empty in H. discriminate.
  - intros [|j] lg H; simpl in H; [injection H as <-; constructor|].
    destruct j; discriminate.
  - intros [|j] lg H; simpl in H; [injection H as <-; constructor|].
    destruct j; discriminate.
  - discriminate.
  - intros h hd H. destruct h; discriminate.
  - discriminate.
  - intros n H. apply elem_of_empty in H. contradiction.
Qed.

Lemma well_formed_step e o st : well_formed st -> well_formed (step e o st).
Proof.
  intros Hwf.
  destruct o as [d | n ec es sf | level | days | | lg level | op lg m c caller | n | files];
    simpl.
  - apply well_formed_set_log_directory, Hwf.
  - apply well_formed_configure_logger, Hwf.
  - apply well_formed_set_loggers_level, Hwf.
  - eapply well_formed_structure; [apply structure_delete_old_logs | exact Hwf].
  - eapply well_formed_structure; [apply structure_clear_logs | exact Hwf].
  - eapply well_formed_ext; [apply same_shape_with_level | exact Hwf].
  - eapply well_formed_structure; [apply structure_emit | exact Hwf].
  - apply well_formed_getLogger, Hwf.
  - eapply well_formed_structure; [|exact Hwf]. reflexivity.
Qed.

Lemma well_formed_run ops st : well_formed st -> well_formed (run ops st).
Proof.
  revert st. induction ops as [|eo ops IH]; intros st Hwf; [exact Hwf|].
  rewrite run_cons. apply IH, well_formed_step, Hwf.
Qed.

Lemma well_formed_reached cs files ops : well_formed (run ops (initial_state cs files)).
Proof. apply well_formed_run, well_formed_initial. Qed.

(** ** One file sink for all loggers *)

Lemma shared_file_handler_kind e d cs hd :
  handler_kind hd = handler_kind (shared_file_handler e d cs) ->
  h_class hd
  = FXTimedRotatingFileHandler (d ++ [node e; user e; current_date e +:+ ".log"]) "%Y-%m-%d" /\
  h_formatter hd = {| enable_color := false; enable_separator := false |}.
Proof.
  unfold handler_kind, shared_file_handler, log_file_path. simpl. intros H.
  injection H as -> ->. rewrite <- app_assoc. split; [reflexivity|].
  destruct cs; reflexivity.
Qed.

(** X5: in every state a process reaches, whatever it called and in
    whatever order, there is at most one file handler.  It is the one the
    global [_SHARED_FILE_HANDLER] holds; it formats without colour and
    without separator; its file is [date.log] under the log directory, the
    machine's name and the user's name, for the date of the call that made
    it; and a logger it is attached to does not propagate. *)
Theorem X5_one_file_sink :
  forall (cs : bool) (files : gmap Path Node) (ops : list (Env * Op)),
    let st := run ops (initial_state cs files) in
    (forall h hd,
       handler_heap st !! h = Some hd -> is_file_handler hd = true ->
       _SHARED_FILE_HANDLER st = Some h /\
       h_formatter hd = {| enable_color := false; enable_separator := false |} /\
       exists e d,
         _LOG_DIRECTORY st = Some d /\
         h_class hd
         = FXTimedRotatingFileHandler
             (d ++ [node e; user e; current_date e +:+ ".log"]) "%Y-%m-%d") /\
    (forall h1 h2 hd1 hd2,
       handler_heap st !! h1 = Some hd1 -> is_file_handler hd1 = true ->
       handler_heap st !! h2 = Some hd2 -> is_file_handler hd2 = true ->
       h1 = h2) /\
    (forall j lg h hd,
       logger_heap st !! j = Some lg -> h ∈ lg_handlers lg ->
       handler_heap st !! h = Some hd -> is_file_handler hd = true ->
       lg_propagate lg = false /\
       forall i, lg_handlers lg !! i = Some h ->
                 forall i', lg_handlers lg !! i' = Some h -> i = i').
Proof.
  intros cs files ops st.
  pose proof (well_formed_reached cs files ops) as Hwf. fold st in Hwf.
  split; [|split].
  - intros h hd Hhd Hf. destruct (wf_single st Hwf h hd Hhd Hf) as (Hsh & e & d & Hd & Hk).
    destruct (shared_file_handler_kind _ _ _ _ Hk) as [Hc Hfm].
    split; [exact Hsh|]. split; [exact Hfm|]. exists e, d. split; assumption.
  - intros h1 h2 hd1 hd2 H1 Hf1 H2 Hf2.
    destruct (wf_single st Hwf h1 hd1 H1 Hf1) as [Hs1 _].
    destruct (wf_single st Hwf h2 hd2 H2 Hf2) as [Hs2 _]. congruence.
  - intros j lg h hd Hlg Hin Hhd Hf.
    destruct (wf_single st Hwf h hd Hhd Hf) as [Hsh _].
    split; [eapply (wf_quiet st Hwf); eassumption|].
    intros i Hi i' Hi'. eapply NoDup_lookup; [eapply (wf_nodup st Hwf), Hlg | |]; eassumption.
Qed.

Lemma X5_one_file_sink_witness :
  handler_heap two_loggers_state !! 0%nat
  = Some (shared_file_handler example_env ["logs"%string] false) /\
  _SHARED_FILE_HANDLER two_loggers_state = Some 0%nat /\
  handlers_of 1 two_loggers_state = [1%nat; 0%nat] /\
  handlers_of 2 two_loggers_state = [2%nat; 0%nat] /\
  forall h2 hd2,
    handler_heap two_loggers_state !! h2 = Some hd2 -> is_file_handler hd2 = true ->
    0%nat = h2.
Proof.
  assert (H0 : handler_heap two_loggers_state !! 0%nat
               = Some (shared_file_handler example_env ["logs"%string] false))
    by (vm_compute; reflexivity).
  split; [exact H0|].
  split; [vm_compute; reflexivity|].
  split; [vm_compute; reflexivity|].
  split; [vm_compute; reflexivity|].
  intros h2 hd2 H2 Hf2.
  destruct (X5_one_file_sink false example_files
              [(example_env, call_set_log_directory ["logs"%string]);
               (example_env, call_configure_logger "app" true true true);
               (example_env, call_configure_logger "db" false false true)])
    as (_ & Hone & _).
  exact (Hone 0%nat h2 _ hd2 H0 eq_refl H2 Hf2).
Defined.

(** ** What reaches the log file *)

Lemma formatted_record_levelno record : levelno (formatted_record record) = levelno record.
Proof. reflexivity. Qed.

Lemma Handler_handle_record h record st :
  fst (Handler_handle h record st) = formatted_record record.
Proof.
  unfold Handler_handle. rewrite FXFormatter_format_eq.
  destruct (format_string (h_formatter h) record); [destruct (h_class h)|]; reflexivity.
Qed.

Lemma Handler_handle_file_output h record st :
  file_output (snd (Handler_handle h record st))
  = file_output st ++
    match h_class h, format_string (h_formatter h) record with
    | FXTimedRotatingFileHandler p _, Some text => [(p, text +:+ nl)]
    | _, _ => []
    end.
Proof.
  unfold Handler_handle. rewrite FXFormatter_format_eq.
  destruct (format_string (h_formatter h) record) as [text|];
    destruct (h_class h); simpl; rewrite ?app_nil_r; reflexivity.
Qed.

Lemma structure_Handler_handle h record st :
  structure (snd (Handler_handle h record st)) = structure st.
Proof. apply Handler_handle_frame; reflexivity. Qed.

Lemma structure_call_handlers_of hs record st :
  structure (snd (call_handlers_of hs record st)) = structure st.
Proof. apply call_handlers_of_frame; reflexivity. Qed.

(** The entries the handlers [hs] add for a record: each is written by a file
    handler among [hs] that lets the record through, to that handler's file,
    and is what the handler's formatter makes of the record. *)
Lemma call_handlers_of_file_output hs record record0 st :
  formatted_record record = formatted_record record0 ->
  levelno record = levelno record0 ->
  exists l,
    file_output (snd (call_handlers_of hs record st)) = file_output st ++ l /\
    (length l <= length (file_sinks st record0 hs))%nat /\
    forall p text, (p, text) ∈ l ->
      exists h hd s line,
        h ∈ hs /\ handler_heap st !! h = Some hd /\
        h_class hd = FXTimedRotatingFileHandler p s /\
        format_string (h_formatter hd) record0 = Some line /\ text = line +:+ nl.
Proof.
  revert record st. induction hs as [|hid hs IH]; intros record st Hrec Hlev.
  - exists []. simpl. rewrite app_nil_r. split; [reflexivity|]. split; [lia|].
    intros p text Hin. inversion Hin.
  - cbn [call_handlers_of]. unfold file_sinks. rewrite filter_cons. fold (file_sinks st record0 hs).
    destruct (handler_heap st !! hid) as [hd|] eqn:Hhd.
    + rewrite Hlev. destruct (h_level hd <=? levelno record0) eqn:Hle.
      * pose proof (Handler_handle_record hd record st) as Hr.
        pose proof (Handler_handle_file_output hd record st) as Hf.
        pose proof (structure_Handler_handle hd record st) as Hs.
        destruct (Handler_handle hd record st) as [record1 st1]. simpl in Hr, Hf, Hs.
        assert (Hheap : handler_heap st1 = handler_heap st).
        { unfold structure in Hs. congruence. }
        destruct (IH record1 st1) as (l & Hl & Hlen & Hin).
        { rewrite Hr, formatted_record_idem. exact Hrec. }
        { rewrite Hr. exact Hlev. }
        assert (Hfs : file_sinks st1 record0 hs = file_sinks st record0 hs).
        { unfold file_sinks. rewrite Hheap. reflexivity. }
        rewrite Hfs in Hlen.
        assert (Hfmt : format_string (h_formatter hd) record
                       = format_string (h_formatter hd) record0).
        { rewrite <- (format_string_formatted _ record), Hrec.
          apply format_string_formatted. }
        rewrite Hfmt in Hf.
        eexists. split; [rewrite Hl, Hf, <- app_assoc; reflexivity|].
        split.
        -- rewrite length_app. unfold is_file_handler. rewrite andb_true_r.
           destruct (h_class hd) as [|p s]; simpl.
           ++ exact Hlen.
           ++ destruct (format_string (h_formatter hd) record0); simpl; lia.
        -- intros p text Hpt. apply elem_of_app in Hpt as [Hpt|Hpt].
           ++ destruct (h_class hd) as [|p0 s] eqn:Hc; [inversion Hpt|].
              destruct (format_string (h_formatter hd) record0) as [line|] eqn:Hline;
                [|inversion Hpt].
              apply list_elem_of_singleton in Hpt. injection Hpt as -> ->.
              exists hid, hd, s, line. split; [apply list_elem_of_here|].
              repeat split; assumption.
           ++ destruct (Hin p text Hpt) as (h & hd' & s & line & Hh & Hhd' & Hc & Hline & ->).
              exists h, hd', s, line. split; [apply list_elem_of_further; exact Hh|].
              rewrite <- Hheap. repeat split; assumption.
      * destruct (IH record st Hrec Hlev) as (l & Hl & Hlen & Hin).
        exists l. split; [exact Hl|]. split.
        -- rewrite andb_false_r, decide_False by discriminate. exact Hlen.
        -- intros p text Hpt.
           destruct (Hin p text Hpt) as (h & hd' & s & line & Hh & Hrest).
           exists h, hd', s, line. split; [apply list_elem_of_further; exact Hh | exact Hrest].
    + destruct (IH record st Hrec Hlev) as (l & Hl & Hlen & Hin).
      exists l. split; [exact Hl|]. split.
      * rewrite decide_False by discriminate. exact Hlen.
      * intros p text Hpt.
        destruct (Hin p text Hpt) as (h & hd' & s & line & Hh & Hrest).
        exists h, hd', s, line. split; [apply list_elem_of_further; exact Hh | exact Hrest].
Qed.

Lemma NoDup_all_equal_length {A} (l : list A) (a : A) :
  NoDup l -> (forall x, x ∈ l -> x = a) -> (length l <= 1)%nat.
Proof.
  intros Hnd Hall. destruct l as [|x [|y l]]; simpl; try lia.
  assert (x = a) by (apply Hall, list_elem_of_here).
  assert (y = a) by (apply Hall, list_elem_of_further, list_elem_of_here).
  subst. inversion Hnd as [|? ? Hnin _]. exfalso. apply Hnin, list_elem_of_here.
Qed.

Lemma elem_of_file_sinks st record hs h :
  h ∈ file_sinks st record hs ->
  h ∈ hs /\ exists hd, handler_heap st !! h = Some hd /\ is_file_handler hd = true.
Proof.
  unfold file_sinks. intros H. apply list_elem_of_filter in H as [Hf Hin].
  split; [exact Hin|]. destruct (handler_heap st !! h) as [hd|]; [|discriminate].
  exists hd. split; [reflexivity|]. apply andb_true_iff in Hf as [Hf _]. exact Hf.
Qed.

(** Among the handlers of a logger at most one writes to a file, and none
    does when the logger propagates. *)
Lemma file_sinks_of_logger st record c lg :
  well_formed st -> logger_heap st !! c = Some lg ->
  (length (file_sinks st record (lg_handlers lg)) <= 1)%nat /\
  (lg_propagate lg = true -> file_sinks st record (lg_handlers lg) = []).
Proof.
  intros Hwf Hlg.
  assert (Hsh : forall h, h ∈ file_sinks st record (lg_handlers lg) ->
                  h ∈ lg_handlers lg /\ _SHARED_FILE_HANDLER st = Some h).
  { intros h Hh. apply elem_of_file_sinks in Hh as (Hin & hd & Hhd & Hf).
    split; [exact Hin|]. apply (wf_single st Hwf h hd Hhd Hf). }
  split.
  - destruct (_SHARED_FILE_HANDLER st) as [s|] eqn:Hs.
    + apply (NoDup_all_equal_length _ s).
      * apply NoDup_filter. eapply (wf_nodup st Hwf), Hlg.
      * intros h Hh. destruct (Hsh h Hh) as [_ H]. congruence.
    + destruct (file_sinks st record (lg_handlers lg)) as [|h l] eqn:E; [simpl; lia|].
      destruct (Hsh h) as [_ H]; [apply list_elem_of_here | discriminate].
  - intros Hp. destruct (file_sinks st record (lg_handlers lg)) as [|h l] eqn:E; [reflexivity|].
    destruct (Hsh h) as [Hin H]; [apply list_elem_of_here|].
    rewrite (wf_quiet st Hwf c lg h Hlg H Hin) in Hp. discriminate.
Qed.

Lemma callHandlers_chain_file_output chain found record st :
  well_formed st ->
  exists l,
    file_output (snd (callHandlers_chain chain found record st)) = file_output st ++ l /\
    (length l <= 1)%nat /\
    forall p text, (p, text) ∈ l ->
      exists h hd s line,
        handler_heap st !! h = Some hd /\
        h_class hd = FXTimedRotatingFileHandler p s /\
        format_string (h_formatter hd) record = Some line /\ text = line +:+ nl.
Proof.
  revert found record st. induction chain as [|c chain IH]; intros found record st Hwf.
  - exists []. simpl. rewrite app_nil_r. split; [reflexivity|]. split; [lia|].
    intros p text Hin. inversion Hin.
  - cbn [callHandlers_chain]. destruct (logger_heap st !! c) as [lg|] eqn:Hlg.
    + destruct (call_handlers_of_file_output (lg_handlers lg) record record st eq_refl eq_refl)
        as (l & Hl & Hlen & Hin).
      destruct (file_sinks_of_logger st record c lg Hwf Hlg) as [Hone Hnone].
      pose proof (structure_call_handlers_of (lg_handlers lg) record st) as Hs.
      assert (Hrec : exists r, fst (call_handlers_of (lg_handlers lg) record st) = r /\
                formatted_record r = formatted_record record).
      { clear. generalize (lg_handlers lg). intros hs. revert record st.
        induction hs as [|hid hs IH]; intros record st; [eexists; split; reflexivity|].
        cbn [call_handlers_of].
        destruct (handler_heap st !! hid) as [hd|]; [|apply IH].
        destruct (h_level hd <=? levelno record); [|apply IH].
        pose proof (Handler_handle_record hd record st) as Hr.
        destruct (Handler_handle hd record st) as [r1 st1]. simpl in Hr. subst r1.
        destruct (IH (formatted_record record) st1) as (r & Hr & Hf).
        exists r. split; [exact Hr|]. rewrite Hf. apply formatted_record_idem. }
      destruct (call_handlers_of (lg_handlers lg) record st) as [record1 st1].
      simpl in Hl, Hs, Hrec. destruct Hrec as (r & <- & Hrec).
      assert (Hfirst : forall p text, (p, text) ∈ l ->
                exists h hd s line,
                  handler_heap st !! h = Some hd /\
                  h_class hd = FXTimedRotatingFileHandler p s /\
                  format_string (h_formatter hd) record = Some line /\ text = line +:+ nl).
      { intros p text Hpt.
        destruct (Hin p text Hpt) as (h & hd & s & line & _ & Hrest).
        exists h, hd, s, line. exact Hrest. }
      destruct (lg_propagate lg) eqn:Hp.
      * rewrite (Hnone eq_refl) in Hlen. destruct l; [|simpl in Hlen; lia].
        rewrite app_nil_r in Hl.
        destruct (IH (found + length (lg_handlers lg))%nat record1 st1) as (l2 & Hl2 & Hlen2 & Hin2).
        { eapply well_formed_structure; [exact Hs | exact Hwf]. }
        exists l2. split; [rewrite Hl2, Hl; reflexivity|]. split; [exact Hlen2|].
        intros p text Hpt.
        destruct (Hin2 p text Hpt) as (h & hd & s & line & Hhd & Hc & Hline & ->).
        exists h, hd, s, line.
        assert (Hheap : handler_heap st1 = handler_heap st)
          by (unfold structure in Hs; congruence).
        rewrite <- Hheap. split; [exact Hhd|]. split; [exact Hc|]. split; [|reflexivity].
        rewrite <- Hline, <- (format_string_formatted _ record1), Hrec.
        symmetry. apply format_string_formatted.
      * simpl. exists l. split; [exact Hl|]. split; [lia | exact Hfirst].
    + exists []. simpl. rewrite app_nil_r. split; [reflexivity|]. split; [lia|].
      intros p text Hin. inversion Hin.
Qed.


(** ** Configured loggers do not propagate *)

(** X7: in every state a process reaches, a name that [configure_logger]
    has tracked designates a logger that has at least one handler and does
    not propagate.  A record dispatched through it goes through the logger's
    own handlers, in the order they were attached, and through nothing else:
    no handler of a parent or of the root logger sees it, and the handler of
    last resort is not used. *)
Theorem X7_configured_logger_handles_alone :
  forall (cs : bool) (files : gmap Path Node) (ops : list (Env * Op)) (n : string),
    let st := run ops (initial_state cs files) in
    n ∈ _CONFIGURED_LOGGERS st ->
    exists id lg,
      existing_logger n st = Some id /\ logger_heap st !! id = Some lg /\
      lg_propagate lg = false /\ lg_handlers lg <> [] /\
      forall record,
        Logger_handle id record st
        = snd (call_handlers_of (lg_handlers lg) record
                 (set_handled (handled st ++ [record]) st)).
Proof.
  intros cs files ops n st Hn.
  pose proof (well_formed_reached cs files ops) as Hwf. fold st in Hwf.
  destruct (wf_configured st Hwf n Hn) as (id & lg & Hex & Hlg & Hp & Hne).
  exists id, lg. split; [exact Hex|]. split; [exact Hlg|]. split; [exact Hp|].
  split; [exact Hne|]. intros record.
  unfold Logger_handle, callHandlers. cbn [callHandlers_chain].
  change (logger_heap (set_handled (handled st ++ [record]) st)) with (logger_heap st).
  rewrite Hlg, Hp.
  destruct (call_handlers_of (lg_handlers lg) record
              (set_handled (handled st ++ [record]) st)) as [r st1].
  simpl. destruct (lg_handlers lg); [congruence | reflexivity].
Qed.

Lemma X7_configured_logger_handles_alone_witness :
  exists id lg,
    existing_logger "db" two_loggers_state = Some id /\
    logger_heap two_loggers_state !! id = Some lg /\
    lg_propagate lg = false /\ lg_handlers lg <> [].
Proof.
  assert (Hn : "db"%string ∈ _CONFIGURED_LOGGERS two_loggers_state)
    by (vm_compute; reflexivity).
  destruct (X7_configured_logger_handles_alone false example_files
              [(example_env, call_set_log_directory ["logs"%string]);
               (example_env, call_configure_logger "app" true true true);
               (example_env, call_configure_logger "db" false false true)] "db" Hn)
    as (id & lg & H1 & H2 & H3 & H4 & _).
  exists id, lg. repeat split; assumption.
Defined.

(** ** Configuring a name for the first time *)

Lemma configure_logger_fresh e n ec es sf st :
  loggerDict st !! n = None -> is_root_name n = false ->
  configure_logger e n ec es sf st
  = wire_logger e n (length (logger_heap st))
      (FXFormatter_init (_COLOR_SUPPORTED st) ec es)
      (sf && log_directory_usable st)
      (registered n FXColorLogger_class (warned n sf st)).
Proof.
  intros Hd Hr. unfold configure_logger.
  rewrite (bind_ok _ _ _ _ _ (check_save_to_file_eq n sf st)).
  fold (warned n sf st).
  assert (Hd0 : loggerDict (warned n sf st) !! n = None).
  { unfold warned. destruct (sf && negb (log_directory_usable st)); exact Hd. }
  rewrite (bind_ok _ _ _ _ _ (existing_FXColorLogger_fresh n _ Hd0)).
  unfold build_logger, make_logger, getLoggerClass, setLoggerClass.
  assert (Hex : existing_logger n (set__loggerClass FXColorLogger_class (warned n sf st)) = None).
  { unfold existing_logger. rewrite Hr. simpl loggerDict. rewrite Hd0. reflexivity. }
  pose proof (getLogger_eq n (set__loggerClass FXColorLogger_class (warned n sf st))) as Hg.
  rewrite Hex in Hg. repeat mstep.
  assert (Hsame : forall A (f : State -> A),
            (forall v s, f (set_stdout v s) = f s) -> f (warned n sf st) = f st).
  { intros A f Hf. unfold warned. destruct (sf && negb (log_directory_usable st)); auto. }
  rewrite (Hsame _ _COLOR_SUPPORTED) by reflexivity.
  change (length (logger_heap (set__loggerClass FXColorLogger_class (warned n sf st))))
    with (length (logger_heap (warned n sf st))).
  rewrite (Hsame _ (fun s => length (logger_heap s))) by reflexivity.
  reflexivity.
Qed.

Lemma wire_logger_outcome e n logger formatter cs st :
  let r := wire_logger e n logger formatter cs st in
  (exists stx,
     r = Ok logger (finished n logger stx) /\
     _DEFAULT_LEVEL stx = _DEFAULT_LEVEL st /\
     length (logger_heap stx) = length (logger_heap st)) \/
  (cs = true /\ _SHARED_FILE_HANDLER st = None /\
   exists err st', r = Raise err st' /\
     store_shared_file_handler e
       (attach logger (length (handler_heap st))
          (push_handler (console_handler formatter) st)) = Raise err st').
Proof.
  cbv zeta. rewrite wire_logger_eq. cbv zeta.
  set (st1 := attach logger (length (handler_heap st)) _).
  assert (H1 : _DEFAULT_LEVEL st1 = _DEFAULT_LEVEL st) by reflexivity.
  assert (L1 : length (logger_heap st1) = length (logger_heap st)).
  { unfold st1, attach, update_logger. simpl. apply length_alter. }
  assert (Hat : forall h s, _DEFAULT_LEVEL (attach logger h s) = _DEFAULT_LEVEL s /\
                            length (logger_heap (attach logger h s)) = length (logger_heap s)).
  { intros h s. split; [reflexivity|]. unfold attach, update_logger. simpl. apply length_alter. }
  destruct cs.
  - destruct (_SHARED_FILE_HANDLER st) as [h|] eqn:Hsh.
    + left. eexists. split; [reflexivity|]. destruct (Hat h st1) as [-> ->]. split; assumption.
    + destruct (store_shared_file_handler e st1) as [h st2|err st2] eqn:Hs.
      * left. eexists. split; [reflexivity|]. destruct (Hat h st2) as [-> ->].
        assert (Hfr : frames (fun s => (_DEFAULT_LEVEL s, logger_heap s))
                        (store_shared_file_handler e)) by frames_tac.
        specialize (Hfr st1). rewrite Hs in Hfr. simpl in Hfr.
        injection Hfr as -> ->. split; assumption.
      * right. split; [reflexivity|]. split; [reflexivity|]. eauto.
  - left. eexists. split; [reflexivity|]. split; assumption.
Qed.

Lemma finished_levels n logger st level lg' :
  _DEFAULT_LEVEL st = Some level ->
  logger_heap (finished n logger st) !! logger = Some lg' ->
  lg_level lg' = level /\
  forall h, h ∈ lg_handlers lg' -> is_Some (handler_heap st !! h) ->
            h_level <$> handler_heap (finished n logger st) !! h = Some level.
Proof.
  intros Hd. unfold finished, leveled. simpl _DEFAULT_LEVEL. rewrite Hd.
  unfold update_logger. simpl. rewrite !list_lookup_alter_eq.
  destruct (logger_heap st !! logger) as [lg|] eqn:Hlg; [|discriminate].
  simpl. intros H. injection H as <-. split; [reflexivity|].
  simpl. intros h Hin [hd Hhd]. rewrite set_handler_levels_lookup.
  unfold handlers_of. simpl. rewrite !list_lookup_alter_eq, Hlg. simpl.
  rewrite bool_decide_eq_true_2 by exact Hin. rewrite Hhd. reflexivity.
Qed.

Lemma handler_heap_finished n logger st :
  length (handler_heap (finished n logger st)) = length (handler_heap st).
Proof.
  unfold finished, leveled. simpl _DEFAULT_LEVEL.
  destruct (_DEFAULT_LEVEL st); [|reflexivity]. simpl. apply set_handler_levels_length.
Qed.

(** X8: the default level and the loggers made after it was set.
    [set_loggers_level(level)] stores the level as the default.  In a state
    a process reaches with a default level stored, [configure_logger] for a
    name the registry does not hold returns (it can only fail while making
    the shared file handler) a logger that is at the default level and whose
    handlers, the shared file handler included when it is attached, are all
    put at the default level. *)
Theorem X8_default_level_for_new_loggers :
  forall (cs : bool) (files : gmap Path Node) (ops : list (Env * Op))
         (e : Env) (n : string) (ec es sf : bool) (level : Z),
    let st := run ops (initial_state cs files) in
    _DEFAULT_LEVEL st = Some level ->
    loggerDict st !! n = None -> is_root_name n = false ->
    let r := configure_logger e n ec es sf st in
    let st' := state_of r in
    (forall level0 st0, _DEFAULT_LEVEL (state_of (set_loggers_level level0 st0)) = Some level0) /\
    (is_ok r = true \/
     (sf = true /\ log_directory_usable st = true /\ _SHARED_FILE_HANDLER st = None)) /\
    (is_ok r = true ->
     exists id lg,
       r = Ok id st' /\ logger_heap st' !! id = Some lg /\
       lg_class lg = FXColorLogger_class /\ lg_level lg = level /\
       lg_handlers lg <> [] /\
       forall h, h ∈ lg_handlers lg ->
                 h_level <$> handler_heap st' !! h = Some level).
Proof.
  intros cs files ops e n ec es sf level st Hlevel Hdict Hroot r st'.
  pose proof (well_formed_reached cs files ops) as Hwf. fold st in Hwf.
  pose proof (well_formed_configure_logger e n ec es sf st Hwf) as Hwf'.
  fold r st' in Hwf'.
  split; [apply set_loggers_level_default|].
  assert (Hr : r = wire_logger e n (length (logger_heap st))
                     (FXFormatter_init (_COLOR_SUPPORTED st) ec es)
                     (sf && log_directory_usable st)
                     (registered n FXColorLogger_class (warned n sf st)))
    by (apply configure_logger_fresh; assumption).
  set (st1 := registered n FXColorLogger_class (warned n sf st)) in Hr.
  assert (Hw : forall A (f : State -> A),
            (forall v s, f (set_stdout v s) = f s) -> f (warned n sf st) = f st).
  { intros A f Hf. unfold warned. destruct (sf && negb (log_directory_usable st)); auto. }
  assert (Hd1 : _DEFAULT_LEVEL st1 = Some level).
  { unfold st1. simpl. rewrite (Hw _ _DEFAULT_LEVEL) by reflexivity. exact Hlevel. }
  assert (Hs1 : _SHARED_FILE_HANDLER st1 = _SHARED_FILE_HANDLER st).
  { unfold st1. simpl. apply (Hw _ _SHARED_FILE_HANDLER). reflexivity. }
  assert (Hl1 : logger_heap st1 !! length (logger_heap st)
                = Some (new_logger n FXColorLogger_class)).
  { unfold st1. simpl. rewrite (Hw _ logger_heap) by reflexivity.
    rewrite lookup_app_r, Nat.sub_diag by lia. reflexivity. }
  destruct (wire_logger_outcome e n (length (logger_heap st))
              (FXFormatter_init (_COLOR_SUPPORTED st) ec es)
              (sf && log_directory_usable st) st1)
    as [(stx & Hok & Hdx & Hlx)|(Hcs & Hsh & err & st2 & Hraise & _)].
  - rewrite <- Hr in Hok. split; [left; rewrite Hok; reflexivity|]. intros _.
    assert (Hst' : st' = finished n (length (logger_heap st)) stx)
      by (unfold st'; rewrite Hok; reflexivity).
    destruct (wf_configured st' Hwf' n) as (j & lg & Hex & Hlg & _ & Hne).
    { rewrite Hst'. unfold finished, leveled. simpl _DEFAULT_LEVEL.
      destruct (_DEFAULT_LEVEL stx); simpl; apply elem_of_union; left;
        apply elem_of_singleton; reflexivity. }
    assert (Hj : j = length (logger_heap st)).
    { pose proof (configure_logger_designates e n ec es sf st _ _ Hok) as Hdes.
      fold st' in Hex. rewrite <- Hst' in Hdes. congruence. }
    subst j. exists (length (logger_heap st)), lg.
    split; [rewrite Hok, Hst'; reflexivity|]. split; [exact Hlg|].
    assert (Hcls : lg_class lg = FXColorLogger_class).
    { assert (Hg : grows st1 st').
      { pose proof (grows_wire_logger e n (length (logger_heap st))
                      (FXFormatter_init (_COLOR_SUPPORTED st) ec es)
                      (sf && log_directory_usable st) st1) as Hg.
        rewrite <- Hr in Hg. exact Hg. }
      pose proof (grows_class _ _ Hg (length (logger_heap st)) FXColorLogger_class) as Hc.
      unfold class_of in Hc. rewrite Hl1, Hlg in Hc. simpl in Hc.
      specialize (Hc eq_refl). congruence. }
    split; [exact Hcls|].
    rewrite Hst' in Hlg.
    destruct (finished_levels n _ stx level lg (eq_trans Hdx Hd1) Hlg) as [Hlv Hhs].
    split; [exact Hlv|]. split; [exact Hne|].
    intros h Hin. rewrite Hst'. apply Hhs; [exact Hin|].
    apply lookup_lt_is_Some. rewrite <- (handler_heap_finished n (length (logger_heap st)) stx).
    rewrite <- Hst'. rewrite <- Hst' in Hlg.
    pose proof (wf_valid st' Hwf' _ lg Hlg) as Hv. rewrite Forall_forall in Hv.
    apply Hv, Hin.
  - rewrite <- Hr in Hraise. apply andb_true_iff in Hcs as [-> Hu].
    split; [right; split; [reflexivity|split; [exact Hu | congruence]]|].
    rewrite Hraise. discriminate.
Qed.

Lemma X8_default_level_for_new_loggers_witness :
  exists id lg,
    configure_logger example_env "app" true true false error_level_state
    = Ok id (state_of (configure_logger example_env "app" true true false error_level_state)) /\
    logger_heap (state_of (configure_logger example_env "app" true true false
                             error_level_state)) !! id = Some lg /\
    lg_level lg = ERROR.
Proof.
  assert (H1 : _DEFAULT_LEVEL error_level_state = Some ERROR) by (vm_compute; reflexivity).
  assert (H2 : loggerDict error_level_state !! "app"%string = None) by (vm_compute; reflexivity).
  assert (H3 : is_ok (configure_logger example_env "app" true true false error_level_state)
               = true) by (vm_compute; reflexivity).
  destruct (X8_default_level_for_new_loggers false ∅
              [(example_env, call_set_loggers_level ERROR)] example_env "app" true true false
              ERROR H1 H2 eq_refl) as (_ & _ & H).
  destruct (H H3) as (id & lg & Hr & Hlg & _ & Hlv & _).
  exists id, lg. split; [exact Hr|]. split; [exact Hlg | exact Hlv].
Defined.

(** ** Levels of loggers and levels of handlers *)

Lemma call_handlers_of_skips hs record st :
  (forall h, h ∈ hs ->
     exists hd, handler_heap st !! h = Some hd /\ levelno record < h_level hd) ->
  call_handlers_of hs record st = (record, st).
Proof.
  induction hs as [|h hs IH]; intros H; [reflexivity|].
  cbn [call_handlers_of].
  destruct (H h) as (hd & Hhd & Hlt); [apply list_elem_of_here|].
  rewrite Hhd. replace (h_level hd <=? levelno record) with false
    by (symmetry; apply Z.leb_gt; exact Hlt).
  apply IH. intros h' Hin. apply H, list_elem_of_further, Hin.
Qed.

Lemma levelno_built_record self level m c caller e st :
  levelno (built_record self level m c caller e st) = level.
Proof. unfold built_record. destruct c as [x|]; [destruct (truthy x)|]; reflexivity. Qed.

Lemma frames_CONFIGURED_LOGGERS_set_loggers_level level :
  frames _CONFIGURED_LOGGERS (set_loggers_level level).
Proof. frames_tac. Qed.

(** X9: [logger.setLevel] after [set_loggers_level] does not lower the
    level of the handlers.  In a state a process reaches, take a configured
    logger, set the level of all loggers to [D], then set that logger to a
    level [L] below [D].  A leveled call of a level from [L] up to, but not
    including, [D] passes the logger, so that a record is built and
    dispatched, and every handler of the logger drops it: nothing is written,
    to the console or to the file, and the state is as before but for the
    record dispatched. *)
Theorem X9_setLevel_leaves_handler_levels :
  forall (cs : bool) (files : gmap Path Node) (ops : list (Env * Op)) (n : string)
         (D L : Z) (op : EmitOp) (m : string) (c : option string) (caller : Caller)
         (e : Env),
    let st := run ops (initial_state cs files) in
    n ∈ _CONFIGURED_LOGGERS st -> L <> NOTSET -> L <= op_level op < D ->
    exists id,
      existing_logger n st = Some id /\
      let st1 := state_of (set_loggers_level D st) in
      let st2 := state_of (Logger_setLevel id L st1) in
      getEffectiveLevel id st2 = L /\
      FXColorLogger_emit op id m c caller e st2
      = Ok tt (set_handled
                 (handled st2 ++ [built_record id (op_level op) m c caller e st2]) st2).
Proof.
  intros cs files ops n D L op m c caller e st Hn HL Hop.
  pose proof (well_formed_reached cs files ops) as Hwf. fold st in Hwf.
  destruct (wf_configured st Hwf n Hn) as (id & lg & Hex & Hlg & _ & _).
  exists id. split; [exact Hex|]. cbv zeta.
  set (st1 := state_of (set_loggers_level D st)).
  assert (Hwf1 : well_formed st1) by (apply well_formed_set_loggers_level, Hwf).
  assert (Hn1 : n ∈ _CONFIGURED_LOGGERS st1).
  { unfold st1. rewrite (frames_CONFIGURED_LOGGERS_set_loggers_level D st). exact Hn. }
  assert (Hex1 : existing_logger n st1 = Some id).
  { eapply existing_logger_grows; [apply grows_set_loggers_level | exact Hex]. }
  destruct (wf_configured st1 Hwf1 n Hn1) as (j & lg1 & Hexj & Hlg1 & Hp1 & Hne1).
  assert (j = id) by congruence. subst j.
  destruct (set_loggers_level_effect D n id st Hn Hex (ex_intro _ lg Hlg)) as [_ Hlevels].
  fold st1 in Hlevels.
  assert (Hhs : lg_handlers lg1 = lg_handlers lg).
  { pose proof (kept_handlers_of _ _ _ (levels_kept_set_loggers_level D st) id) as Hk.
    fold st1 in Hk. rewrite (handlers_of_Some _ _ _ Hlg1), (handlers_of_Some _ _ _ Hlg) in Hk.
    exact Hk. }
  assert (Hdrop : forall h, h ∈ lg_handlers lg1 ->
            exists hd, handler_heap st1 !! h = Some hd /\ h_level hd = D).
  { intros h Hin. rewrite Hhs in Hin.
    assert (Hv : is_Some (handler_heap st !! h)).
    { apply lookup_lt_is_Some. pose proof (wf_valid st Hwf id lg Hlg) as Hv.
      rewrite Forall_forall in Hv. apply Hv, Hin. }
    specialize (Hlevels h). rewrite (handlers_of_Some _ _ _ Hlg) in Hlevels.
    specialize (Hlevels Hin Hv).
    destruct (handler_heap st1 !! h) as [hd|]; [|discriminate].
    exists hd. split; [reflexivity|]. simpl in Hlevels. congruence. }
  unfold Logger_setLevel, modify. cbn [state_of].
  set (st2 := update_logger id (with_level L) st1).
  assert (Hlg2 : logger_heap st2 !! id = Some (with_level L lg1)).
  { unfold st2, update_logger. simpl. rewrite list_lookup_alter_eq, Hlg1. reflexivity. }
  assert (Heff : getEffectiveLevel id st2 = L).
  { apply getEffectiveLevel_own; [rewrite Hlg2; reflexivity | exact HL]. }
  split; [exact Heff|].
  rewrite FXColorLogger_emit_eq. unfold isEnabledFor. rewrite Heff.
  replace (L <=? op_level op) with true by (symmetry; apply Z.leb_le; lia).
  f_equal. set (record := built_record id (op_level op) m c caller e st2).
  unfold Logger_handle, callHandlers. cbn [callHandlers_chain].
  change (logger_heap (set_handled (handled st2 ++ [record]) st2)) with (logger_heap st2).
  rewrite Hlg2. simpl lg_handlers. simpl lg_propagate. rewrite Hp1.
  rewrite call_handlers_of_skips.
  - simpl. destruct (lg_handlers lg1); [congruence | reflexivity].
  - intros h Hin. destruct (Hdrop h Hin) as (hd & Hhd & Hd). exists hd.
    split; [exact Hhd|]. unfold record. rewrite levelno_built_record. lia.
Qed.

Lemma X9_setLevel_leaves_handler_levels_witness :
  exists id,
    existing_logger "db" two_loggers_state = Some id /\
    getEffectiveLevel id
      (state_of (Logger_setLevel id DEBUG
                   (state_of (set_loggers_level WARNING two_loggers_state)))) = DEBUG.
Proof.
  assert (Hn : "db"%string ∈ _CONFIGURED_LOGGERS two_loggers_state)
    by (vm_compute; reflexivity).
  assert (HL : DEBUG <> NOTSET) by discriminate.
  assert (Hop : DEBUG <= op_level op_info < WARNING) by (split; [vm_compute; discriminate | reflexivity]).
  destruct (X9_setLevel_leaves_handler_levels false example_files
              [(example_env, call_set_log_directory ["logs"%string]);
               (example_env, call_configure_logger "app" true true true);
               (example_env, call_configure_logger "db" false false true)] "db"
              WARNING DEBUG op_info "hello" None example_caller example_env Hn HL Hop)
    as (id & Hex & Heff & _).
  exists id. split; [exact Hex | exact Heff].
Defined.

(** ** The names [set_loggers_level] reaches *)

Global Instance leveling_refl level : Reflexive (leveling level).
Proof. intros st. split; [reflexivity | auto | reflexivity]. Qed.

Global Instance leveling_trans level : Transitive (leveling level).
Proof.
  intros a b c [K1 W1 C1] [K2 W2 C2]. split; [etransitivity; eassumption | auto | congruence].
Qed.

Lemma leveling_set_level_of level n : keeps (leveling level) (set_level_of level n).
Proof.
  intros st. split.
  - apply levels_kept_set_level_of.
  - assert (H : keeps (preserves well_formed) (set_level_of level n)).
    { unfold set_level_of, Logger_setLevel, Handler_setLevel.
      repeat keeps_step well_formed_leaf. }
    apply H.
  - assert (H : frames _CONFIGURED_LOGGERS (set_level_of level n)) by frames_tac.
    apply H.
Qed.

Lemma at_level_kept level n st st' :
  leveling level st st' -> at_level level n st -> at_level level n st'.
Proof.
  intros [Hk _ _] (id & lg & Hex & Hlg & Hlv & Hhs).
  assert (Hl : lg_level <$> logger_heap st' !! id = Some level).
  { apply (kept_logger_level _ _ _ Hk). rewrite Hlg. simpl. congruence. }
  destruct (logger_heap st' !! id) as [lg'|] eqn:Hlg'; [|discriminate].
  exists id, lg'. split; [apply (kept_existing _ _ _ Hk), Hex|]. split; [exact Hlg'|].
  split; [simpl in Hl; congruence|].
  intros h Hin. apply (kept_handler_level _ _ _ Hk), Hhs.
  pose proof (kept_handlers_of _ _ _ Hk id) as Heq.
  unfold handlers_of in Heq. rewrite Hlg, Hlg' in Heq. rewrite <- Heq. exact Hin.
Qed.

Lemma set_level_of_establishes level n st :
  well_formed st -> at_level level n (state_of (set_level_of level n st)).
Proof.
  intros Hwf. destruct (getLogger_never_raises n st) as (id & sa & Hg).
  destruct (getLogger_valid n st id sa Hwf Hg) as [Hex [lg Hlg]].
  assert (Hwfa : well_formed sa).
  { pose proof (well_formed_getLogger n st Hwf) as H. rewrite Hg in H. exact H. }
  assert (Heq : set_level_of level n st = set_level_of level n sa).
  { unfold set_level_of. rewrite (bind_ok _ _ _ _ _ Hg).
    rewrite (bind_ok _ _ _ _ _ (getLogger_existing n sa id Hex)). reflexivity. }
  rewrite Heq, (set_level_of_eq level n id sa Hex). simpl.
  exists id, (with_level level lg). split; [exact Hex|]. split.
  { unfold update_logger. simpl. rewrite list_lookup_alter_eq, Hlg. reflexivity. }
  split; [reflexivity|]. simpl. intros h Hin.
  rewrite set_handler_levels_lookup, (handlers_of_Some _ _ _ Hlg).
  rewrite bool_decide_eq_true_2 by exact Hin.
  pose proof (wf_valid sa Hwfa id lg Hlg) as Hv. rewrite Forall_forall in Hv.
  destruct (lookup_lt_is_Some_2 (handler_heap sa) h (Hv h Hin)) as [hd ->]. reflexivity.
Qed.

(** X10: [set_loggers_level(level)] never fails and stores the level as
    the default; and in a state a process reaches it leaves at the level,
    logger and handlers, not only every logger [configure_logger] tracked
    but also every logger whose name the formatter has seen on a record: a
    logger that other code got from [logging] and whose records went through
    a configured parent is set as well. *)
Theorem X10_set_loggers_level_reaches_formatted_names :
  forall (cs : bool) (files : gmap Path Node) (ops : list (Env * Op)) (level : Z)
         (n : string),
    let st := run ops (initial_state cs files) in
    n ∈ _CONFIGURED_LOGGERS st \/ n ∈ FXFormatter_loggers st ->
    exists st',
      set_loggers_level level st = Ok tt st' /\
      _DEFAULT_LEVEL st' = Some level /\
      at_level level n st'.
Proof.
  intros cs files ops level n st Hn.
  pose proof (well_formed_reached cs files ops) as Hwf. fold st in Hwf.
  pose proof (set_loggers_level_default level st) as Hdef.
  unfold set_loggers_level in *. revert Hdef. mstep. mstep.
  set (st0 := set__DEFAULT_LEVEL (Some level) st).
  assert (Hwf0 : well_formed st0) by (eapply well_formed_structure; [|exact Hwf]; reflexivity).
  set (body2 := fun logger_name : string =>
    do configured <- get _CONFIGURED_LOGGERS;
    if bool_decide (logger_name ∈ configured) then ret tt
    else set_level_of level logger_name).
  assert (Hk2 : forall y, keeps (leveling level) (body2 y)).
  { intros y. unfold body2.
    apply keeps_bind; [typeclasses eauto | apply keeps_get; typeclasses eauto | intros c'].
    destruct (bool_decide (y ∈ c')); [apply keeps_ret; typeclasses eauto|].
    apply leveling_set_level_of. }
  assert (Hok2 : forall y s, exists s', body2 y s = Ok tt s').
  { intros y s. unfold body2. mstep.
    destruct (bool_decide (y ∈ _CONFIGURED_LOGGERS s)); [eexists; reflexivity|].
    apply set_level_of_ok. }
  destruct (for_each_ok (elements (_CONFIGURED_LOGGERS st0)) (set_level_of level) st0
              (set_level_of_ok level)) as [st1 H1].
  pose proof (keeps_for_each (leveling level) (elements (_CONFIGURED_LOGGERS st0)) _
                (leveling_set_level_of level) st0) as Hr1.
  rewrite H1 in Hr1. simpl in Hr1. mstep. mstep.
  destruct (for_each_ok (elements (FXFormatter_loggers st1)) body2 st1 Hok2) as [st2 H2].
  pose proof (keeps_for_each (leveling level) (elements (FXFormatter_loggers st1)) _ Hk2 st1)
    as Hr2.
  rewrite H2 in Hr2. simpl in Hr2.
  fold body2. rewrite H2. intros Hdef. exists st2.
  split; [reflexivity|]. split; [exact Hdef|].
  destruct (decide (n ∈ _CONFIGURED_LOGGERS st)) as [Hc|Hnc].
  - apply (at_level_kept level n st1 st2 Hr2).
    pose proof (for_each_establishes (leveling level) well_formed (at_level level n)
                  (elements (_CONFIGURED_LOGGERS st0)) (set_level_of level) n st0
                  (leveling_set_level_of level) (set_level_of_ok level)
                  (fun s s' Hl => leveling_wf _ _ _ Hl) (at_level_kept level n)
                  (set_level_of_establishes level n)
                  (proj2 (elem_of_elements _ _) Hc) Hwf0) as HQ.
    rewrite H1 in HQ. exact HQ.
  - destruct Hn as [Hn|Hn]; [contradiction|].
    assert (Hn1 : n ∈ FXFormatter_loggers st1).
    { assert (Hfr : frames FXFormatter_loggers
                      (for_each (elements (_CONFIGURED_LOGGERS st0)) (set_level_of level)))
        by frames_tac.
      specialize (Hfr st0). rewrite H1 in Hfr. simpl in Hfr. rewrite Hfr. exact Hn. }
    pose proof (for_each_establishes (leveling level)
                  (fun s => well_formed s /\ _CONFIGURED_LOGGERS s = _CONFIGURED_LOGGERS st)
                  (at_level level n)
                  (elements (FXFormatter_loggers st1)) body2 n st1 Hk2 Hok2) as HQ.
    rewrite H2 in HQ. apply HQ.
    + intros s s' Hl [Hw Hcf]. split; [apply (leveling_wf _ _ _ Hl), Hw|].
      rewrite (leveling_configured _ _ _ Hl). exact Hcf.
    + apply at_level_kept.
    + intros s [Hw Hcf]. unfold body2. mstep. rewrite Hcf.
      rewrite bool_decide_eq_false_2 by exact Hnc.
      apply set_level_of_establishes, Hw.
    + apply elem_of_elements, Hn1.
    + split; [apply (leveling_wf _ _ _ Hr1), Hwf0|].
      rewrite (leveling_configured _ _ _ Hr1). reflexivity.
Qed.

Lemma X10_set_loggers_level_reaches_formatted_names_witness :
  existing_logger "app.worker" worker_state = Some 2%nat /\
  ~ "app.worker"%string ∈ _CONFIGURED_LOGGERS worker_state /\
  exists st',
    set_loggers_level DEBUG worker_state = Ok tt st' /\
    _DEFAULT_LEVEL st' = Some DEBUG /\
    at_level DEBUG "app.worker" st'.
Proof.
  split; [vm_compute; reflexivity|].
  split; [vm_compute; discriminate|].
  assert (Hn : "app.worker"%string ∈ FXFormatter_loggers worker_state)
    by (vm_compute; reflexivity).
  exact (X10_set_loggers_level_reaches_formatted_names false ∅
           [(example_env, call_configure_logger "app" true true false);
            (example_env, call_getLogger "app.worker");
            (example_env, call_emit op_warning 2 "careful" None example_caller)]
           DEBUG "app.worker" (or_intror Hn)).
Defined.

(** ** Setting the log directory for the first time *)

(** [mkdir(parents=True, exist_ok=True)] keeps every entry there is, adds
    directories only, and leaves a directory at each step of the path. *)
Lemma mkdir_from_spec base comps f f' :
  mkdir_from base comps f = Some f' ->
  (forall p x, f !! p = Some x -> f' !! p = Some x) /\
  (forall p, f !! p = None -> f' !! p = None \/ f' !! p = Some Dir) /\
  (forall k, (0 < k <= length comps)%nat -> f' !! (base ++ take k comps) = Some Dir).
Proof.
  revert base f. induction comps as [|c rest IH]; intros base f H.
  - injection H as <-. split; [auto|]. split; [auto|]. simpl. intros k Hk. lia.
  - simpl in H.
    assert (Hstep : forall g,
              (forall p x, f !! p = Some x -> g !! p = Some x) ->
              (forall p, f !! p = None -> g !! p = None \/ g !! p = Some Dir) ->
              g !! (base ++ [c]) = Some Dir ->
              mkdir_from (base ++ [c]) rest g = Some f' ->
              (forall p x, f !! p = Some x -> f' !! p = Some x) /\
              (forall p, f !! p = None -> f' !! p = None \/ f' !! p = Some Dir) /\
              (forall k, (0 < k <= length (c :: rest))%nat ->
                         f' !! (base ++ take k (c :: rest)) = Some Dir)).
    { intros g Hkeep Hnew Hc Hg. destruct (IH _ _ Hg) as (H1 & H2 & H3).
      split; [intros p x Hp; apply H1, Hkeep, Hp|]. split.
      - intros p Hp. destruct (Hnew p Hp) as [Hn|Hd]; [apply H2, Hn | right; apply H1, Hd].
      - intros k Hk. destruct k as [|k]; [lia|]. simpl take.
        destruct k as [|k].
        + rewrite take_0. apply H1, Hc.
        + replace (base ++ c :: take (S k) rest) with ((base ++ [c]) ++ take (S k) rest)
            by (rewrite <- app_assoc; reflexivity).
          apply H3. simpl in Hk. lia. }
    destruct (f !! (base ++ [c])) as [[|t]|] eqn:E; [| discriminate |].
    + apply (Hstep f); auto.
    + apply (Hstep (<[base ++ [c] := Dir]> f)).
      * intros p x Hp. destruct (decide (p = base ++ [c])) as [->|Hne];
          [discriminate (eq_trans (eq_sym E) Hp)|].
        rewrite lookup_insert_ne by congruence. exact Hp.
      * intros p Hp. destruct (decide (p = base ++ [c])) as [->|Hne].
        -- right. apply lookup_insert_eq.
        -- left. rewrite lookup_insert_ne by congruence. exact Hp.
      * apply lookup_insert_eq.
      * exact H.
Qed.

(** Opening the log file of the day: what was there stays, the two
    directories and the file are there afterwards. *)
Lemma opened_log_file_spec e d f f' :
  opened_log_file e d f = inr f' ->
  (forall p x, f !! p = Some x -> f' !! p = Some x) /\
  forall st,
    is_dir (d ++ [node e]) (set_fs f' st) = true /\
    is_dir (d ++ [node e; user e]) (set_fs f' st) = true /\
    is_file (log_file_path e d) (set_fs f' st) = true.
Proof.
  assert (Hdir : forall (g : gmap Path Node) p st,
            g !! p = Some Dir -> is_dir p (set_fs g st) = true).
  { intros g p st H. unfold is_dir. simpl fs.
    exact (f_equal (fun o => match o with Some Dir => true | _ => false end) H). }
  assert (Hfile : forall (g : gmap Path Node) p t st,
            g !! p = Some (File t) -> is_file p (set_fs g st) = true).
  { intros g p t st H. unfold is_file. simpl fs.
    exact (f_equal (fun o => match o with Some (File _) => true | _ => false end) H). }
  unfold opened_log_file.
  destruct (mkdir_from [] (d ++ [node e; user e]) f) as [f1|] eqn:Hm; [|discriminate].
  destruct (mkdir_from_spec _ _ _ _ Hm) as (H1 & _ & H3).
  assert (Ha : f1 !! (d ++ [node e]) = Some Dir).
  { specialize (H3 (S (length d))). rewrite length_app in H3. simpl in H3.
    rewrite take_app_ge in H3 by lia.
    replace (S (length d) - length d)%nat with 1%nat in H3 by lia.
    simpl in H3. apply H3. lia. }
  assert (Hb : f1 !! (d ++ [node e; user e]) = Some Dir).
  { specialize (H3 (length (d ++ [node e; user e]))).
    rewrite firstn_all in H3. apply H3. rewrite length_app. simpl. lia. }
  assert (Hne1 : log_file_path e d <> d ++ [node e]).
  { unfold log_file_path. intros Heq. apply (f_equal length) in Heq.
    rewrite !length_app in Heq. simpl in Heq. lia. }
  assert (Hne2 : log_file_path e d <> d ++ [node e; user e]).
  { unfold log_file_path. intros Heq. apply (f_equal length) in Heq.
    rewrite !length_app in Heq. simpl in Heq. lia. }
  destruct (f1 !! log_file_path e d) as [[|t]|] eqn:E; [discriminate| |];
    intros H; injection H as <-.
  - split; [exact H1|]. intros st. split; [eapply Hdir, Ha|]. split; [eapply Hdir, Hb|].
    eapply Hfile, E.
  - split.
    { intros p x Hp. destruct (decide (p = log_file_path e d)) as [->|Hne].
      - apply H1 in Hp. discriminate (eq_trans (eq_sym E) Hp).
      - rewrite lookup_insert_ne by congruence. apply H1, Hp. }
    intros st. split; [|split].
    + apply Hdir. rewrite lookup_insert_ne by congruence. exact Ha.
    + apply Hdir. rewrite lookup_insert_ne by congruence. exact Hb.
    + apply (Hfile _ _ (now e)). apply lookup_insert_eq.
Qed.

Lemma opened_log_file_error e d f err f' :
  opened_log_file e d f = inl (err, f') ->
  (exists text, err = OSError text) /\ forall p x, f !! p = Some x -> f' !! p = Some x.
Proof.
  unfold opened_log_file.
  destruct (mkdir_from [] (d ++ [node e; user e]) f) as [f1|] eqn:Hm.
  - destruct (mkdir_from_spec _ _ _ _ Hm) as (H1 & _ & _).
    destruct (f1 !! log_file_path e d) as [[|t]|]; try discriminate.
    intros H. injection H as <- <-. split; [eauto | exact H1].
  - intros H. injection H as <- <-. split; [eauto | auto].
Qed.

(** X11: the first call of [set_log_directory].  With no directory set
    yet, the call stores the directory, whether or not it then succeeds, so
    that every later call is without effect.  No entry of the file tree is
    removed or changed.  When the directory is not there, nothing else
    happens.  When it is there, the shared file handler is made, unless a
    file is in the way of one of the directories, or a directory in the way
    of the log file, in which case the call fails with an [OSError] and no
    handler is made; after a success the directories for the machine and
    the user and the log file of the day exist, and the handler, at [DEBUG],
    is the one the global holds. *)
Theorem X11_set_log_directory_first_call :
  forall (cs : bool) (files : gmap Path Node) (ops : list (Env * Op)) (e : Env) (d : Path),
    let st := run ops (initial_state cs files) in
    _LOG_DIRECTORY st = None ->
    let r := set_log_directory e d st in
    let st' := state_of r in
    _LOG_DIRECTORY st' = Some d /\
    (forall e2 d2, set_log_directory e2 d2 st' = Ok tt st') /\
    (forall p x, fs st !! p = Some x -> fs st' !! p = Some x) /\
    (is_dir d st = false -> r = Ok tt (set__LOG_DIRECTORY (Some d) st)) /\
    (is_dir d st = true ->
     (is_ok r = true <-> exists f, opened_log_file e d (fs st) = inr f) /\
     (is_ok r = true ->
      is_dir (d ++ [node e]) st' = true /\ is_dir (d ++ [node e; user e]) st' = true /\
      is_file (log_file_path e d) st' = true /\
      _SHARED_FILE_HANDLER st' = Some (length (handler_heap st)) /\
      handler_heap st'
      = handler_heap st ++ [shared_file_handler e d (_COLOR_SUPPORTED st)]) /\
     (is_ok r = false ->
      (exists text, r = Raise (OSError text) st') /\
      _SHARED_FILE_HANDLER st' = None /\ handler_heap st' = handler_heap st)).
Proof.
  intros cs files ops e d st Hd r st'.
  pose proof (well_formed_reached cs files ops) as Hwf. fold st in Hwf.
  destruct (well_formed_no_sink st Hwf Hd) as [Hsh _].
  assert (Hdir : _LOG_DIRECTORY st' = Some d).
  { unfold st', r. apply set_log_directory_first, Hd. }
  split; [exact Hdir|].
  split; [intros e2 d2; eapply set_log_directory_already, Hdir|].
  assert (Hr : r = if is_dir d st
                   then match opened_log_file e d (fs st) with
                        | inl (err, f) => Raise err (set_fs f (set__LOG_DIRECTORY (Some d) st))
                        | inr f =>
                            Ok tt (set__SHARED_FILE_HANDLER (Some (length (handler_heap st)))
                                     (push_handler
                                        (shared_file_handler e d (_COLOR_SUPPORTED st))
                                        (set_fs f (set__LOG_DIRECTORY (Some d) st))))
                        end
                   else Ok tt (set__LOG_DIRECTORY (Some d) st)).
  { unfold r, set_log_directory. mstep. rewrite Hd. repeat mstep.
    change (is_dir d (set__LOG_DIRECTORY (Some d) st)) with (is_dir d st).
    destruct (is_dir d st); [|reflexivity].
    unfold bind at 1.
    rewrite (store_shared_file_handler_eq e d (set__LOG_DIRECTORY (Some d) st) eq_refl).
    simpl fs. destruct (opened_log_file e d (fs st)) as [[err f]|f]; reflexivity. }
  clearbody r. subst r. subst st'.
  destruct (is_dir d st) eqn:Hisdir.
  - destruct (opened_log_file e d (fs st)) as [[err f]|f] eqn:Hopen; cbn [state_of is_ok].
    + destruct (opened_log_file_error _ _ _ _ _ Hopen) as [[text ->] Hkeep].
      split; [exact Hkeep|]. split; [discriminate|]. intros _.
      split; [split; [discriminate | intros [f' Hf']; discriminate]|].
      split; [discriminate|]. intros _. split; [eauto|]. split; [exact Hsh | reflexivity].
    + destruct (opened_log_file_spec _ _ _ _ Hopen) as (Hkeep & Hthere).
      split; [exact Hkeep|]. split; [discriminate|]. intros _.
      split; [split; [eauto | reflexivity]|].
      split; [|discriminate]. intros _.
      destruct (Hthere (set__LOG_DIRECTORY (Some d) st)) as (Ha & Hb & Hc).
      split; [exact Ha|]. split; [exact Hb|]. split; [exact Hc|]. split; reflexivity.
  - cbn [state_of]. split; [auto|]. split; [reflexivity | discriminate].
Qed.

Lemma X11_set_log_directory_first_call_witness :
  let st' := state_of (set_log_directory example_env ["logs"%string]
                         (initial_state false example_files)) in
  _LOG_DIRECTORY st' = Some ["logs"%string] /\
  set_log_directory example_env ["elsewhere"%string] st' = Ok tt st' /\
  is_file (log_file_path example_env ["logs"%string]) st' = true /\
  _SHARED_FILE_HANDLER st' = Some 0%nat.
Proof.
  destruct (X11_set_log_directory_first_call false example_files [] example_env
              ["logs"%string] eq_refl) as (H1 & H2 & _ & _ & H5).
  destruct (H5 eq_refl) as (_ & Hok & _).
  assert (Hr : is_ok (set_log_directory example_env ["logs"%string]
                        (run [] (initial_state false example_files))) = true)
    by (vm_compute; reflexivity).
  destruct (Hok Hr) as (_ & _ & Hf & Hs & _).
  cbv zeta. split; [exact H1|]. split; [apply H2|]. split; [exact Hf | exact Hs].
Defined.

(** ** The first logger that saves to the file *)

Lemma handlers_of_finished j n logger st :
  handlers_of j (finished n logger st) = handlers_of j st.
Proof.
  unfold finished, leveled. simpl _DEFAULT_LEVEL.
  destruct (_DEFAULT_LEVEL st); handlers_of_norm; reflexivity.
Qed.

Lemma handler_kind_finished n logger st :
  handler_kind <$> handler_heap (finished n logger st) = handler_kind <$> handler_heap st.
Proof.
  unfold finished, leveled. simpl _DEFAULT_LEVEL.
  destruct (_DEFAULT_LEVEL st); [|reflexivity]. simpl. apply set_handler_levels_kind.
Qed.

Lemma finished_frame n logger st :
  (fs (finished n logger st), stdout (finished n logger st),
   _SHARED_FILE_HANDLER (finished n logger st), loggerDict (finished n logger st),
   _LOG_DIRECTORY (finished n logger st))
  = (fs st, stdout st, _SHARED_FILE_HANDLER st, loggerDict st, _LOG_DIRECTORY st) /\
  _CONFIGURED_LOGGERS (finished n logger st) = {[n]} ∪ _CONFIGURED_LOGGERS st.
Proof.
  unfold finished, leveled. simpl _DEFAULT_LEVEL.
  destruct (_DEFAULT_LEVEL st); split; reflexivity.
Qed.

Lemma logger_finished n logger st lg :
  logger_heap st !! logger = Some lg ->
  exists lg',
    logger_heap (finished n logger st) !! logger = Some lg' /\
    lg_class lg' = lg_class lg /\ lg_propagate lg' = false /\
    lg_handlers lg' = lg_handlers lg.
Proof.
  intros H. unfold finished, leveled. simpl _DEFAULT_LEVEL.
  destruct (_DEFAULT_LEVEL st); unfold update_logger; simpl;
    rewrite ?list_lookup_alter_eq, H; simpl; eexists; (split; [reflexivity|]);
    repeat split; reflexivity.
Qed.

(** The state in which the first logger of a new name is wired: the console
    handler is made and attached to the new logger. *)
Lemma fresh_logger_console n cls formatter st :
  let id := length (logger_heap st) in
  let hc := length (handler_heap st) in
  let st2 := attach id hc (push_handler (console_handler formatter) (registered n cls st)) in
  logger_heap st2 !! id
  = Some {| lg_name := n; lg_class := cls; lg_level := NOTSET; lg_handlers := [hc];
            lg_propagate := true |} /\
  handler_heap st2 = handler_heap st ++ [console_handler formatter] /\
  structure st2
  = (logger_heap st2, handler_heap st2, loggerDict (registered n cls st),
     _CONFIGURED_LOGGERS st, _SHARED_FILE_HANDLER st, _LOG_DIRECTORY st,
     _COLOR_SUPPORTED st) /\
  fs st2 = fs st /\ stdout st2 = stdout st /\ _DEFAULT_LEVEL st2 = _DEFAULT_LEVEL st.
Proof.
  cbv zeta. split; [|repeat split; reflexivity].
  unfold attach, update_logger, registered. simpl.
  rewrite list_lookup_alter_eq, lookup_app_r, Nat.sub_diag by lia. reflexivity.
Qed.

Lemma attach_second logger h lg st :
  logger_heap st !! logger = Some lg -> h ∉ lg_handlers lg ->
  logger_heap (attach logger h st) !! logger
  = Some (with_handlers (lg_handlers lg ++ [h]) lg).
Proof.
  intros H Hn. unfold attach, update_logger. simpl.
  rewrite list_lookup_alter_eq, H. simpl.
  rewrite bool_decide_eq_false_2 by exact Hn. reflexivity.
Qed.

(** X12: the shared file handler is made by the first logger that needs
    it.  When the log directory is set and there but no shared file handler
    exists (the directory was missing, or making the handler failed, when
    [set_log_directory] was called), [configure_logger] with
    [save_to_file=True] for a name the registry does not hold makes it, if
    the directories and the log file can be made: the call returns the new
    logger, prints nothing, and the logger has two handlers, the new console
    handler with the formatter asked for and then the new file handler,
    which the global holds from now on. *)
Theorem X12_first_file_logger_makes_the_sink :
  forall (e : Env) (n : string) (ec es : bool) (d : Path) (f : gmap Path Node)
         (st : State),
    _LOG_DIRECTORY st = Some d -> is_dir d st = true ->
    _SHARED_FILE_HANDLER st = None ->
    loggerDict st !! n = None -> is_root_name n = false ->
    opened_log_file e d (fs st) = inr f ->
    let id := length (logger_heap st) in
    let hc := length (handler_heap st) in
    exists st' lg,
      configure_logger e n ec es true st = Ok id st' /\
      fs st' = f /\ stdout st' = stdout st /\
      _SHARED_FILE_HANDLER st' = Some (S hc) /\
      logger_heap st' !! id = Some lg /\
      lg_class lg = FXColorLogger_class /\ lg_propagate lg = false /\
      lg_handlers lg = [hc; S hc] /\
      handler_kind <$> handler_heap st'
      = (handler_kind <$> handler_heap st)
        ++ [(StreamHandler, FXFormatter_init (_COLOR_SUPPORTED st) ec es);
            handler_kind (shared_file_handler e d (_COLOR_SUPPORTED st))] /\
      n ∈ _CONFIGURED_LOGGERS st'.
Proof.
  intros e n ec es d f st Hd Hdir Hsh Hdict Hroot Hopen id hc.
  assert (Hu : log_directory_usable st = true).
  { unfold log_directory_usable. rewrite Hd. exact Hdir. }
  rewrite (configure_logger_fresh e n ec es true st Hdict Hroot).
  unfold warned. rewrite Hu. simpl andb. cbv iota.
  rewrite wire_logger_eq. cbv zeta. cbv iota.
  change (_SHARED_FILE_HANDLER (registered n FXColorLogger_class st))
    with (_SHARED_FILE_HANDLER st). rewrite Hsh.
  change (length (handler_heap (registered n FXColorLogger_class st))) with hc.
  fold id.
  destruct (fresh_logger_console n FXColorLogger_class
              (FXFormatter_init (_COLOR_SUPPORTED st) ec es) st)
    as (Hlg2 & Hh2 & _ & Hfs2 & Hout2 & _).
  fold id hc in Hlg2, Hh2, Hfs2, Hout2.
  set (st2 := attach id hc _) in *.
  rewrite (store_shared_file_handler_eq e d st2 Hd).
  rewrite Hfs2, Hopen.
  assert (Hlen : length (handler_heap st2) = S hc).
  { rewrite Hh2, length_app. simpl. unfold hc. lia. }
  rewrite Hlen.
  set (st3 := set__SHARED_FILE_HANDLER (Some (S hc)) _).
  assert (Hlg3 : logger_heap (attach id (S hc) st3) !! id
                 = Some (with_handlers ([hc] ++ [S hc])
                           {| lg_name := n; lg_class := FXColorLogger_class;
                              lg_level := NOTSET; lg_handlers := [hc];
                              lg_propagate := true |})).
  { apply (attach_second id (S hc) _ st3 Hlg2). simpl.
    intros Hin. apply list_elem_of_singleton in Hin. lia. }
  destruct (logger_finished n id _ _ Hlg3) as (lg & Hlg & Hcls & Hprop & Hhs).
  destruct (finished_frame n id (attach id (S hc) st3)) as [Hfr Hconf].
  injection Hfr as Hfs Hout Hshared _ _.
  eexists _, lg. split; [reflexivity|].
  split; [rewrite Hfs; reflexivity|].
  split; [rewrite Hout; exact Hout2|].
  split; [rewrite Hshared; reflexivity|].
  split; [exact Hlg|]. split; [exact Hcls|]. split; [exact Hprop|].
  split; [exact Hhs|]. split.
  - rewrite handler_kind_finished.
    change (handler_heap (attach id (S hc) st3))
      with (handler_heap st2 ++ [shared_file_handler e d (_COLOR_SUPPORTED st)]).
    rewrite Hh2, <- app_assoc, fmap_app. reflexivity.
  - rewrite Hconf. apply elem_of_union. left. apply elem_of_singleton. reflexivity.
Qed.

Lemma X12_first_file_logger_makes_the_sink_witness :
  exists st' lg,
    configure_logger example_env "app" true true true late_directory_state = Ok 1%nat st' /\
    _SHARED_FILE_HANDLER st' = Some 1%nat /\
    logger_heap st' !! 1%nat = Some lg /\
    lg_handlers lg = [0%nat; 1%nat].
Proof.
  assert (Hcan : match opened_log_file example_env ["logs"%string]
                          (fs late_directory_state) with
                  | inl _ => false
                  | inr _ => true
                  end = true) by (vm_compute; reflexivity).
  destruct (opened_log_file example_env ["logs"%string] (fs late_directory_state))
    as [[err f']|f] eqn:Hopen; [discriminate Hcan|].
  assert (H1 : _LOG_DIRECTORY late_directory_state = Some ["logs"%string])
    by (vm_compute; reflexivity).
  assert (H2 : is_dir ["logs"%string] late_directory_state = true)
    by (vm_compute; reflexivity).
  assert (H3 : _SHARED_FILE_HANDLER late_directory_state = None)
    by (vm_compute; reflexivity).
  assert (H4 : loggerDict late_directory_state !! "app"%string = None)
    by (vm_compute; reflexivity).
  assert (H5 : length (logger_heap late_directory_state) = 1%nat)
    by (vm_compute; reflexivity).
  assert (H6 : length (handler_heap late_directory_state) = 0%nat)
    by (vm_compute; reflexivity).
  destruct (X12_first_file_logger_makes_the_sink example_env "app" true true
              ["logs"%string] _ late_directory_state H1 H2 H3 H4 eq_refl
              Hopen) as (st' & lg & Hr & _ & _ & Hs & Hlg & _ & _ & Hhs & _).
  rewrite H5 in Hr, Hlg. rewrite H6 in Hs, Hhs.
  exists st', lg. split; [exact Hr|]. split; [exact Hs|]. split; [exact Hlg | exact Hhs].
Defined.

(** ** A call that fails half way *)

Lemma configure_logger_existing_FXColorLogger e n ec es sf id st :
  is_Some (loggerDict st !! n) -> existing_logger n st = Some id ->
  class_of id st = Some FXColorLogger_class ->
  configure_logger e n ec es sf st = Ok id (warned n sf st).
Proof.
  intros Hd Hex Hc. unfold configure_logger.
  rewrite (bind_ok _ _ _ _ _ (check_save_to_file_eq n sf st)). fold (warned n sf st).
  assert (Hw : forall A (f : State -> A),
            (forall v s, f (set_stdout v s) = f s) -> f (warned n sf st) = f st).
  { intros A f Hf. unfold warned. destruct (sf && negb (log_directory_usable st)); auto. }
  assert (H1 : is_Some (loggerDict (warned n sf st) !! n)).
  { rewrite (Hw _ (fun s => loggerDict s !! n)) by reflexivity. exact Hd. }
  assert (H2 : existing_logger n (warned n sf st) = Some id).
  { rewrite (Hw _ (existing_logger n)) by reflexivity. exact Hex. }
  assert (H3 : class_of id (warned n sf st) = Some FXColorLogger_class).
  { rewrite (Hw _ (class_of id)) by reflexivity. exact Hc. }
  rewrite (bind_ok _ _ _ _ _ (existing_FXColorLogger_hit n (warned n sf st) id H1 H2 H3)).
  reflexivity.
Qed.

(** X13: when making the shared file handler fails, [configure_logger]
    fails with the [OSError] after it has made the logger and attached the
    console handler, and before it has switched propagation off and tracked
    the name.  The logger stays that way: every later call for the name,
    whatever happened in between and whatever it asks for, finds an
    [FXColorLogger] and returns it as it is, and at most prints the warning
    about the log directory. *)
Theorem X13_failed_call_leaves_the_logger_unfinished :
  forall (e : Env) (n : string) (ec es : bool) (d : Path) (err : Exception)
         (f : gmap Path Node) (st : State),
    _LOG_DIRECTORY st = Some d -> is_dir d st = true ->
    _SHARED_FILE_HANDLER st = None ->
    loggerDict st !! n = None -> is_root_name n = false ->
    opened_log_file e d (fs st) = inl (err, f) ->
    let id := length (logger_heap st) in
    let hc := length (handler_heap st) in
    exists st',
      configure_logger e n ec es true st = Raise err st' /\
      (exists text, err = OSError text) /\
      fs st' = f /\ _SHARED_FILE_HANDLER st' = None /\
      _CONFIGURED_LOGGERS st' = _CONFIGURED_LOGGERS st /\
      logger_heap st' !! id
      = Some {| lg_name := n; lg_class := FXColorLogger_class; lg_level := NOTSET;
                lg_handlers := [hc]; lg_propagate := true |} /\
      handler_heap st'
      = handler_heap st
        ++ [console_handler (FXFormatter_init (_COLOR_SUPPORTED st) ec es)] /\
      forall (ops : list (Env * Op)) (e2 : Env) (ec2 es2 sf2 : bool),
        let st2 := run ops st' in
        configure_logger e2 n ec2 es2 sf2 st2 = Ok id (warned n sf2 st2).
Proof.
  intros e n ec es d err f st Hd Hdir Hsh Hdict Hroot Hopen id hc.
  assert (Hu : log_directory_usable st = true).
  { unfold log_directory_usable. rewrite Hd. exact Hdir. }
  rewrite (configure_logger_fresh e n ec es true st Hdict Hroot).
  unfold warned. rewrite Hu. simpl andb. cbv iota.
  rewrite wire_logger_eq. cbv zeta. cbv iota.
  change (_SHARED_FILE_HANDLER (registered n FXColorLogger_class st))
    with (_SHARED_FILE_HANDLER st). rewrite Hsh.
  change (length (handler_heap (registered n FXColorLogger_class st))) with hc.
  fold id.
  destruct (fresh_logger_console n FXColorLogger_class
              (FXFormatter_init (_COLOR_SUPPORTED st) ec es) st)
    as (Hlg2 & Hh2 & _ & Hfs2 & _ & _).
  fold id hc in Hlg2, Hh2, Hfs2.
  set (st2 := attach id hc _) in *.
  rewrite (store_shared_file_handler_eq e d st2 Hd).
  rewrite Hfs2, Hopen.
  destruct (opened_log_file_error _ _ _ _ _ Hopen) as [Herr _].
  exists (set_fs f st2). split; [reflexivity|]. split; [exact Herr|].
  split; [reflexivity|]. split; [exact Hsh|]. split; [reflexivity|].
  split; [exact Hlg2|]. split; [exact Hh2|].
  intros ops e2 ec2 es2 sf2.
  change (configure_logger e2 n ec2 es2 sf2 (run ops (set_fs f st2))
          = Ok id (warned n sf2 (run ops (set_fs f st2)))).
  pose proof (grows_run ops (set_fs f st2)) as Hg.
  assert (Hdn : loggerDict (set_fs f st2) !! n = Some (LoggerRef id)).
  { change (loggerDict (set_fs f st2)) with (loggerDict (registered n FXColorLogger_class st)).
    unfold registered. simpl.
    apply _fixupParents_kept. apply lookup_insert_eq. }
  apply configure_logger_existing_FXColorLogger.
  - rewrite (grows_dict _ _ Hg n id Hdn). eauto.
  - unfold existing_logger. rewrite Hroot, (grows_dict _ _ Hg n id Hdn). reflexivity.
  - apply (grows_class _ _ Hg). unfold class_of.
    change (logger_heap (set_fs f st2)) with (logger_heap st2). rewrite Hlg2. reflexivity.
Qed.

Lemma X13_failed_call_leaves_the_logger_unfinished_witness :
  exists st',
    is_ok (configure_logger example_env "app" true true true blocked_directory_state)
    = false /\
    state_of (configure_logger example_env "app" true true true blocked_directory_state)
    = st' /\
    configure_logger example_env "app" true true true
      (run [(example_env, files_change example_files)] st')
    = Ok 1%nat (warned "app" true (run [(example_env, files_change example_files)] st')).
Proof.
  assert (Hcan : match opened_log_file example_env ["logs"%string]
                          (fs blocked_directory_state) with
                  | inl _ => true
                  | inr _ => false
                  end = true) by (vm_compute; reflexivity).
  destruct (opened_log_file example_env ["logs"%string] (fs blocked_directory_state))
    as [[err f]|f'] eqn:Hopen; [|discriminate Hcan].
  assert (H1 : _LOG_DIRECTORY blocked_directory_state = Some ["logs"%string])
    by (vm_compute; reflexivity).
  assert (H2 : is_dir ["logs"%string] blocked_directory_state = true)
    by (vm_compute; reflexivity).
  assert (H3 : _SHARED_FILE_HANDLER blocked_directory_state = None)
    by (vm_compute; reflexivity).
  assert (H4 : loggerDict blocked_directory_state !! "app"%string = None)
    by (vm_compute; reflexivity).
  assert (H5 : length (logger_heap blocked_directory_state) = 1%nat)
    by (vm_compute; reflexivity).
  destruct (X13_failed_call_leaves_the_logger_unfinished example_env "app" true true
              ["logs"%string] err f blocked_directory_state H1 H2 H3 H4 eq_refl Hopen)
    as (st' & Hr & _ & _ & _ & _ & _ & _ & Hlater).
  exists st'. rewrite Hr. split; [reflexivity|]. split; [reflexivity|].
  rewrite <- H5. apply Hlater.
Defined.

(** ** What the operations can raise *)







(** ** The level of a new logger *)

Lemma names_and_levels_attach logger h st :
  names_and_levels (attach logger h st) = names_and_levels st.
Proof.
  unfold names_and_levels, attach, update_logger. simpl.
  apply fmap_alter_same. intros lg. case_bool_decide; reflexivity.
Qed.

Lemma names_and_levels_finished n logger st :
  _DEFAULT_LEVEL st = None -> names_and_levels (finished n logger st) = names_and_levels st.
Proof.
  intros H. unfold finished, leveled. simpl _DEFAULT_LEVEL. rewrite H.
  unfold names_and_levels, update_logger. simpl. apply fmap_alter_same. reflexivity.
Qed.

Lemma names_and_levels_wire_logger e n logger formatter cs st :
  _DEFAULT_LEVEL st = None ->
  names_and_levels (state_of (wire_logger e n logger formatter cs st)) = names_and_levels st.
Proof.
  intros Hd. rewrite wire_logger_eq. cbv zeta.
  set (st1 := attach logger (length (handler_heap st)) _).
  assert (H1 : names_and_levels st1 = names_and_levels st)
    by (unfold st1; rewrite names_and_levels_attach; reflexivity).
  assert (Hd1 : _DEFAULT_LEVEL st1 = None) by exact Hd.
  destruct cs.
  - destruct (_SHARED_FILE_HANDLER st) as [h|].
    + cbn [state_of]. rewrite names_and_levels_finished by exact Hd1.
      rewrite names_and_levels_attach. exact H1.
    + assert (Hfr : frames (fun s => (_DEFAULT_LEVEL s, logger_heap s))
                      (store_shared_file_handler e)) by frames_tac.
      specialize (Hfr st1).
      destruct (store_shared_file_handler e st1) as [h st2|err st2]; simpl in Hfr;
        injection Hfr as Hd2 Hl2; cbn [state_of].
      * rewrite names_and_levels_finished by (simpl; congruence).
        rewrite names_and_levels_attach. unfold names_and_levels. rewrite Hl2. exact H1.
      * unfold names_and_levels. rewrite Hl2. exact H1.
  - cbn [state_of]. rewrite names_and_levels_finished by exact Hd1. exact H1.
Qed.

Lemma parent_prefixes_no_dot n : contains_char "."%char n = false -> parent_prefixes n = [].
Proof.
  intros H. unfold parent_prefixes, rfind. rewrite rfind_from_absent by exact H.
  destruct (String.length n); reflexivity.
Qed.

Lemma ancestors_no_dot self st lg :
  self <> root_id -> logger_heap st !! self = Some lg ->
  contains_char "."%char (lg_name lg) = false -> ancestors self st = [root_id].
Proof.
  intros Hne Hlg Hdot. unfold ancestors. rewrite decide_False by exact Hne. rewrite Hlg.
  destruct (String.length (lg_name lg)); simpl; [reflexivity|].
  rewrite (parent_prefixes_no_dot _ Hdot). reflexivity.
Qed.

(** X15: a new logger has no level of its own.  With no default level
    stored, [configure_logger] for a name without a dot that the registry
    does not hold leaves the new logger at [NOTSET], whether the call returns
    or fails: its threshold is the level of the root logger, [WARNING] in a
    process that did not change it, and a leveled call below that level does
    nothing at all, until the level of the logger is set. *)
Theorem X15_new_logger_has_no_level :
  forall (e : Env) (n : string) (ec es sf : bool) (st : State) (T : Z),
    _DEFAULT_LEVEL st = None ->
    loggerDict st !! n = None -> is_root_name n = false ->
    contains_char "."%char n = false ->
    lg_level <$> logger_heap st !! root_id = Some T ->
    let id := length (logger_heap st) in
    let st' := state_of (configure_logger e n ec es sf st) in
    (forall cs files,
       lg_level <$> logger_heap (initial_state cs files) !! root_id = Some WARNING) /\
    (exists lg, logger_heap st' !! id = Some lg /\ lg_name lg = n /\ lg_level lg = NOTSET) /\
    getEffectiveLevel id st' = T /\
    (forall op m c caller e2,
       op_level op < T -> FXColorLogger_emit op id m c caller e2 st' = Ok tt st') /\
    (forall level, level <> NOTSET ->
       getEffectiveLevel id (state_of (Logger_setLevel id level st')) = level).
Proof.
  intros e n ec es sf st T Hd Hdict Hroot Hdot HT id st'.
  split; [reflexivity|].
  assert (Hw : forall A (f : State -> A),
            (forall v s, f (set_stdout v s) = f s) -> f (warned n sf st) = f st).
  { intros A f Hf. unfold warned. destruct (sf && negb (log_directory_usable st)); auto. }
  set (st1 := registered n FXColorLogger_class (warned n sf st)).
  assert (Hnl : names_and_levels st' = names_and_levels st ++ [(n, NOTSET)]).
  { unfold st'. rewrite (configure_logger_fresh e n ec es sf st Hdict Hroot).
    fold st1. rewrite names_and_levels_wire_logger.
    - unfold st1, names_and_levels, registered. simpl.
      rewrite (Hw _ logger_heap) by reflexivity. rewrite fmap_app. reflexivity.
    - unfold st1. simpl. rewrite (Hw _ _DEFAULT_LEVEL) by reflexivity. exact Hd. }
  assert (Hid : names_and_levels st' !! id = Some (n, NOTSET)).
  { rewrite Hnl. unfold id. rewrite lookup_app_r by (unfold names_and_levels; rewrite length_fmap; lia).
    unfold names_and_levels. rewrite length_fmap, Nat.sub_diag. reflexivity. }
  assert (Hr : names_and_levels st' !! root_id = Some ("root"%string, T) \/
               exists nm, names_and_levels st' !! root_id = Some (nm, T)).
  { right. destruct (logger_heap st !! root_id) as [rt|] eqn:Hrt; [|discriminate].
    exists (lg_name rt). rewrite Hnl.
    rewrite lookup_app_l by (unfold names_and_levels; rewrite length_fmap;
                             eapply lookup_lt_Some, Hrt).
    unfold names_and_levels. rewrite list_lookup_fmap, Hrt. simpl.
    simpl in HT. congruence. }
  unfold names_and_levels in Hid, Hr. rewrite list_lookup_fmap in Hid.
  destruct (logger_heap st' !! id) as [lg|] eqn:Hlg; [|discriminate].
  simpl in Hid. injection Hid as Hname Hlevel.
  assert (Hrt' : exists rt, logger_heap st' !! root_id = Some rt /\ lg_level rt = T).
  { destruct Hr as [Hr|[nm Hr]]; rewrite list_lookup_fmap in Hr;
      destruct (logger_heap st' !! root_id) as [rt|]; try discriminate;
      simpl in Hr; exists rt; split; congruence. }
  destruct Hrt' as (rt & Hrt & HrtT).
  assert (Hne : id <> root_id).
  { unfold id, root_id. destruct (logger_heap st); [discriminate | simpl; lia]. }
  assert (Heff : getEffectiveLevel id st' = T).
  { unfold getEffectiveLevel.
    rewrite (ancestors_no_dot id st' lg Hne Hlg) by (rewrite Hname; exact Hdot).
    simpl. rewrite Hlg, Hlevel. simpl. rewrite Hrt, HrtT.
    match goal with
    | |- (if ?x =? 0 then _ else _) = _ =>
        destruct (Z.eqb_spec x 0) as [E|E]; [rewrite E|]; reflexivity
    end. }
  split; [exists lg; repeat split; assumption|].
  split; [exact Heff|]. split.
  - intros op m c caller e2 Hlt. rewrite FXColorLogger_emit_eq. unfold isEnabledFor.
    rewrite Heff. replace (T <=? op_level op) with false by (symmetry; apply Z.leb_gt; lia).
    reflexivity.
  - intros level Hl. apply getEffectiveLevel_own; [|exact Hl].
    simpl. rewrite list_lookup_alter_eq, Hlg. reflexivity.
Qed.

Lemma X15_new_logger_has_no_level_witness :
  getEffectiveLevel 1
    (state_of (configure_logger example_env "app" true true false (initial_state false ∅)))
  = WARNING /\
  FXColorLogger_emit op_info 1 "hello" None example_caller example_env
    (state_of (configure_logger example_env "app" true true false (initial_state false ∅)))
  = Ok tt (state_of (configure_logger example_env "app" true true false
                       (initial_state false ∅))).
Proof.
  destruct (X15_new_logger_has_no_level example_env "app" true true false
              (initial_state false ∅) WARNING eq_refl eq_refl eq_refl eq_refl eq_refl)
    as (_ & _ & Heff & Hdrop & _).
  split; [exact Heff|]. apply Hdrop. reflexivity.
Defined.

(** ** Escape sequences in what is written *)

Lemma colour_ok_ext st st' :
  handler_kind <$> handler_heap st' = handler_kind <$> handler_heap st ->
  _COLOR_SUPPORTED st' = _COLOR_SUPPORTED st ->
  colour_ok st -> colour_ok st'.
Proof.
  intros Hk Hc H h hd' Hhd' Hen. rewrite Hc.
  destruct (lookup_fmap_eq _ _ _ _ _ Hk Hhd') as (hd & Hhd & Heq).
  apply (H h hd Hhd). unfold handler_kind in Heq. injection Heq as _ Hf. congruence.
Qed.

Lemma colour_ok_structure st st' : structure st' = structure st -> colour_ok st -> colour_ok st'.
Proof.
  unfold structure. intros H. injection H as _ Hh _ _ _ _ Hc.
  apply colour_ok_ext; congruence.
Qed.

Lemma colour_ok_push hd st :
  (enable_color (h_formatter hd) = true -> _COLOR_SUPPORTED st = true) ->
  colour_ok st -> colour_ok (push_handler hd st).
Proof.
  intros Hhd H h x Hx Hen. simpl in Hx.
  apply lookup_snoc_cases in Hx as [Hx|[_ ->]]; [apply (H h x Hx Hen) | apply Hhd, Hen].
Qed.

Lemma colour_ok_store e st :
  colour_ok st -> colour_ok (state_of (store_shared_file_handler e st)).
Proof.
  intros H. destruct (_LOG_DIRECTORY st) as [d|] eqn:Hd.
  - rewrite (store_shared_file_handler_eq e d st Hd).
    destruct (opened_log_file e d (fs st)) as [[err f]|f]; simpl.
    + eapply colour_ok_ext; [| |exact H]; reflexivity.
    + apply (colour_ok_push (shared_file_handler e d (_COLOR_SUPPORTED st)) (set_fs f st)).
      * simpl. destruct (_COLOR_SUPPORTED st); discriminate.
      * eapply colour_ok_ext; [| |exact H]; reflexivity.
  - rewrite (store_shared_file_handler_unset e st Hd). exact H.
Qed.

Lemma colour_ok_finished n logger st : colour_ok st -> colour_ok (finished n logger st).
Proof.
  apply colour_ok_ext; [apply handler_kind_finished|].
  unfold finished, leveled. simpl _DEFAULT_LEVEL. destruct (_DEFAULT_LEVEL st); reflexivity.
Qed.

Lemma colour_ok_wire_logger e n logger formatter cs st :
  (enable_color formatter = true -> _COLOR_SUPPORTED st = true) ->
  colour_ok st -> colour_ok (state_of (wire_logger e n logger formatter cs st)).
Proof.
  intros Hf H. rewrite wire_logger_eq. cbv zeta.
  set (st1 := attach logger (length (handler_heap st)) _).
  assert (H1 : colour_ok st1).
  { apply (colour_ok_ext (push_handler (console_handler formatter) st)); try reflexivity.
    apply colour_ok_push; assumption. }
  assert (Hat : forall h s, colour_ok s -> colour_ok (attach logger h s)).
  { intros h s. apply colour_ok_ext; reflexivity. }
  destruct cs.
  - destruct (_SHARED_FILE_HANDLER st) as [h|].
    + cbn [state_of]. apply colour_ok_finished, Hat, H1.
    + pose proof (colour_ok_store e st1 H1) as H2.
      destruct (store_shared_file_handler e st1) as [h st2|err st2]; cbn [state_of] in *.
      * apply colour_ok_finished, Hat, H2.
      * exact H2.
  - cbn [state_of]. apply colour_ok_finished, H1.
Qed.

Lemma colour_ok_getLogger n st : colour_ok st -> colour_ok (state_of (getLogger n st)).
Proof.
  assert (Hfr : frames (fun s => (handler_heap s, _COLOR_SUPPORTED s)) (getLogger n))
    by frames_tac.
  specialize (Hfr st). injection Hfr as Hh Hc. apply colour_ok_ext; congruence.
Qed.

Lemma colour_ok_configure_logger e n ec es sf st :
  colour_ok st -> colour_ok (state_of (configure_logger e n ec es sf st)).
Proof.
  intros H. unfold configure_logger.
  rewrite (bind_ok _ _ _ _ _ (check_save_to_file_eq n sf st)). fold (warned n sf st).
  assert (H0 : colour_ok (warned n sf st)).
  { unfold warned. destruct (sf && negb (log_directory_usable st)); [|exact H].
    eapply colour_ok_structure; [|exact H]. reflexivity. }
  set (st0 := warned n sf st) in *. clearbody st0.
  destruct (existing_FXColorLogger_never_raises n st0) as (found & st1 & Hf). mstep.
  assert (H1 : colour_ok st1).
  { destruct (existing_FXColorLogger_state _ _ _ _ Hf) as [->| ->];
      [exact H0 | apply colour_ok_getLogger, H0]. }
  destruct found as [id|]; [exact H1|].
  unfold build_logger. mstep.
  destruct (make_logger_eq n st1) as (id & st2 & Hg & Hm). mstep.
  pose proof (colour_ok_getLogger n (set__loggerClass FXColorLogger_class st1)) as H2.
  rewrite Hg in H2. simpl in H2.
  assert (Hc2 : _COLOR_SUPPORTED st2 = _COLOR_SUPPORTED st1).
  { assert (Hfr : frames _COLOR_SUPPORTED (getLogger n)) by frames_tac.
    specialize (Hfr (set__loggerClass FXColorLogger_class st1)). rewrite Hg in Hfr.
    exact Hfr. }
  apply colour_ok_wire_logger.
  - rewrite enable_color_init. simpl. rewrite Hc2. intros Hen.
    apply andb_true_iff in Hen as [Hen _]. exact Hen.
  - eapply colour_ok_ext; [| |apply H2]; [reflexivity.. |].
    eapply colour_ok_ext; [| |exact H1]; reflexivity.
Qed.

Lemma colour_ok_set_log_directory e d st :
  colour_ok st -> colour_ok (state_of (set_log_directory e d st)).
Proof.
  intros H. unfold set_log_directory. mstep.
  destruct (_LOG_DIRECTORY st) as [d0|]; [exact H|]. repeat mstep.
  set (st1 := set__LOG_DIRECTORY (Some d) st).
  assert (H1 : colour_ok st1) by (eapply colour_ok_ext; [| |exact H]; reflexivity).
  destruct (is_dir d st1); [|exact H1].
  pose proof (colour_ok_store e st1 H1) as H2.
  destruct (store_shared_file_handler e st1) as [h st2|err st2] eqn:Hs; repeat mstep;
    exact H2.
Qed.

Ltac colour_ok_leaf :=
  idtac;
  lazymatch goal with
  | |- keeps _ (getLogger _) => intros ? ?; apply colour_ok_getLogger; assumption
  | |- keeps _ (modify _) =>
      let st := fresh "st" in
      let H := fresh "H" in
      apply keeps_modify; intros st H; eapply colour_ok_ext; [| |exact H];
      [first [apply fmap_alter_same; reflexivity | reflexivity] | reflexivity]
  end.

Lemma colour_ok_set_loggers_level level :
  keeps (preserves colour_ok) (set_loggers_level level).
Proof.
  unfold set_loggers_level, set_level_of, Logger_setLevel, Handler_setLevel.
  repeat keeps_step colour_ok_leaf.
Qed.

Lemma colour_ok_step e o st : colour_ok st -> colour_ok (step e o st).
Proof.
  intros H.
  destruct o as [d | n ec es sf | level | days | | lg level | op lg m c caller | n | files];
    simpl.
  - apply colour_ok_set_log_directory, H.
  - apply colour_ok_configure_logger, H.
  - apply colour_ok_set_loggers_level, H.
  - eapply colour_ok_structure; [apply structure_delete_old_logs | exact H].
  - eapply colour_ok_structure; [apply structure_clear_logs | exact H].
  - eapply colour_ok_ext; [| |exact H]; reflexivity.
  - eapply colour_ok_structure; [apply structure_emit | exact H].
  - apply colour_ok_getLogger, H.
  - eapply colour_ok_ext; [| |exact H]; reflexivity.
Qed.

Lemma colour_ok_reached cs files ops :
  colour_ok (run ops (initial_state cs files)) /\
  _COLOR_SUPPORTED (run ops (initial_state cs files)) = cs.
Proof.
  assert (Hrun : forall st, colour_ok st ->
            colour_ok (run ops st) /\ _COLOR_SUPPORTED (run ops st) = _COLOR_SUPPORTED st).
  { induction ops as [|[e o] ops IH]; intros st H; [split; [exact H | reflexivity]|].
    rewrite run_cons. simpl fst. simpl snd.
    destruct (IH (step e o st) (colour_ok_step e o st H)) as [H1 H2].
    split; [exact H1|]. rewrite H2.
    destruct o as [d | n ec es sf | level | days | | lg level | op lg m c caller | n0 | files'];
      simpl; try reflexivity.
    - assert (Hfr : frames _COLOR_SUPPORTED (set_log_directory e d)) by frames_tac. apply Hfr.
    - assert (Hfr : frames _COLOR_SUPPORTED (configure_logger e n ec es sf)) by frames_tac.
      apply Hfr.
    - assert (Hfr : frames _COLOR_SUPPORTED (set_loggers_level level)) by frames_tac.
      apply Hfr.
    - assert (Hfr : frames _COLOR_SUPPORTED (delete_old_logs e days)) by frames_tac.
      apply Hfr.
    - assert (Hfr : frames _COLOR_SUPPORTED clear_logs) by frames_tac. apply Hfr.
    - assert (Hfr : frames _COLOR_SUPPORTED (emit op lg m c caller e)) by frames_tac.
      apply Hfr.
    - assert (Hfr : frames _COLOR_SUPPORTED (getLogger n0)) by frames_tac. apply Hfr. }
  apply Hrun. intros h hd H. destruct h; discriminate.
Qed.

(** The line a formatter without colour makes of a record with plain text. *)
Lemma format_string_no_colour_ansi_free self record line :
  enable_color self = false -> plain_text record ->
  format_string self record = Some line -> ansi_free line = true.
Proof.
  intros Hoff (Hname & Hlevel & Hfunc & Hmsg). unfold format_string, log_fmt.
  rewrite Hoff. simpl. intros H. injection H as <-.
  rewrite !ansi_free_app.
  rewrite ansi_free_formatTime, ansi_free_str, Hname, Hfunc, Hmsg.
  rewrite (ansi_free_rjust _ _ Hlevel).
  destruct (enable_separator self); reflexivity.
Qed.

Lemma Handler_handle_stderr h record st :
  stderr (snd (Handler_handle h record st))
  = stderr st ++
    match format_string (h_formatter h) record, h_class h with
    | None, _ => ["--- Logging error ---"%string]
    | Some text, StreamHandler => [text +:+ nl]
    | Some _, FXTimedRotatingFileHandler _ _ => []
    end.
Proof.
  unfold Handler_handle. rewrite FXFormatter_format_eq.
  destruct (format_string (h_formatter h) record) as [text|];
    [destruct (h_class h)|]; simpl; rewrite ?app_nil_r; reflexivity.
Qed.

(** The lines the handlers [hs] add to the console for a record: each is
    what the formatter of one of them makes of the record, or the report of
    a formatting error. *)
Lemma call_handlers_of_stderr hs record record0 st :
  formatted_record record = formatted_record record0 ->
  exists l,
    stderr (snd (call_handlers_of hs record st)) = stderr st ++ l /\
    forall text, text ∈ l ->
      text = "--- Logging error ---"%string \/
      exists h hd line,
        handler_heap st !! h = Some hd /\
        format_string (h_formatter hd) record0 = Some line /\ text = line +:+ nl.
Proof.
  revert record st. induction hs as [|hid hs IH]; intros record st Hrec.
  - exists []. simpl. rewrite app_nil_r. split; [reflexivity|].
    intros text Hin. inversion Hin.
  - cbn [call_handlers_of].
    destruct (handler_heap st !! hid) as [hd|] eqn:Hhd; [|apply IH, Hrec].
    destruct (h_level hd <=? levelno record); [|apply IH, Hrec].
    pose proof (Handler_handle_record hd record st) as Hr.
    pose proof (Handler_handle_stderr hd record st) as Hf.
    pose proof (structure_Handler_handle hd record st) as Hs.
    destruct (Handler_handle hd record st) as [record1 st1]. simpl in Hr, Hf, Hs.
    assert (Hheap : handler_heap st1 = handler_heap st)
      by (unfold structure in Hs; congruence).
    destruct (IH record1 st1) as (l & Hl & Hin).
    { rewrite Hr, formatted_record_idem. exact Hrec. }
    assert (Hfmt : format_string (h_formatter hd) record
                   = format_string (h_formatter hd) record0).
    { rewrite <- (format_string_formatted _ record), Hrec. apply format_string_formatted. }
    rewrite Hfmt in Hf.
    eexists. split; [rewrite Hl, Hf, <- app_assoc; reflexivity|].
    intros text Ht. apply elem_of_app in Ht as [Ht|Ht].
    + destruct (format_string (h_formatter hd) record0) as [line|] eqn:Hline.
      * destruct (h_class hd); [|inversion Ht].
        apply list_elem_of_singleton in Ht. subst text. right.
        exists hid, hd, line. repeat split; assumption.
      * apply list_elem_of_singleton in Ht. left. exact Ht.
    + destruct (Hin text Ht) as [He|(h & hd' & line & Hhd' & Hline & ->)]; [left; exact He|].
      right. exists h, hd', line. rewrite <- Hheap. repeat split; assumption.
Qed.

Lemma call_handlers_of_record hs record st :
  formatted_record (fst (call_handlers_of hs record st)) = formatted_record record.
Proof.
  revert record st. induction hs as [|hid hs IH]; intros record st; [reflexivity|].
  cbn [call_handlers_of].
  destruct (handler_heap st !! hid) as [hd|]; [|apply IH].
  destruct (h_level hd <=? levelno record); [|apply IH].
  pose proof (Handler_handle_record hd record st) as Hr.
  destruct (Handler_handle hd record st) as [r1 st1]. simpl in Hr. subst r1.
  rewrite IH. apply formatted_record_idem.
Qed.

Lemma callHandlers_chain_stderr chain found record record0 st :
  formatted_record record = formatted_record record0 ->
  exists l,
    stderr (snd (callHandlers_chain chain found record st)) = stderr st ++ l /\
    forall text, text ∈ l ->
      text = "--- Logging error ---"%string \/
      exists h hd line,
        handler_heap st !! h = Some hd /\
        format_string (h_formatter hd) record0 = Some line /\ text = line +:+ nl.
Proof.
  revert found record st. induction chain as [|c chain IH]; intros found record st Hrec.
  - exists []. simpl. rewrite app_nil_r. split; [reflexivity|].
    intros text Hin. inversion Hin.
  - cbn [callHandlers_chain]. destruct (logger_heap st !! c) as [lg|].
    + destruct (call_handlers_of_stderr (lg_handlers lg) record record0 st Hrec)
        as (l & Hl & Hin).
      pose proof (structure_call_handlers_of (lg_handlers lg) record st) as Hs.
      pose proof (call_handlers_of_record (lg_handlers lg) record st) as Hr.
      destruct (call_handlers_of (lg_handlers lg) record st) as [record1 st1].
      simpl in Hl, Hs, Hr.
      assert (Hheap : handler_heap st1 = handler_heap st)
        by (unfold structure in Hs; congruence).
      destruct (lg_propagate lg).
      * destruct (IH (found + length (lg_handlers lg))%nat record1 st1) as (l2 & Hl2 & Hin2).
        { rewrite Hr. exact Hrec. }
        exists (l ++ l2). split; [rewrite Hl2, Hl, <- app_assoc; reflexivity|].
        intros text Ht. apply elem_of_app in Ht as [Ht|Ht]; [apply Hin, Ht|].
        destruct (Hin2 text Ht) as [He|(h & hd & line & Hhd & Hline & ->)]; [left; exact He|].
        right. exists h, hd, line. rewrite <- Hheap. repeat split; assumption.
      * simpl. exists l. split; [exact Hl | exact Hin].
    + exists []. simpl. rewrite app_nil_r. split; [reflexivity|].
      intros text Hin. inversion Hin.
Qed.

(** X16: escape sequences in what a record makes the loggers write, in a
    state a process reaches, for a record whose own text (logger name, level
    name, function name, message) holds none.  What goes to the log file
    holds none, with or without colour support and whatever colour the call
    asked for.  In a process whose terminal does not support colour, what
    goes to the console holds none either. *)
Theorem X16_no_escape_sequence_written :
  forall (cs : bool) (files : gmap Path Node) (ops : list (Env * Op))
         (self : nat) (record : LogRecord),
    let st := run ops (initial_state cs files) in
    plain_text record ->
    exists (to_file : list (Path * string)) (to_console : list string),
      file_output (Logger_handle self record st) = file_output st ++ to_file /\
      stderr (Logger_handle self record st) = stderr st ++ to_console /\
      (forall p text, (p, text) ∈ to_file -> ansi_free text = true) /\
      (cs = false -> forall text, text ∈ to_console -> ansi_free text = true).
Proof.
  intros cs files ops self record st Hplain.
  pose proof (well_formed_reached cs files ops) as Hwf. fold st in Hwf.
  destruct (colour_ok_reached cs files ops) as [Hcol Hcs]. fold st in Hcol, Hcs.
  unfold Logger_handle, callHandlers.
  set (st0 := set_handled (handled st ++ [record]) st).
  assert (Hwf0 : well_formed st0) by (eapply well_formed_structure; [|exact Hwf]; reflexivity).
  destruct (callHandlers_chain_file_output (self :: ancestors self st0) 0 record st0 Hwf0)
    as (lf & Hlf & _ & Hinf).
  destruct (callHandlers_chain_stderr (self :: ancestors self st0) 0 record record st0 eq_refl)
    as (le & Hle & Hine).
  destruct (callHandlers_chain (self :: ancestors self st0) 0 record st0) as [found st1].
  simpl in Hlf, Hle.
  set (last := if (found =? 0)%nat
               then if WARNING <=? levelno record then [msg record +:+ nl] else []
               else []).
  exists lf, (le ++ last). split; [|split; [|split]].
  - rewrite <- Hlf. repeat case_match; reflexivity.
  - unfold last. repeat case_match; simpl; rewrite ?Hle, ?app_nil_r, <- ?app_assoc;
      reflexivity.
  - intros p text Hpt. destruct (Hinf p text Hpt) as (h & hd & s & line & Hhd & Hc & Hline & ->).
    change (handler_heap st0) with (handler_heap st) in Hhd.
    assert (Hf : is_file_handler hd = true) by (unfold is_file_handler; rewrite Hc; reflexivity).
    destruct (wf_single st Hwf h hd Hhd Hf) as (_ & e & d & _ & Hk).
    destruct (shared_file_handler_kind _ _ _ _ Hk) as [_ Hfm].
    rewrite ansi_free_app.
    rewrite (format_string_no_colour_ansi_free (h_formatter hd) record line);
      [reflexivity | rewrite Hfm; reflexivity | exact Hplain | exact Hline].
  - intros Hno text Ht. apply elem_of_app in Ht as [Ht|Ht].
    + destruct (Hine text Ht) as [->|(h & hd & line & Hhd & Hline & ->)]; [reflexivity|].
      change (handler_heap st0) with (handler_heap st) in Hhd.
      rewrite ansi_free_app.
      rewrite (format_string_no_colour_ansi_free (h_formatter hd) record line);
        [reflexivity | | exact Hplain | exact Hline].
      destruct (enable_color (h_formatter hd)) eqn:Hen; [|reflexivity].
      rewrite (Hcol h hd Hhd Hen) in Hcs. congruence.
    + unfold last in Ht. destruct Hplain as (_ & _ & _ & Hmsg).
      repeat case_match; try (inversion Ht; fail).
      apply list_elem_of_singleton in Ht. subst text.
      rewrite ansi_free_app, Hmsg. reflexivity.
Qed.

Lemma X16_no_escape_sequence_written_witness :
  plain_text (makeRecord "app" INFO "main.py" 7 "ready" "run" 0) /\
  exists to_file to_console,
    file_output (Logger_handle 1 (makeRecord "app" INFO "main.py" 7 "ready" "run" 0)
                   plain_console_state)
    = file_output plain_console_state ++ to_file /\
    stderr (Logger_handle 1 (makeRecord "app" INFO "main.py" 7 "ready" "run" 0)
              plain_console_state)
    = stderr plain_console_state ++ to_console /\
    (forall p text, (p, text) ∈ to_file -> ansi_free text = true) /\
    (forall text, text ∈ to_console -> ansi_free text = true).
Proof.
  assert (Hp : plain_text (makeRecord "app" INFO "main.py" 7 "ready" "run" 0))
    by (repeat split; reflexivity).
  split; [exact Hp|].
  destruct (X16_no_escape_sequence_written false example_files
              [(example_env, call_set_log_directory ["logs"%string]);
               (example_env, call_configure_logger "app" true true true);
               (example_env, call_setLevel 1 DEBUG)] 1%nat
              (makeRecord "app" INFO "main.py" 7 "ready" "run" 0) Hp)
    as (lf & le & H1 & H2 & H3 & H4).
  exists lf, le. split; [exact H1|]. split; [exact H2|]. split; [exact H3 | exact (H4 eq_refl)].
Defined.
